(** * nexus-insights: match synchronisation, derived statistics, badges, rank cache

    A shallow embedding of [src/components/badgeEvaluator.js] (the badge
    evaluator followed by the match service: [syncMatches],
    [computeAdvancedStatsForMatch], [getPlayerRank]) and the properties of
    these functions.

    Payloads are JavaScript values read from JSON.  Property access on
    [null]/[undefined] and a method call on a value that has no such method
    raise a [TypeError]; a raising step is [None] (or [Throw]) below.  *)

From Stdlib Require Import ZArith Lia Sorted.
From stdpp Require Import gmap strings list fin_maps pretty.

Open Scope Z_scope.

#[local] Set Warnings "-register-all".

(** ** JavaScript values *)

Module JS.

(** Numbers of a payload (ids, timestamps, coordinates, counters) are
    integers; [VNaN] is the not-a-number produced by arithmetic on a missing
    field.  An object is its list of properties; a name bound twice reads
    its first binding. *)
Inductive value : Type :=
  | VUndef
  | VNull
  | VBool (b : bool)
  | VNum (n : Z)
  | VNaN
  | VStr (s : string)
  | VArr (elems : list value)
  | VObj (props : list (string * value)).

Definition truthy (v : value) : bool :=
  match v with
  | VUndef | VNull | VNaN => false
  | VBool b => b
  | VNum n => negb (n =? 0)
  | VStr s => negb (String.eqb s "")
  | VArr _ | VObj _ => true
  end.

(** [a || b] *)
Definition js_or (a b : value) : value := if truthy a then a else b.

Definition nullish (v : value) : bool :=
  match v with VUndef | VNull => true | _ => false end.

Definition is_compound (v : value) : bool :=
  match v with VArr _ | VObj _ => true | _ => false end.

(** [a === b].  Arrays and objects compare by reference: two of them read
    from different places of a payload are never equal.  Where the source
    compares a value with itself, [same_or_eq] is used instead. *)
Definition strict_eq (a b : value) : bool :=
  match a, b with
  | VUndef, VUndef | VNull, VNull => true
  | VBool x, VBool y => Bool.eqb x y
  | VNum x, VNum y => x =? y
  | VStr x, VStr y => String.eqb x y
  | _, _ => false
  end.

(** [a === b] where [same] tells that both sides are one and the same
    value (the same property of the same object). *)
Definition same_or_eq (same : bool) (a b : value) : bool :=
  if same then match a with VNaN => false | _ => true end else strict_eq a b.

(** SameValueZero, the comparison of [Array.prototype.includes]. *)
Definition same_value_zero (a b : value) : bool :=
  match a, b with
  | VNaN, VNaN => true
  | _, _ => strict_eq a b
  end.

Definition includes (l : list value) (v : value) : bool :=
  existsb (same_value_zero v) l.

Fixpoint assoc (k : string) (props : list (string * value)) : option value :=
  match props with
  | [] => None
  | (k', v) :: rest => if String.eqb k k' then Some v else assoc k rest
  end.

(** The array index a property name denotes: the decimal numeral of a
    natural number, without sign or leading zero. *)
Definition is_digit (c : Ascii.ascii) : bool :=
  let n := Ascii.nat_of_ascii c in (48 <=? n)%nat && (n <=? 57)%nat.

Fixpoint digits_value (acc : nat) (s : string) : option nat :=
  match s with
  | EmptyString => Some acc
  | String c rest =>
      if is_digit c
      then digits_value (10 * acc + (Ascii.nat_of_ascii c - 48))%nat rest
      else None
  end.

Definition key_index (k : string) : option nat :=
  match k with
  | EmptyString => None
  | String c rest =>
      if (Ascii.nat_of_ascii c =? 48)%nat
      then (if String.eqb rest "" then Some 0%nat else None)
      else digits_value 0 k
  end.

(** [String(v)], the property name [v] denotes in [o[v]].  Integers print
    in plain decimal (JavaScript switches to exponent notation from 1e21). *)
Fixpoint toKey (v : value) : string :=
  match v with
  | VUndef => "undefined"
  | VNull => "null"
  | VBool true => "true"
  | VBool false => "false"
  | VNum n => pretty n
  | VNaN => "NaN"
  | VStr s => s
  | VArr l =>
      String.concat ","
        (map (fun e => if nullish e then "" else toKey e) l)
  | VObj _ => "[object Object]"
  end.

(** [v.k]: own properties only.  [None] is the [TypeError] of reading a
    property of [null] or [undefined]. *)
Definition get (v : value) (k : string) : option value :=
  match v with
  | VUndef | VNull => None
  | VObj props => Some (default VUndef (assoc k props))
  | VArr l =>
      if String.eqb k "length" then Some (VNum (Z.of_nat (length l)))
      else Some (default VUndef (i ← key_index k; l !! i))
  | VStr s =>
      if String.eqb k "length" then Some (VNum (Z.of_nat (String.length s)))
      else Some (default VUndef
                   (i ← key_index k;
                    c ← String.get i s;
                    Some (VStr (String c EmptyString))))
  | VBool _ | VNum _ | VNaN => Some VUndef
  end.

(** [v[key]] *)
Definition get_at (v key : value) : option value := get v (toKey key).

(** [v?.k] *)
Definition optget (v : value) (k : string) : value :=
  default VUndef (get v k).

(** [v?.[key]] *)
Definition optget_at (v key : value) : value := optget v (toKey key).

(** ToNumber.  [None] is NaN.  A string, array or object in a numeric
    position is taken as not-a-number (JavaScript would first try to read
    it as a numeral; payload numbers are JSON numbers). *)
Definition to_num (v : value) : option Z :=
  match v with
  | VNum n => Some n
  | VNull => Some 0
  | VBool b => Some (if b then 1 else 0)
  | VUndef | VNaN | VStr _ | VArr _ | VObj _ => None
  end.

Definition of_num (o : option Z) : value :=
  match o with Some n => VNum n | None => VNaN end.

Definition js_add (a b : value) : value :=
  of_num (x ← to_num a; y ← to_num b; Some (x + y)).

Definition js_sub (a b : value) : value :=
  of_num (x ← to_num a; y ← to_num b; Some (x - y)).

(** [a < b], [a > b], [a <= b], [a >= b]: false as soon as a side is NaN. *)
Definition js_cmp (op : Z → Z → bool) (a b : value) : bool :=
  match to_num a, to_num b with
  | Some x, Some y => op x y
  | _, _ => false
  end.
Definition js_lt := js_cmp Z.ltb.
Definition js_gt := js_cmp Z.gtb.
Definition js_le := js_cmp Z.leb.
Definition js_ge := js_cmp Z.geb.

(** [Math.floor(a / d)] for a positive integer constant [d]. *)
Definition floor_div (a : value) (d : Z) : value :=
  of_num (x ← to_num a; Some (x / d)).

(** [Math.min(a, b)] *)
Definition js_min (a b : value) : value :=
  of_num (x ← to_num a; y ← to_num b; Some (Z.min x y)).

(** [Math.abs(a - b) <= bound] *)
Definition abs_diff_le (a b : value) (bound : Z) : bool :=
  match to_num a, to_num b with
  | Some x, Some y => Z.abs (x - y) <=? bound
  | _, _ => false
  end.

(** The receiver of an array method ([find], [filter], [flatMap], ...):
    any other value has no such method and the call raises. *)
Definition as_array (v : value) : option (list value) :=
  match v with VArr l => Some l | _ => None end.

(** The values [for (const x of v)] visits; a value that is not iterable
    raises.  A string iterates over its characters. *)
Fixpoint chars (s : string) : list value :=
  match s with
  | EmptyString => []
  | String c rest => VStr (String c EmptyString) :: chars rest
  end.

Definition iterate (v : value) : option (list value) :=
  match v with
  | VArr l => Some l
  | VStr s => Some (chars s)
  | _ => None
  end.

(** [arr.find(cb)]: the first element, with its index, on which the
    callback is true.  The callback sees the index so that it can tell
    when it is handed one particular element.  Outer [None]: the callback
    raised. *)
Fixpoint find_from (cb : nat → value → option bool) (i : nat)
    (l : list value) : option (option (nat * value)) :=
  match l with
  | [] => Some None
  | p :: rest =>
      b ← cb i p;
      if b : bool then Some (Some (i, p)) else find_from cb (S i) rest
  end.

(** [arr.filter(cb)], keeping the index of each element kept. *)
Fixpoint filter_from (cb : nat → value → option bool) (i : nat)
    (l : list value) : option (list (nat * value)) :=
  match l with
  | [] => Some []
  | p :: rest =>
      b ← cb i p;
      tl ← filter_from cb (S i) rest;
      Some (if b : bool then (i, p) :: tl else tl)
  end.

(** [arr.filter(cb)] for a callback that does not use the index. *)
Fixpoint filterM (cb : value → option bool) (l : list value)
    : option (list value) :=
  match l with
  | [] => Some []
  | p :: rest =>
      b ← cb p;
      tl ← filterM cb rest;
      Some (if b : bool then p :: tl else tl)
  end.

(** [arr.indexOf(p)] for the element [p] found at index [i] of [arr]: an
    object or array is found at its own place, a primitive at the first
    place holding an equal value ([-1] for NaN). *)
Fixpoint first_eq (p : value) (i : nat) (l : list value) : Z :=
  match l with
  | [] => -1
  | q :: rest => if strict_eq q p then Z.of_nat i else first_eq p (S i) rest
  end.

Definition indexOf (l : list value) (i : nat) (p : value) : Z :=
  if is_compound p then Z.of_nat i else first_eq p 0 l.

End JS.

(** ** Derived statistics: [computeAdvancedStatsForMatch] *)

Module Stats.
Import JS.

(** How a block of the source ends: it falls through with a value, executes
    [return result], or raises. *)
Inductive flow (A : Type) : Type :=
  | Next (a : A)
  | Return
  | Throw.
Arguments Next {A} a.
Arguments Return {A}.
Arguments Throw {A}.

#[export] Instance flow_ret : MRet flow := @Next.
#[export] Instance flow_bind : MBind flow := fun A B f m =>
  match m with
  | Next a => f a
  | Return => Return
  | Throw => Throw
  end.

Definition lift {A} (o : option A) : flow A :=
  match o with Some a => Next a | None => Throw end.

(** A number printed by [toFixed(digits)] and read back by [parseFloat]:
    [DFixed m d] is [m / 10^d].  The quotient is rounded half away from
    zero from its exact value (the source rounds the double nearest to
    it, which can differ by one unit in the last digit at an exact tie). *)
Inductive decimal : Type :=
  | DNaN
  | DFixed (scaled : Z) (digits : nat).

Definition toFixed (digits : nat) (num den : Z) : decimal :=
  DFixed (Z.sgn num * ((2 * Z.abs num * 10 ^ Z.of_nat digits + den) / (2 * den)))
         digits.

Record AdvStats : Type := mkAdvStats {
  csDiff15 : value;
  goldDiff15 : value;
  xpDiff15 : value;
  firstBlood : value;
  dmgGoldRatio : option decimal;     (* [None] is [null] *)
  isolatedDeaths : value;
  objectiveRate : option decimal     (* [None] is [null] *)
}.

Definition initialResult : AdvStats :=
  {| csDiff15 := VNull; goldDiff15 := VNull; xpDiff15 := VNull;
     firstBlood := VNum 0; dmgGoldRatio := None;
     isolatedDeaths := VNull; objectiveRate := None |}.

(** The subject as resolved in the participant list. *)
Record Subject : Type := mkSubject {
  participants : list value;
  me : value;
  meIdx : nat;          (* the place of [me] in [participants] *)
  myPId : value
}.

(** The arithmetic negation of a derived field; a field that is [null]
    (or not a number) is left as it is. *)
Definition negated (v : value) : value :=
  match v with VNum n => VNum (- n) | other => other end.

(** What the timeline passes compute before the counts. *)
Record Analysis : Type := mkAnalysis {
  frameList : list value;
  allEvents : list value;
  killEvents : list value;
  objectiveEvents : list value;
  myDeaths : list value;
  myTeamPIds : list value
}.

Section WithParser.

(** [JSON.parse]; [None] is its [SyntaxError]. *)
Variable JSON_parse : string → option value.

(** [typeof v === 'string' ? JSON.parse(v) : v] *)
Definition parse_if_string (v : value) : option value :=
  match v with VStr s => JSON_parse s | _ => Some v end.

(** [p.participantId || (participants.indexOf(p) + 1)] for the element [p]
    at index [i]. *)
Definition pidOf (l : list value) (i : nat) (p : value) : value :=
  js_or (optget p "participantId") (VNum (indexOf l i p + 1)).

(** [p.teamPosition || p.lane || ''] *)
Definition positionOf (p : value) : value :=
  js_or (js_or (optget p "teamPosition") (optget p "lane")) (VStr "").

(** [p => p.championName === myChampionName && p.teamId === myTeamId] *)
Definition is_subject (name team : value) (_ : nat) (p : value) : option bool :=
  cn ← get p "championName";
  t ← get p "teamId";
  Some (strict_eq cn name && strict_eq t team).

Definition resolveSubject (matchData name team : value) : flow Subject :=
  info ← lift (parse_if_string matchData);
  inner ← lift (get info "info");
  ps ← lift (if truthy inner then get inner "participants"
             else get info "participants");
  if negb (truthy ps) then Return else
  l ← lift (as_array ps);
  found ← lift (find_from (is_subject name team) 0 l);
  match found with
  | None => Return
  | Some (i, p) =>
      if negb (truthy p) then Return
      else Next {| participants := l; me := p; meIdx := i;
                   myPId := pidOf l i p |}
  end.

Definition firstBloodOf (me : value) : value :=
  if truthy (js_or (optget me "firstBloodKill") (optget me "firstBloodAssist"))
  then VNum 1 else VNum 0.

Definition dmgGoldRatioOf (me : value) : option decimal :=
  let gold := optget me "goldEarned" in
  if js_gt gold (VNum 0) then
    match to_num (js_or (optget me "totalDamageDealtToChampions") (VNum 0)),
          to_num gold with
    | Some dmg, Some g => Some (toFixed 3 dmg g)
    | _, _ => Some DNaN
    end
  else None.

(** The frames of the timeline, or [return result] when there is none. *)
Definition timelineFrames (timelineData : value) : flow value :=
  timeline ← (if truthy timelineData then lift (parse_if_string timelineData)
              else Next VNull);
  if negb (truthy timeline) then Return else
  let ti := optget timeline "info" in
  if negb (truthy ti) then Return else
  let frames := optget ti "frames" in
  if negb (truthy frames) then Return else Next frames.

(** [frames[15] || frames[frames.length - 1]] *)
Definition frame15Of (frames : value) : value :=
  js_or (optget_at frames (VNum 15))
        (optget_at frames (js_sub (optget frames "length") (VNum 1))).

(** The lane opponent: the first participant of another team with the
    subject's non-empty position label. *)
Definition is_opponent (s : Subject) (myPosition : value) (j : nat) (p : value)
    : option bool :=
  t ← get p "teamId";
  let same := (j =? meIdx s)%nat in
  Some (negb (same_or_eq same t (optget (me s) "teamId"))
        && same_or_eq same (positionOf p) myPosition
        && negb (strict_eq myPosition (VStr ""))).

Definition findOpponent (s : Subject) : option (option (nat * value)) :=
  find_from (is_opponent s (positionOf (me s))) 0 (participants s).

Definition csOf (f : value) : value :=
  js_add (js_or (optget f "minionsKilled") (VNum 0))
         (js_or (optget f "jungleMinionsKilled") (VNum 0)).

Definition diffsOf (myFrame oppFrame : value) : value * value * value :=
  (js_sub (csOf myFrame) (csOf oppFrame),
   js_sub (js_or (optget myFrame "totalGold") (VNum 0))
          (js_or (optget oppFrame "totalGold") (VNum 0)),
   js_sub (js_or (optget myFrame "xp") (VNum 0))
          (js_or (optget oppFrame "xp") (VNum 0))).

(** The CSD@15 / GD@15 / XPD@15 block: [Next None] leaves the three fields
    untouched. *)
Definition laneDiffs (s : Subject) (frames : value)
    : flow (option (value * value * value)) :=
  let frame15 := frame15Of frames in
  let pf := optget frame15 "participantFrames" in
  if truthy frame15 && truthy pf then
    let myFrame := optget_at pf (myPId s) in
    if truthy myFrame then
      opp ← lift (findOpponent s);
      match opp with
      | Some (j, o) =>
          if truthy o then
            let oppFrame := optget_at pf (pidOf (participants s) j o) in
            if truthy oppFrame then Next (Some (diffsOf myFrame oppFrame))
            else Next None
          else Next None
      | None => Next None
      end
    else Next None
  else Next None.

(** [frames.flatMap(f => f.events || [])] *)
Fixpoint flatEvents (frames : list value) : option (list value) :=
  match frames with
  | [] => Some []
  | f :: rest =>
      ev ← get f "events";
      tl ← flatEvents rest;
      Some (match js_or ev (VArr []) with
            | VArr es => es ++ tl
            | other => other :: tl
            end)
  end.

Definition has_type (names : list string) (e : value) : option bool :=
  t ← get e "type";
  Some (existsb (fun n => strict_eq t (VStr n)) names).

(** [p => p.teamId === me.teamId && pid(p) !== myPId] *)
Definition is_teammate (s : Subject) (i : nat) (p : value) : option bool :=
  t ← get p "teamId";
  let same := (i =? meIdx s)%nat in
  Some (same_or_eq same t (optget (me s) "teamId")
        && negb (same_or_eq same (pidOf (participants s) i p) (myPId s))).

Definition analyse (s : Subject) (frames : value) : flow Analysis :=
  fl ← lift (as_array frames);
  evs ← lift (flatEvents fl);
  kills ← lift (filterM (has_type ["CHAMPION_KILL"]) evs);
  objs ← lift (filterM (has_type ["ELITE_MONSTER_KILL"; "BUILDING_KILL"]) evs);
  let deaths :=
    filter (fun e => strict_eq (optget e "victimId") (myPId s) = true) kills in
  mates ← lift (filter_from (is_teammate s) 0 (participants s));
  Next {| frameList := fl; allEvents := evs; killEvents := kills;
          objectiveEvents := objs; myDeaths := deaths;
          myTeamPIds := map (fun ip => pidOf (participants s) ip.1 ip.2) mates |}.

(** [frames[Math.min(Math.floor(timestamp / 60000), frames.length - 1)]]:
    the frame the source takes as nearest to [timestamp]. *)
Definition nearFrame (fl : list value) (timestamp : value) : value :=
  optget_at (VArr fl)
    (js_min (floor_div timestamp 60000) (VNum (Z.of_nat (length fl) - 1))).

(** The coordinates of a recorded position. *)
Definition coords (pos : value) : option (Z * Z) :=
  x ← to_num (optget pos "x");
  y ← to_num (optget pos "y");
  Some (x, y).

(** Where the frame has the participant [pid]. *)
Definition positionIn (frame pid : value) : value :=
  optget (optget_at (optget frame "participantFrames") pid) "position".

(** [Math.sqrt(dx * dx + dy * dy) <= range] on integer coordinates (the sum
    of squares is exact in double precision below 2^53, and the square root
    is monotone and exact at [range * range]). *)
Definition within (a b : value) (range : Z) : bool :=
  match to_num (js_sub (optget a "x") (optget b "x")),
        to_num (js_sub (optget a "y") (optget b "y")) with
  | Some dx, Some dy => dx * dx + dy * dy <=? range * range
  | _, _ => false
  end.

(** One turn of the teammate loop: is this teammate within 1500 units of
    the death in the frame's [participantFrames]? *)
Definition teammateNear (pf deathPos tmPId : value) : bool :=
  let tmFrame := optget_at pf tmPId in
  truthy tmFrame && truthy (optget tmFrame "position")
  && within deathPos (optget tmFrame "position") 1500.

Definition objectiveNearby (a : Analysis) (death : value) : bool :=
  existsb (fun obj =>
             abs_diff_le (optget obj "timestamp") (optget death "timestamp") 15000)
          (objectiveEvents a).

(** The body of the death loop: does this death increment [isolatedCount]? *)
Definition isolatedDeath (a : Analysis) (death : value) : bool :=
  let deathPos := optget death "position" in
  if negb (truthy deathPos) then true else
  let near := nearFrame (frameList a) (optget death "timestamp") in
  let pf := optget near "participantFrames" in
  if negb (truthy near) || negb (truthy pf) then true else
  let hasNearbyTeammate := existsb (teammateNear pf deathPos) (myTeamPIds a) in
  negb hasNearbyTeammate && negb (objectiveNearby a death).

Definition isolatedCount (a : Analysis) : nat :=
  length (filter (fun d => isolatedDeath a d = true) (myDeaths a)).

(** Elite monsters killed by a member of the subject's team. *)
Definition teamObjEvents (s : Subject) (a : Analysis) : list value :=
  filter (fun e =>
            strict_eq (optget e "type") (VStr "ELITE_MONSTER_KILL")
            && includes (myTeamPIds a ++ [myPId s]) (optget e "killerId") = true)
         (allEvents a).

(** The body of the objective loop: does this kill increment [aliveCount]? *)
Definition aliveAt (s : Subject) (a : Analysis) (obj : value) : bool :=
  let ts := optget obj "timestamp" in
  let myDeathTimestamps := map (fun d => optget d "timestamp") (myDeaths a) in
  let recentDeath :=
    List.last (filter (fun t => js_lt t ts = true) myDeathTimestamps) VUndef in
  if negb (truthy recentDeath) then true else
  let frame := nearFrame (frameList a) ts in
  let pf := optget frame "participantFrames" in
  let mine := optget_at pf (myPId s) in
  if truthy frame && truthy pf && truthy mine then
    let pos := optget mine "position" in
    if truthy pos then
      let inFountain :=
        if strict_eq (optget (me s) "teamId") (VNum 100)
        then js_lt (optget pos "x") (VNum 1500) && js_lt (optget pos "y") (VNum 1500)
        else js_gt (optget pos "x") (VNum 13500) && js_gt (optget pos "y") (VNum 13500) in
      negb (js_lt (js_sub ts recentDeath) (VNum 30000) && inFountain)
    else false
  else false.

Definition aliveCount (s : Subject) (a : Analysis) : nat :=
  length (filter (fun e => aliveAt s a e = true) (teamObjEvents s a)).

Definition objectiveRateOf (s : Subject) (a : Analysis) : option decimal :=
  let n := length (teamObjEvents s a) in
  if (0 <? n)%nat
  then Some (toFixed 1 (Z.of_nat (aliveCount s a) * 100) (Z.of_nat n))
  else None.

(** The subject and the timeline analysis of a match, when the three
    passes that produce them all fall through. *)
Definition timelineAnalysis (matchData timelineData name team : value)
    : option (Subject * Analysis) :=
  match resolveSubject matchData name team with
  | Next s =>
      match timelineFrames timelineData with
      | Next frames =>
          match analyse s frames with
          | Next a => Some (s, a)
          | _ => None
          end
      | _ => None
      end
  | _ => None
  end.

(** The spec's words, not the source's: the "elite-monster kills credited
    to the subject's team (as killer or assister)" are the kills of an
    elite monster whose killer, or one of whose assisters, is the subject
    or a teammate.  The source keeps no such list; it counts over
    [teamObjEvents], the kills whose killer is. *)
Definition creditedToTeam (s : Subject) (a : Analysis) : list value :=
  let team := myTeamPIds a ++ [myPId s] in
  filter (fun e =>
            strict_eq (optget e "type") (VStr "ELITE_MONSTER_KILL")
            && (includes team (optget e "killerId")
                || existsb (includes team)
                     (default [] (as_array (optget e "assistingParticipantIds"))))
            = true)
         (allEvents a).

(** The three lane fields a run leaves, from what the lane block computed. *)
Definition laneFields (d : option (value * value * value)) : value * value * value :=
  default (VNull, VNull, VNull) d.

(** How the [try] block ended. *)
Inductive ending : Type := Completed | Returned | Caught.

Definition leave {A} (f : flow A) : ending :=
  match f with Throw => Caught | _ => Returned end.

(** The function with the way its [try] block ended: [result] is filled
    field by field, and whatever stops the block, the [result] built so far
    is what is returned. *)
Definition run (matchData timelineData name team : value) : ending * AdvStats :=
  let result := initialResult in
  match resolveSubject matchData name team with
  | Next s =>
      let result :=
        {| csDiff15 := csDiff15 result; goldDiff15 := goldDiff15 result;
           xpDiff15 := xpDiff15 result;
           firstBlood := firstBloodOf (me s);
           dmgGoldRatio := dmgGoldRatioOf (me s);
           isolatedDeaths := isolatedDeaths result;
           objectiveRate := objectiveRate result |} in
      match timelineFrames timelineData with
      | Next frames =>
          match laneDiffs s frames with
          | Next d =>
              let result :=
                match d with
                | Some (cs, gold, xp) =>
                    {| csDiff15 := cs; goldDiff15 := gold; xpDiff15 := xp;
                       firstBlood := firstBlood result;
                       dmgGoldRatio := dmgGoldRatio result;
                       isolatedDeaths := isolatedDeaths result;
                       objectiveRate := objectiveRate result |}
                | None => result
                end in
              match analyse s frames with
              | Next a =>
                  (Completed,
                   {| csDiff15 := csDiff15 result;
                      goldDiff15 := goldDiff15 result;
                      xpDiff15 := xpDiff15 result;
                      firstBlood := firstBlood result;
                      dmgGoldRatio := dmgGoldRatio result;
                      isolatedDeaths := VNum (Z.of_nat (isolatedCount a));
                      objectiveRate := objectiveRateOf s a |})
              | other => (leave other, result)
              end
          | other => (leave other, result)
          end
      | other => (leave other, result)
      end
  | other => (leave other, result)
  end.

Definition computeAdvancedStatsForMatch
    (matchData timelineData myChampionName myTeamId : value) : AdvStats :=
  (run matchData timelineData myChampionName myTeamId).2.

End WithParser.

End Stats.

(** ** Badge evaluation: [buildContext], [evaluateBadges] *)

Module Badges.
Import JS.

Record Context : Type := mkContext {
  match_ : value;
  me : value;
  info : value;
  participants : list value;
  myTeam : list value;
  enemyTeam : list value;
  teamKills : value;
  gameDuration : value;
  win : value;
  myTeamId : value;
  enemyTeamId : value;
  hasTimeline : bool;
  myPId : value;
  myTeamIds : list value;
  enemyTeamIds : list value;
  killEvents : list value;
  objectiveEvents : list value;
  buildingEvents : list value;
  wardEvents : list value;
  levelEvents : list value;
  frames : value
}.

(** The part of the context read from the timeline. *)
Record TimelineIndex : Type := mkTimelineIndex {
  tl_myPId : value;
  tl_myTeamIds : list value;
  tl_enemyTeamIds : list value;
  tl_killEvents : list value;
  tl_objectiveEvents : list value;
  tl_buildingEvents : list value;
  tl_wardEvents : list value;
  tl_levelEvents : list value;
  tl_frames : value
}.

Definition noTimeline : TimelineIndex :=
  {| tl_myPId := VNull; tl_myTeamIds := []; tl_enemyTeamIds := [];
     tl_killEvents := []; tl_objectiveEvents := []; tl_buildingEvents := [];
     tl_wardEvents := []; tl_levelEvents := []; tl_frames := VArr [] |}.

(** [killEvents.sort((a, b) => a.timestamp - b.timestamp)]: a stable
    sort.  (With a timestamp that is not a number the comparator is
    inconsistent and ECMAScript leaves the order to the engine; the
    insertion order below is one such order.) *)
Fixpoint insertByTime (x : value) (sorted : list value) : list value :=
  match sorted with
  | [] => [x]
  | y :: rest =>
      if js_lt (js_sub (optget y "timestamp") (optget x "timestamp")) (VNum 0)
      then y :: insertByTime x rest
      else x :: y :: rest
  end.

Definition sortByTime (l : list value) : list value :=
  foldr insertByTime [] l.

Section WithParser.

Variable JSON_parse : string → option value.

Definition parse_if_string (v : value) : option value :=
  match v with VStr s => JSON_parse s | _ => Some v end.

(** [p => p.championName === match.championName && p.teamId === match.teamId] *)
Definition is_subject (name team : value) (_ : nat) (p : value) : option bool :=
  cn ← get p "championName";
  t ← get p "teamId";
  Some (strict_eq cn name && strict_eq t team).

(** [p => p.teamId === me.teamId], for [me] at index [meIdx]. *)
Definition on_my_team (me : value) (meIdx : nat) (i : nat) (p : value)
    : option bool :=
  t ← get p "teamId";
  Some (same_or_eq (i =? meIdx)%nat t (optget me "teamId")).

Definition on_enemy_team (me : value) (meIdx : nat) (i : nat) (p : value)
    : option bool :=
  negb <$> on_my_team me meIdx i p.

(** [puuidToTlId[tp.puuid] = tp.participantId] for each timeline
    participant, a later entry replacing an earlier one. *)
Fixpoint indexPuuids (tps : list value) (m : gmap string value)
    : option (gmap string value) :=
  match tps with
  | [] => Some m
  | tp :: rest =>
      pu ← get tp "puuid";
      indexPuuids rest (<[toKey pu := optget tp "participantId"]> m)
  end.

(** The events of all frames, in order: the two nested [for ... of]. *)
Fixpoint frameEvents (fs : list value) : option (list value) :=
  match fs with
  | [] => Some []
  | frame :: rest =>
      ev ← get frame "events";
      es ← iterate (js_or ev (VArr []));
      tl ← frameEvents rest;
      Some (es ++ tl)
  end.

Definition has_type (names : list string) (e : value) : option bool :=
  t ← get e "type";
  Some (existsb (fun n => strict_eq t (VStr n)) names).

Definition indexTimeline (timelineJson me : value) (meIdx : nat)
    (participants : list value) : option TimelineIndex :=
  tl ← parse_if_string timelineJson;
  tinfo ← get tl "info";
  tps ← iterate (js_or (optget tinfo "participants") (VArr []));
  puuidToTlId ← indexPuuids tps ∅;
  let lookup p := default VUndef (puuidToTlId !! toKey (optget p "puuid")) in
  let known :=
    filter (fun ip => nullish (lookup ip.2) = false) (imap pair participants) in
  let mine ip := same_or_eq (ip.1 =? meIdx)%nat
                   (optget ip.2 "teamId") (optget me "teamId") in
  let fr := js_or (optget tinfo "frames") (VArr []) in
  fs ← iterate fr;
  evs ← frameEvents fs;
  kills ← filterM (has_type ["CHAMPION_KILL"]) evs;
  objs ← filterM (has_type ["ELITE_MONSTER_KILL"]) evs;
  builds ← filterM (has_type ["BUILDING_KILL"]) evs;
  wards ← filterM (has_type ["WARD_PLACED"; "WARD_KILL"]) evs;
  levels ← filterM (has_type ["LEVEL_UP"]) evs;
  Some {| tl_myPId := js_or (lookup me) VNull;
          tl_myTeamIds :=
            map (fun ip => lookup ip.2) (filter (fun ip => mine ip = true) known);
          tl_enemyTeamIds :=
            map (fun ip => lookup ip.2) (filter (fun ip => mine ip = false) known);
          tl_killEvents := sortByTime kills;
          tl_objectiveEvents := objs;
          tl_buildingEvents := builds;
          tl_wardEvents := wards;
          tl_levelEvents := levels;
          tl_frames := fr |}.

(** [buildContext(match)]: outer [None] is a raised error, [Some None] is
    the [null] context. *)
Definition buildContext (m : value) : option (option Context) :=
  rawJson ← get m "rawJson";
  if negb (truthy rawJson) then Some None else
  raw ← parse_if_string rawJson;
  info ← get raw "info";
  ps ← get info "participants";
  l ← as_array ps;
  found ← find_from (is_subject (optget m "championName") (optget m "teamId")) 0 l;
  match found with
  | None => Some None
  | Some (i, me) =>
      if negb (truthy me) then Some None else
      mine ← filter_from (on_my_team me i) 0 l;
      theirs ← filter_from (on_enemy_team me i) 0 l;
      let timelineJson := optget m "timelineJson" in
      tl ← (if truthy timelineJson then indexTimeline timelineJson me i l
            else Some noTimeline);
      Some (Some
        {| match_ := m; me := me; info := info; participants := l;
           myTeam := mine.*2; enemyTeam := theirs.*2;
           teamKills :=
             foldl (fun s p => js_add s (optget p "kills")) (VNum 0) (mine.*2);
           gameDuration := optget info "gameDuration";
           win := optget me "win";
           myTeamId := optget me "teamId";
           enemyTeamId :=
             if strict_eq (optget me "teamId") (VNum 100) then VNum 200
             else VNum 100;
           hasTimeline := truthy timelineJson;
           myPId := tl_myPId tl;
           myTeamIds := tl_myTeamIds tl;
           enemyTeamIds := tl_enemyTeamIds tl;
           killEvents := tl_killEvents tl;
           objectiveEvents := tl_objectiveEvents tl;
           buildingEvents := tl_buildingEvents tl;
           wardEvents := tl_wardEvents tl;
           levelEvents := tl_levelEvents tl;
           frames := tl_frames tl |})
  end.

(** An entry of the catalog.  [evaluate] is [None] when the predicate
    raises. *)
Record Badge : Type := mkBadge {
  name : string;
  description : string;
  evaluate : Context → option value
}.

(** What [evaluateBadges] pushes for an earned badge. *)
Record Earned : Type := mkEarned {
  earned_name : string;
  earned_description : string
}.

(** The [try { if (badge.evaluate(ctx)) earned.push(...) } catch { }] body. *)
Definition earnedBy (ctx : Context) (badge : Badge) : list Earned :=
  match evaluate badge ctx with
  | Some v =>
      if truthy v
      then [ {| earned_name := name badge;
                earned_description := description badge |} ]
      else []
  | None => []
  end.

(** [evaluateBadges(match)] over the catalog [BADGES]; [None] when
    [buildContext] raises. *)
Definition evaluateBadges (BADGES : list Badge) (m : value)
    : option (list Earned) :=
  ctx ← buildContext m;
  match ctx with
  | None => Some []
  | Some ctx => Some (foldl (fun earned badge => earned ++ earnedBy ctx badge)
                            [] BADGES)
  end.

End WithParser.

(** *** Entries of the catalog *)

(** [isInBase(pos, teamId)] *)
Definition isInBase (pos teamId : value) : bool :=
  if negb (truthy pos) then false
  else if strict_eq teamId (VNum 100)
       then js_lt (optget pos "x") (VNum 2500) && js_lt (optget pos "y") (VNum 2500)
       else js_gt (optget pos "x") (VNum 12500) && js_gt (optget pos "y") (VNum 12500).

(** [(event.assistingParticipantIds || []).includes(myPId)]: an array
    looks the id up, a string looks for it as a substring, any other
    value has no [includes] and the call raises. *)
Definition assisted (event myPId : value) : option bool :=
  match js_or (optget event "assistingParticipantIds") (VArr []) with
  | VArr l => Some (includes l myPId)
  | VStr s => Some (bool_decide (is_Some (String.index 0 (toKey myPId) s)))
  | _ => None
  end.

(** [didParticipate(event, myPId)] *)
Definition didParticipate (event myPId : value) : option bool :=
  killerId ← get event "killerId";
  if strict_eq killerId myPId then Some true
  else assisted event myPId.

Definition davidVsGoliath : Badge :=
  {| name := "David vs Goliath";
     description := "You survived on a prayer and 5% health while taking down 3 enemies. Peak yordle energy.";
     evaluate := fun _ => Some (VBool false) |}.

Definition theBloodCrowned : Badge :=
  {| name := "The Blood-Crowned";
     description := "One Pentakill is a fluke; two in one game is a war crime. Welcome to the high command.";
     evaluate := fun ctx =>
       Some (VBool (js_ge (js_or (optget (me ctx) "pentaKills") (VNum 0)) (VNum 2))) |}.

(** The loop of "The Harrowing Mist": takedowns inside the enemy base. *)
Fixpoint baseTakedowns (ctx : Context) (events : list value) (count : Z)
    : option Z :=
  match events with
  | [] => Some count
  | e :: rest =>
      part ← didParticipate e (myPId ctx);
      if negb part then baseTakedowns ctx rest count
      else if negb (truthy (optget e "position")) then baseTakedowns ctx rest count
      else if isInBase (optget e "position") (enemyTeamId ctx)
           then baseTakedowns ctx rest (count + 1)
           else baseTakedowns ctx rest count
  end.

Definition theHarrowingMist : Badge :=
  {| name := "The Harrowing Mist";
     description := "10+ takedowns inside the enemy base. The mist has finally claimed their home.";
     evaluate := fun ctx =>
       if negb (hasTimeline ctx) || negb (truthy (myPId ctx))
       then Some (VBool false)
       else count ← baseTakedowns ctx (killEvents ctx) 0;
            Some (VBool (10 <=? count)) |}.

Definition kingOfTheDocks : Badge :=
  {| name := "King of the Docks";
     description := "You finished with the highest gold count in the lobby. Everyone else is just a stowaway.";
     evaluate := fun ctx =>
       let myGold := js_or (optget (me ctx) "goldEarned") (VNum 0) in
       Some (VBool (forallb (fun p =>
                      js_le (js_or (optget p "goldEarned") (VNum 0)) myGold)
                   (participants ctx))) |}.

(** Four of the entries of [BADGES], in catalog order. *)
Definition BADGES_excerpt : list Badge :=
  [davidVsGoliath; theBloodCrowned; kingOfTheDocks; theHarrowingMist].

End Badges.

(** ** The match service: [syncMatches], [getPlayerRank] *)

Module Sync.
Import JS.

(** A cell of the SQLite store. *)
Inductive sqlval : Type :=
  | SNull
  | SInt (n : Z)
  | SReal (d : Stats.decimal)
  | SText (s : string).

(** The cell a bound JavaScript parameter is stored as. *)
Definition bind (v : value) : sqlval :=
  match v with
  | VUndef | VNull | VNaN => SNull
  | VBool b => SInt (if b then 1 else 0)
  | VNum n => SInt n
  | VStr s => SText s
  | VArr _ | VObj _ => SText (toKey v)
  end.

Definition bindDecimal (d : option Stats.decimal) : sqlval :=
  match d with
  | Some (Stats.DFixed m k) => SReal (Stats.DFixed m k)
  | Some Stats.DNaN | None => SNull
  end.

(** A row of [player_ranks], as [SELECT *] reads it and as
    [getPlayerRank] builds it. *)
Record RankEntry : Type := mkRankEntry {
  rank_puuid : string;
  soloTier : value;
  soloRank : value;
  soloLP : value;
  flexTier : value;
  flexRank : value;
  flexLP : value;
  fetchedAt : Z
}.

(** The store and the count of requests made so far to the outside (the
    remote API and the clock). *)
Record World : Type := mkWorld {
  matches : gmap string (gmap string sqlval);     (* by [matchId] *)
  player_ranks : gmap string RankEntry;           (* by [puuid] *)
  tick : nat
}.

Definition tock (w : World) : World :=
  {| matches := matches w; player_ranks := player_ranks w; tick := S (tick w) |}.

Definition setMatches (m : gmap string (gmap string sqlval)) (w : World) : World :=
  {| matches := m; player_ranks := player_ranks w; tick := tick w |}.

Definition setRanks (r : gmap string RankEntry) (w : World) : World :=
  {| matches := matches w; player_ranks := r; tick := tick w |}.

(** A settled promise. *)
Inductive outcome (A : Type) : Type :=
  | Resolved (a : A)
  | Rejected.
Arguments Resolved {A} a.
Arguments Rejected {A}.

(** [new Date('2026-01-01T00:00:00Z').getTime() / 1000] *)
Definition RANKED_SEASON_START : Z := 1767225600.

Definition SPECIAL_QUEUES : list Z := [2400; 1700; 1710].
Definition MAX_RETRIES : nat := 2.

(** [24 * 60 * 60 * 1000] *)
Definition RANK_CACHE_TTL_MS : Z := 24 * 60 * 60 * 1000.

(** The columns whose [NULL] makes a stored match incomplete. *)
Definition requiredColumns : list string :=
  ["gameDuration"; "totalMinionsKilled"; "teamDragons"; "teamBarons";
   "teamRiftHeralds"; "primaryRune"; "teamKills"; "timelineJson"].

Definition column (row : gmap string sqlval) (c : string) : sqlval :=
  default SNull (row !! c).

Definition isNull (c : sqlval) : bool :=
  match c with SNull => true | _ => false end.

(** [!row || row.gameDuration === null || ... || row.timelineJson === null] *)
Definition needsFetch (row : option (gmap string sqlval)) : bool :=
  match row with
  | None => true
  | Some r => existsb (fun c => isNull (column r c)) requiredColumns
  end.

(** [[...new Set(allMatchIds)]]: a [Set] keeps its members in the order
    they were first added. *)
Definition set_add (seen : list string) (x : string) : list string :=
  if bool_decide (x ∈ seen) then seen else seen ++ [x].

Definition uniqueIds (allMatchIds : list string) : list string :=
  foldl set_add [] allMatchIds.

(** The id lists one run collects. *)
Record Discovery : Type := mkDiscovery {
  specialMatchIds : list string;     (* the special queues, in queue order *)
  forwardMatches : list string;      (* forward sync, or the first sync *)
  missingMatches : list string       (* backward sync, ids already stored removed *)
}.

(** [allMatchIds] after [unshift(...specialMatchIds)], deduplicated. *)
Definition matchIdsOf (d : Discovery) : list string :=
  uniqueIds (specialMatchIds d ++ (forwardMatches d ++ missingMatches d)).

(** [for (let i = 0; i < matchIds.length; i += BATCH_SIZE) matchIds.slice(i, i + BATCH_SIZE)]
    with [BATCH_SIZE = 2]. *)
Fixpoint batches (l : list string) : list (list string) :=
  match l with
  | [] => []
  | [a] => [[a]]
  | a :: b :: rest => [a; b] :: batches rest
  end.

(** [SELECT MAX(gameCreation)] and [SELECT MIN(gameCreation)]: [None] is
    the [NULL] of an aggregate over no value. *)
Definition creationTimes (w : World) : list Z :=
  omap (fun kv => match column kv.2 "gameCreation" with
                  | SInt n => Some n
                  | _ => None
                  end)
       (map_to_list (matches w)).

Definition latestTime (w : World) : option Z :=
  match creationTimes w with
  | [] => None
  | t :: ts => Some (foldr Z.max t ts)
  end.

Definition oldestTime (w : World) : option Z :=
  match creationTimes w with
  | [] => None
  | t :: ts => Some (foldr Z.min t ts)
  end.

(** What [syncMatches] returns; [newMatchIds] is [None] when the object has
    no such property. *)
Record SyncResult : Type := mkSyncResult {
  newMatches : nat;
  skipped : nat;
  total : nat;
  newMatchIds : option (list string)
}.

(** The counters of the processing loop. *)
Record Counters : Type := mkCounters {
  c_newMatches : nat;
  c_skipped : nat;
  c_processed : nat;
  c_newMatchIds : list string
}.

(** [n] more units skipped; [n] more units processed. *)
Definition skip (n : nat) (c : Counters) : Counters :=
  {| c_newMatches := c_newMatches c;
     c_skipped := (c_skipped c + n)%nat;
     c_processed := c_processed c;
     c_newMatchIds := c_newMatchIds c |}.

Definition advance (n : nat) (c : Counters) : Counters :=
  {| c_newMatches := c_newMatches c;
     c_skipped := c_skipped c;
     c_processed := (c_processed c + n)%nat;
     c_newMatchIds := c_newMatchIds c |}.

(** What one unit of a batch resolves to ([UNone]: the function ends
    without a [return], for a match the player is not part of). *)
Inductive unitResult : Type := UNew | UUpdated | USkipped | UError | UNone.

Section WithServices.

(** The remote API and the clock.  The first argument is the number of the
    request, so that two requests with the same arguments can be answered
    differently; [None] is a rejected request. *)
Variable getMatchIds : nat → string → Z → option Z → option (list string).
Variable getMatchData : nat → string → option value.
Variable getMatchTimeline : nat → string → option value.
Variable getLeagueByPuuid : nat → string → option value.
Variable Date_now : nat → Z.

Variable JSON_parse : string → option value.
Variable JSON_stringify : value → string.

(** *** Collecting the ids *)

(** An id some listing request of the player answers with. *)
Definition listed (puuid id : string) : Prop :=
  ∃ k start queue ids, getMatchIds k puuid start queue = Some ids ∧ id ∈ ids.

(** One special queue: up to [attempts] requests, the first that answers
    gives the ids, none answering gives nothing. *)
Fixpoint fetchSpecialQueue (puuid : string) (queueId : Z) (attempts : nat)
    (w : World) : list string * World :=
  match attempts with
  | O => ([], w)
  | S n =>
      match getMatchIds (tick w) puuid RANKED_SEASON_START (Some queueId) with
      | Some specialMatches => (specialMatches, tock w)
      | None => fetchSpecialQueue puuid queueId n (tock w)
      end
  end.

Fixpoint fetchSpecialQueues (puuid : string) (queues : list Z) (w : World)
    : list string * World :=
  match queues with
  | [] => ([], w)
  | q :: rest =>
      let '(ids, w1) := fetchSpecialQueue puuid q (S MAX_RETRIES) w in
      let '(more, w2) := fetchSpecialQueues puuid rest w1 in
      (ids ++ more, w2)
  end.

(** Backward sync, when the oldest stored match is more than a day after
    the season start. *)
Definition backwardSync (puuid : string) (w : World)
    : outcome (list string) * World :=
  match oldestTime w with
  | Some oldest =>
      if negb (oldest =? 0) && (oldest / 1000 >? RANKED_SEASON_START + 86400) then
        match getMatchIds (tick w) puuid RANKED_SEASON_START None with
        | Some backwardMatches =>
            (Resolved (filter (fun id => matches w !! id = None) backwardMatches),
             tock w)
        | None => (Rejected, tock w)
        end
      else (Resolved [], w)
  | None => (Resolved [], w)
  end.

(** Forward and backward sync, or the first sync. *)
Definition generalSync (puuid : string) (w : World)
    : outcome (list string * list string) * World :=
  match latestTime w with
  | Some latest =>
      if negb (latest =? 0) then
        match getMatchIds (tick w) puuid (latest / 1000 + 1) None with
        | Some forward =>
            match backwardSync puuid (tock w) with
            | (Resolved missing, w2) => (Resolved (forward, missing), w2)
            | (Rejected, w2) => (Rejected, w2)
            end
        | None => (Rejected, tock w)
        end
      else
        match getMatchIds (tick w) puuid RANKED_SEASON_START None with
        | Some all => (Resolved (all, []), tock w)
        | None => (Rejected, tock w)
        end
  | None =>
      match getMatchIds (tick w) puuid RANKED_SEASON_START None with
      | Some all => (Resolved (all, []), tock w)
      | None => (Rejected, tock w)
      end
  end.

Definition discover (puuid : string) (w : World) : outcome Discovery * World :=
  match generalSync puuid w with
  | (Resolved (forward, missing), w1) =>
      let '(special, w2) := fetchSpecialQueues puuid SPECIAL_QUEUES w1 in
      (Resolved {| specialMatchIds := special; forwardMatches := forward;
                   missingMatches := missing |}, w2)
  | (Rejected, w1) => (Rejected, w1)
  end.

(** *** One match *)

(** [objectives.k?.kills || 0] *)
Definition objectiveKills (objectives : value) (k : string) : value :=
  js_or (optget (optget objectives k) "kills") (VNum 0).

(** The columns both [INSERT] and [UPDATE] write. *)
Definition updatedColumns (info me myObjectives enemyObjectives teamKills : value)
    (data timelineData : value) (advStats : Stats.AdvStats)
    : list (string * sqlval) :=
  [("gameDuration", bind (optget info "gameDuration"));
   ("totalMinionsKilled",
    bind (js_add (js_or (optget me "totalMinionsKilled") (VNum 0))
                 (js_or (optget me "neutralMinionsKilled") (VNum 0))))]
  ++ map (fun c => (c, bind (optget me c)))
       ["champLevel"; "totalDamageDealtToChampions"; "visionScore";
        "doubleKills"; "tripleKills"; "quadraKills"; "pentaKills";
        "turretKills"; "inhibitorKills"; "dragonKills"; "baronKills";
        "objectivesStolen";
        "wardsPlaced"; "wardsKilled"; "detectorWardsPlaced";
        "teamPosition"; "lane";
        "item0"; "item1"; "item2"; "item3"; "item4"; "item5"; "item6";
        "teamId"]
  ++ [("teamDragons", bind (objectiveKills myObjectives "dragon"));
      ("enemyDragons", bind (objectiveKills enemyObjectives "dragon"));
      ("teamBarons", bind (objectiveKills myObjectives "baron"));
      ("enemyBarons", bind (objectiveKills enemyObjectives "baron"));
      ("teamRiftHeralds", bind (objectiveKills myObjectives "riftHerald"));
      ("enemyRiftHeralds", bind (objectiveKills enemyObjectives "riftHerald"));
      ("teamTowers", bind (objectiveKills myObjectives "tower"));
      ("enemyTowers", bind (objectiveKills enemyObjectives "tower"));
      ("teamInhibitors", bind (objectiveKills myObjectives "inhibitor"));
      ("enemyInhibitors", bind (objectiveKills enemyObjectives "inhibitor"));
      ("teamKills", bind teamKills);
      ("primaryRune",
       bind (js_or (optget (optget_at (optget (optget_at
                      (optget (optget me "perks") "styles") (VNum 0))
                      "selections") (VNum 0)) "perk") VNull));
      ("secondaryRuneStyle",
       bind (js_or (optget (optget_at
                      (optget (optget me "perks") "styles") (VNum 1)) "style")
                   VNull));
      ("rawJson", SText (JSON_stringify data));
      ("timelineJson",
       if truthy timelineData then SText (JSON_stringify timelineData)
       else SNull);
      ("csDiff15", bind (Stats.csDiff15 advStats));
      ("goldDiff15", bind (Stats.goldDiff15 advStats));
      ("xpDiff15", bind (Stats.xpDiff15 advStats));
      ("firstBlood", bind (Stats.firstBlood advStats));
      ("dmgGoldRatio", bindDecimal (Stats.dmgGoldRatio advStats));
      ("isolatedDeaths", bind (Stats.isolatedDeaths advStats));
      ("objectiveRate", bindDecimal (Stats.objectiveRate advStats))].

(** The columns only [INSERT] writes. *)
Definition insertedColumns (id : string) (info me : value)
    : list (string * sqlval) :=
  [("matchId", SText id);
   ("queueId", bind (optget info "queueId"));
   ("gameCreation", bind (optget info "gameCreation"));
   ("championName", bind (optget me "championName"));
   ("win", SInt (if truthy (optget me "win") then 1 else 0));
   ("kills", bind (optget me "kills"));
   ("deaths", bind (optget me "deaths"));
   ("assists", bind (optget me "assists"));
   ("goldEarned", bind (optget me "goldEarned"))].

(** [t => t.teamId === me.teamId] on [info.teams] *)
Definition team_is (me : value) (_ : nat) (t : value) : option bool :=
  tid ← get t "teamId";
  Some (strict_eq tid (optget me "teamId")).

Definition team_is_not (me : value) (i : nat) (t : value) : option bool :=
  negb <$> team_is me i t.

(** The work on a match that needs fetching, once its detail and timeline
    requests are settled: [None] when it raises, [Some UNone] when the
    player is not among the participants (nothing is written). *)
Definition storeMatch (puuid id : string) (row : option (gmap string sqlval))
    (data timelineData : value) (w : World) : option (unitResult * World) :=
  info ← get data "info";
  ps ← get info "participants";
  l ← as_array ps;
  found ← find_from (fun _ p => pu ← get p "puuid";
                                Some (strict_eq pu (VStr puuid))) 0 l;
  match found with
  | None => Some (UNone, w)
  | Some (i, me) =>
      if negb (truthy me) then Some (UNone, w) else
      teams ← get info "teams" ≫= as_array;
      myTeam ← find_from (team_is me) 0 teams;
      enemyTeam ← find_from (team_is_not me) 0 teams;
      mates ← filter_from (Badges.on_my_team me i) 0 l;
      let teamKills :=
        foldl (fun s p => js_add s (optget p "kills")) (VNum 0) (mates.*2) in
      let objectivesOf (t : option (nat * value)) :=
        js_or (optget (default VUndef (snd <$> t)) "objectives") (VObj []) in
      let advStats :=
        Stats.computeAdvancedStatsForMatch JSON_parse data timelineData
          (optget me "championName") (optget me "teamId") in
      let updated :=
        updatedColumns info me (objectivesOf myTeam) (objectivesOf enemyTeam)
          teamKills data timelineData advStats in
      match row with
      | None =>
          Some (UNew,
                setMatches (<[id := list_to_map (insertedColumns id info me ++ updated)]>
                              (matches w)) w)
      | Some old =>
          Some (UUpdated,
                setMatches (<[id := list_to_map updated ∪ old]> (matches w)) w)
      end
  end.

(** The function mapped over a batch.  The two units of a batch run
    interleaved in the source; they work on different ids, hence on
    different rows and requests, and are taken one after the other here. *)
Definition processMatch (puuid id : string) (st : Counters * World)
    : unitResult * (Counters * World) :=
  let '(c, w) := st in
  let row := matches w !! id in
  if needsFetch row then
    match getMatchData (tick w) id with
    | None => (UError, (c, tock w))
    | Some data =>
        let w1 := tock w in
        let timelineData := default VNull (getMatchTimeline (tick w1) id) in
        let w2 := tock w1 in
        match storeMatch puuid id row data timelineData w2 with
        | Some (UNew, w3) =>
            (UNew, ({| c_newMatches := S (c_newMatches c);
                       c_skipped := c_skipped c;
                       c_processed := c_processed c;
                       c_newMatchIds := c_newMatchIds c ++ [id] |}, w3))
        | Some (r, w3) => (r, (c, w3))
        | None => (UError, (c, w2))
        end
    end
  else
    (USkipped, ({| c_newMatches := c_newMatches c;
                   c_skipped := S (c_skipped c);
                   c_processed := c_processed c;
                   c_newMatchIds := c_newMatchIds c |}, w)).

Definition processBatch (puuid : string) (st : Counters * World)
    (batch : list string) : Counters * World :=
  let '(c, w) := foldl (fun st id => (processMatch puuid id st).2) st batch in
  ({| c_newMatches := c_newMatches c;
      c_skipped := c_skipped c;
      c_processed := (c_processed c + length batch)%nat;
      c_newMatchIds := c_newMatchIds c |}, w).

(** [syncMatches(puuid, onProgress)] as the application runs it when
    nothing but the remote API fails: the progress callback returns, the
    queries of the store settle, and the creation times in the store are
    times [Date] can print.  A callback that raises, a query that fails and
    a creation time out of the range of [Date] reject the run in the
    source; they are outside this definition, whose [Rejected] is the
    rejection of a listing request. *)
Definition syncMatches (puuid : string) (w : World) : outcome SyncResult * World :=
  match discover puuid w with
  | (Rejected, w1) => (Rejected, w1)
  | (Resolved d, w1) =>
      let matchIds := matchIdsOf d in
      match matchIds with
      | [] =>
          (Resolved {| newMatches := 0; skipped := 0; total := 0;
                       newMatchIds := None |}, w1)
      | _ =>
          let '(c, w2) :=
            foldl (processBatch puuid)
                  ({| c_newMatches := 0; c_skipped := 0; c_processed := 0;
                      c_newMatchIds := [] |}, w1)
                  (batches matchIds) in
          (Resolved {| newMatches := c_newMatches c; skipped := c_skipped c;
                       total := length matchIds;
                       newMatchIds := Some (c_newMatchIds c) |}, w2)
      end
  end.

(** *** The rank cache *)

(** The value read back from a cell a parameter was bound to. *)
Definition stored (v : value) : value :=
  match bind v with
  | SNull => VNull
  | SInt n => VNum n
  | SText s => VStr s
  | SReal _ => VNull
  end.

Definition storedEntry (e : RankEntry) : RankEntry :=
  {| rank_puuid := rank_puuid e;
     soloTier := stored (soloTier e); soloRank := stored (soloRank e);
     soloLP := stored (soloLP e);
     flexTier := stored (flexTier e); flexRank := stored (flexRank e);
     flexLP := stored (flexLP e);
     fetchedAt := fetchedAt e |}.

(** [x ?? null] *)
Definition orNull (v : value) : value := if nullish v then VNull else v.

(** The [row] built from the league data; [None] when reading the league
    data raises. *)
Definition rankRow (puuid : string) (leagueData : value) (now : Z)
    : option RankEntry :=
  solo ← get leagueData "solo";
  flex ← get leagueData "flex";
  Some {| rank_puuid := puuid;
          soloTier := js_or (optget solo "tier") VNull;
          soloRank := js_or (optget solo "rank") VNull;
          soloLP := orNull (optget solo "leaguePoints");
          flexTier := js_or (optget flex "tier") VNull;
          flexRank := js_or (optget flex "rank") VNull;
          flexLP := orNull (optget flex "leaguePoints");
          fetchedAt := now |}.

(** [SELECT * FROM player_ranks WHERE puuid = ? AND fetchedAt > ?] *)
Definition freshRank (puuid : string) (cutoff : Z) (w : World) : option RankEntry :=
  e ← player_ranks w !! puuid;
  if fetchedAt e >? cutoff then Some e else None.

(** The [try] block of [getPlayerRank]: the remote request, the row and
    its upsert.  The result [None] is a raised error, caught by the
    function. *)
Definition refreshRank (puuid : string) (w : World) : option RankEntry * World :=
  match getLeagueByPuuid (tick w) puuid with
  | None => (None, tock w)
  | Some leagueData =>
      let w1 := tock w in
      let now := Date_now (tick w1) in
      let w2 := tock w1 in
      match rankRow puuid leagueData now with
      | None => (None, w2)
      | Some row =>
          (Some row, setRanks (<[puuid := storedEntry row]> (player_ranks w2)) w2)
      end
  end.

(** [getPlayerRank(puuid, maxAgeMs)]; the result [None] is [null]. *)
Definition getPlayerRank (puuid : string) (maxAgeMs : Z) (w : World)
    : option RankEntry * World :=
  let cutoff := Date_now (tick w) - maxAgeMs in
  let w1 := tock w in
  match freshRank puuid cutoff w1 with
  | Some cached => (Some cached, w1)
  | None =>
      match refreshRank puuid w1 with
      | (Some row, w2) => (Some row, w2)
      | (None, w2) => (player_ranks w2 !! puuid, w2)
      end
  end.

End WithServices.

End Sync.

(** ** Maintenance passes: [backfillTimelines], [backfillAdvancedStats] *)

Module Maintenance.
Import JS Sync.

(** [ORDER BY gameCreation DESC]: later creation times first, [NULL] last.
    Rows with the same creation time come in the order of the engine
    (here, the order of the store's listing). *)
Definition creationOf (row : gmap string sqlval) : option Z :=
  match column row "gameCreation" with SInt n => Some n | _ => None end.

Definition notOlder (a b : option Z) : bool :=
  match a, b with
  | Some x, Some y => y <=? x
  | Some _, None => true
  | None, Some _ => false
  | None, None => true
  end.

Fixpoint insertNewest (x : string * gmap string sqlval)
    (sorted : list (string * gmap string sqlval))
    : list (string * gmap string sqlval) :=
  match sorted with
  | [] => [x]
  | y :: rest =>
      if notOlder (creationOf x.2) (creationOf y.2) then x :: y :: rest
      else y :: insertNewest x rest
  end.

Definition newestFirst (rows : list (string * gmap string sqlval))
    : list (string * gmap string sqlval) :=
  foldr insertNewest [] rows.

(** [SELECT ... FROM matches WHERE <condition> ORDER BY gameCreation DESC] *)
Definition selectWhere (condition : gmap string sqlval → bool) (w : World)
    : list (string * gmap string sqlval) :=
  newestFirst (filter (fun kv => condition kv.2 = true) (map_to_list (matches w))).

(** [WHERE timelineJson IS NULL] *)
Definition lacksTimeline (row : gmap string sqlval) : bool :=
  isNull (column row "timelineJson").

(** [WHERE rawJson IS NOT NULL AND csDiff15 IS NULL] *)
Definition lacksStats (row : gmap string sqlval) : bool :=
  negb (isNull (column row "rawJson")) && isNull (column row "csDiff15").

(** The JavaScript value a cell is read as.  A [REAL] cell would read as a
    fraction, which [value] does not have; none of the columns read below
    ([rawJson], [timelineJson], [championName], [teamId]) is written as
    one. *)
Definition unbind (c : sqlval) : value :=
  match c with
  | SNull => VNull
  | SInt n => VNum n
  | SText s => VStr s
  | SReal _ => VNaN
  end.

(** What [backfillTimelines] returns. *)
Record TimelineBackfill : Type := mkTimelineBackfill {
  tb_updated : nat;
  tb_failed : nat;
  tb_total : nat
}.

(** What [backfillAdvancedStats] returns. *)
Record StatsBackfill : Type := mkStatsBackfill {
  sb_updated : nat;
  sb_total : nat
}.

(** [SET csDiff15 = ?, ..., objectiveRate = ?] *)
Definition statsColumns (stats : Stats.AdvStats) : list (string * sqlval) :=
  [("csDiff15", bind (Stats.csDiff15 stats));
   ("goldDiff15", bind (Stats.goldDiff15 stats));
   ("xpDiff15", bind (Stats.xpDiff15 stats));
   ("firstBlood", bind (Stats.firstBlood stats));
   ("dmgGoldRatio", bindDecimal (Stats.dmgGoldRatio stats));
   ("isolatedDeaths", bind (Stats.isolatedDeaths stats));
   ("objectiveRate", bindDecimal (Stats.objectiveRate stats))].

Definition derivedColumns : list string :=
  ["csDiff15"; "goldDiff15"; "xpDiff15"; "firstBlood"; "dmgGoldRatio";
   "isolatedDeaths"; "objectiveRate"].

Section WithServices.

Variable getMatchTimeline : nat → string → option value.
Variable JSON_parse : string → option value.
Variable JSON_stringify : value → string.

(** The cell [JSON.stringify(v)] is bound to: [JSON.stringify(undefined)]
    is [undefined], bound as [NULL]. *)
Definition stringifyCell (v : value) : sqlval :=
  match v with VUndef => SNull | _ => SText (JSON_stringify v) end.

(** One turn of the loop of [backfillTimelines]. *)
Definition backfillTimeline (st : nat * nat * World) (matchId : string)
    : nat * nat * World :=
  let '(updated, failed, w) := st in
  match getMatchTimeline (tick w) matchId with
  | Some timelineData =>
      (S updated, failed,
       setMatches (alter (<["timelineJson" := stringifyCell timelineData]>)
                         matchId (matches w))
                  (tock w))
  | None => (updated, S failed, tock w)
  end.

Definition backfillTimelines (w : World) : TimelineBackfill * World :=
  let rows := (selectWhere lacksTimeline w).*1 in
  match rows with
  | [] => ({| tb_updated := 0; tb_failed := 0; tb_total := 0 |}, w)
  | _ =>
      let '(updated, failed, w') := foldl backfillTimeline (0%nat, 0%nat, w) rows in
      ({| tb_updated := updated; tb_failed := failed; tb_total := length rows |},
       w')
  end.

(** The stats of a selected row. *)
Definition statsOfRow (row : gmap string sqlval) : Stats.AdvStats :=
  Stats.computeAdvancedStatsForMatch JSON_parse
    (unbind (column row "rawJson")) (unbind (column row "timelineJson"))
    (unbind (column row "championName")) (unbind (column row "teamId")).

(** One turn of the loop of [backfillAdvancedStats]: the stats come from
    the row as selected, the update goes to the row as stored. *)
Definition backfillStats (st : nat * World) (selected : string * gmap string sqlval)
    : nat * World :=
  let '(updated, w) := st in
  (S updated,
   setMatches (alter (fun stored => list_to_map (statsColumns (statsOfRow selected.2))
                                    ∪ stored)
                     selected.1 (matches w))
              w).

Definition backfillAdvancedStats (w : World) : StatsBackfill * World :=
  let rows := selectWhere lacksStats w in
  match rows with
  | [] => ({| sb_updated := 0; sb_total := 0 |}, w)
  | _ =>
      let '(updated, w') := foldl backfillStats (0%nat, w) rows in
      ({| sb_updated := updated; sb_total := length rows |}, w')
  end.

End WithServices.

(** Two rows that have the same cells outside the columns [cols]; two
    stores that have the same ids, with such rows. *)
Definition agreeOutside (cols : list string) (row row' : gmap string sqlval) : Prop :=
  ∀ c, c ∉ cols → row' !! c = row !! c.

Definition storesAgreeOutside (cols : list string)
    (m m' : gmap string (gmap string sqlval)) : Prop :=
  ∀ id, option_Forall2 (agreeOutside cols) (m !! id) (m' !! id).

End Maintenance.

(** ** Paginated listing: [getMatchIds] of the API client *)

Module Listing.
Import Sync.

(** Riot API max per request *)
Definition batchSize : nat := 100.

Section WithTransport.

(** [axios.get(url)] for the page that starts at index [start]; the first
    argument is the number of the request.  [None] is a rejected request. *)
Variable requestPage : nat → nat → option (list string).

(** The [while (true)] loop with [fuel] turns allowed; [None] when the loop
    is still running after them.  The result comes with the number of
    requests made. *)
Fixpoint paginate (fuel request start : nat) (allMatchIds : list string)
    : option (outcome (list string) * nat) :=
  match fuel with
  | O => None
  | S fuel' =>
      match requestPage request start with
      | None => Some (Rejected, S request)
      | Some matchIds =>
          if (length matchIds =? 0)%nat then Some (Resolved allMatchIds, S request)
          else if (length matchIds <? batchSize)%nat
               then Some (Resolved (allMatchIds ++ matchIds), S request)
               else paginate fuel' (S request) (start + batchSize)%nat
                             (allMatchIds ++ matchIds)
      end
  end.

Definition getMatchIds (fuel : nat) : option (outcome (list string) * nat) :=
  paginate fuel 0 0 [].

End WithTransport.

End Listing.

(** ** Helpers and further entries of the badge catalog *)

Module BadgeRules.
Import JS Badges.

(** [isInFountain(pos, teamId)] *)
Definition isInFountain (pos teamId : value) : bool :=
  if negb (truthy pos) then false
  else if strict_eq teamId (VNum 100)
       then js_lt (optget pos "x") (VNum 1200) && js_lt (optget pos "y") (VNum 1200)
       else js_gt (optget pos "x") (VNum 13800) && js_gt (optget pos "y") (VNum 13800).

(** [isInJungleSide(pos, teamId)] *)
Definition isInJungleSide (pos teamId : value) : bool :=
  if negb (truthy pos) then false
  else if strict_eq teamId (VNum 100)
       then js_lt (optget pos "x") (VNum 9000) && js_lt (optget pos "y") (VNum 9000)
            && negb (isInBase pos (VNum 100))
       else js_gt (optget pos "x") (VNum 6000) && js_gt (optget pos "y") (VNum 6000)
            && negb (isInBase pos (VNum 200)).

(** [Math.abs(a) < Math.abs(b)] *)
Definition abs_lt (a b : value) : bool :=
  match to_num a, to_num b with
  | Some x, Some y => Z.abs x <? Z.abs y
  | _, _ => false
  end.

(** [Math.abs(frame.timestamp - timestamp) < Math.abs(closest.timestamp - timestamp)] *)
Definition closer (timestamp closest frame : value) : option bool :=
  ft ← get frame "timestamp";
  ct ← get closest "timestamp";
  Some (abs_lt (js_sub ft timestamp) (js_sub ct timestamp)).

Fixpoint nearestFrom (timestamp closest : value) (frames : list value)
    : option value :=
  match frames with
  | [] => Some closest
  | frame :: rest =>
      b ← closer timestamp closest frame;
      nearestFrom timestamp (if b : bool then frame else closest) rest
  end.

(** [getNearestFrame(frames, timestamp)] on the frames [frames] iterates
    over; [None] when it raises. *)
Definition getNearestFrame (frames : list value) (timestamp : value)
    : option value :=
  match frames with
  | [] => Some VUndef
  | first :: _ => nearestFrom timestamp first frames
  end.

(** [Math.abs(a - b) > bound] *)
Definition abs_diff_gt (a b : value) (bound : Z) : bool :=
  match to_num a, to_num b with
  | Some x, Some y => bound <? Z.abs (x - y)
  | _, _ => false
  end.

Definition theAscendedEmperor : Badge :=
  {| name := "The Ascended Emperor";
     description := "Highest gold, damage, and level. Tell the people what you have seen today.";
     evaluate := fun ctx =>
       let myGold := js_or (optget (me ctx) "goldEarned") (VNum 0) in
       let myDmg := js_or (optget (me ctx) "totalDamageDealtToChampions") (VNum 0) in
       let myLvl := js_or (optget (me ctx) "champLevel") (VNum 0) in
       Some (VBool
         (forallb (fun p => js_le (js_or (optget p "goldEarned") (VNum 0)) myGold)
                  (participants ctx)
          && forallb (fun p => js_le (js_or (optget p "totalDamageDealtToChampions")
                                            (VNum 0)) myDmg)
                     (participants ctx)
          && forallb (fun p => js_le (js_or (optget p "champLevel") (VNum 0)) myLvl)
                     (participants ctx))) |}.

(** The loops of "Architect of Ruin".  [towers.find(t => t !== tower && ...)]
    looks for another tower, told apart by its place in [towers]. *)
Definition nexusTowerOf (towers : list value) (i : nat) (inhib : value)
    : option (nat * value) :=
  default None
    (find_from (fun j t =>
                  Some (negb (j =? i)%nat
                        && abs_diff_le (optget t "timestamp")
                                       (optget inhib "timestamp") 60000))
               0 towers).

Fixpoint inhibLoop (towers : list value) (i : nat) (tower : value)
    (inhibs : list value) : bool :=
  match inhibs with
  | [] => false
  | inhib :: rest =>
      if abs_diff_gt (optget tower "timestamp") (optget inhib "timestamp") 60000
      then inhibLoop towers i tower rest
      else if truthy (default VUndef (snd <$> nexusTowerOf towers i inhib))
           then true
           else true
  end.

Fixpoint towerLoop (towers : list value) (i : nat) (remaining inhibs : list value)
    : bool :=
  match remaining with
  | [] => false
  | tower :: rest =>
      if inhibLoop towers i tower inhibs then true
      else towerLoop towers (S i) rest inhibs
  end.

Definition builtBy (ctx : Context) (buildingType : string) : list value :=
  filter (fun e => strict_eq (optget e "buildingType") (VStr buildingType) = true)
    (filter (fun e => strict_eq (optget e "killerId") (myPId ctx) = true)
            (buildingEvents ctx)).

Definition architectOfRuin : Badge :=
  {| name := "Architect of Ruin";
     description := "You destroyed a tower, an inhibitor, and a nexus turret in one continuous push.";
     evaluate := fun ctx =>
       if negb (hasTimeline ctx) || negb (truthy (myPId ctx))
       then Some (VBool false)
       else
         let towers := builtBy ctx "TOWER_BUILDING" in
         let inhibs := builtBy ctx "INHIBITOR_BUILDING" in
         Some (VBool (towerLoop towers 0 towers inhibs)) |}.

(** The event [a] is stamped no later than the event [b]. *)
Definition notLater (a b : value) : Prop :=
  ∃ x y, to_num (optget a "timestamp") = Some x
         ∧ to_num (optget b "timestamp") = Some y ∧ x ≤ y.

(** The distance in time of a frame to a timestamp, when both are numbers. *)
Definition timeGap (frame timestamp : value) : option Z :=
  ft ← to_num (optget frame "timestamp");
  t ← to_num timestamp;
  Some (Z.abs (ft - t)).

End BadgeRules.

(** ** Sample payloads and stores *)

Module Examples.
Import JS.

(** A parser that rejects every text: the samples are parsed payloads. *)
Definition noParse : string → option value := fun _ => None.
Definition noText : value → string := fun _ => "".

Definition point (x y : Z) : value := VObj [("x", VNum x); ("y", VNum y)].

Definition participant (champion : string) (team : Z) (lane : string) : value :=
  VObj [("championName", VStr champion); ("teamId", VNum team);
        ("teamPosition", VStr ""); ("lane", VStr lane);
        ("goldEarned", VNum 9000); ("totalDamageDealtToChampions", VNum 12000)].

Definition detailOf (ps : list value) : value :=
  VObj [("info", VObj [("participants", VArr ps)])].

Definition timelineOf (frames : list value) : value :=
  VObj [("info", VObj [("frames", VArr frames)])].

Definition laneState (cs gold xp : Z) : value :=
  VObj [("minionsKilled", VNum cs); ("jungleMinionsKilled", VNum 0);
        ("totalGold", VNum gold); ("xp", VNum xp)].

(** *** A match with two mid laners on one team

    Ahri and Zed (team 100) and Lux (team 200) all carry the label MIDDLE
    ([teamPosition] is empty, [lane] is used). *)
Definition crowdedMid : value :=
  detailOf [participant "Ahri" 100 "MIDDLE";
            participant "Zed" 100 "MIDDLE";
            participant "Lux" 200 "MIDDLE"].

Definition crowdedMidTimeline : value :=
  timelineOf
    [VObj [("timestamp", VNum 0);
           ("participantFrames",
            VObj [("1", laneState 10 100 5);
                  ("2", laneState 50 500 50);
                  ("3", laneState 30 300 20)]);
           ("events", VArr [])]].

Definition lux : value := participant "Lux" 200 "MIDDLE".

(** *** A match with two deaths of the subject

    Garen (team 100, participant 1) dies at 0:30 at (1000, 1000) with his
    ally Sona at (5000, 5000), and at 1:30 at (2000, 2000) with Sona at
    (3000, 2000), 1000 units away.  His team takes an elite monster at 0:05
    and another at 1:40, ten seconds after his second death, while he is in
    his fountain. *)
Definition twoDeaths : value :=
  detailOf [participant "Garen" 100 "TOP";
            participant "Sona" 100 "UTILITY";
            participant "Darius" 200 "TOP"].

Definition firstDeath : value :=
  VObj [("type", VStr "CHAMPION_KILL"); ("timestamp", VNum 30000);
        ("killerId", VNum 3); ("victimId", VNum 1);
        ("position", point 1000 1000)].

Definition secondDeath : value :=
  VObj [("type", VStr "CHAMPION_KILL"); ("timestamp", VNum 90000);
        ("killerId", VNum 3); ("victimId", VNum 1);
        ("position", point 2000 2000)].

Definition monsterKill (killer timestamp : Z) : value :=
  VObj [("type", VStr "ELITE_MONSTER_KILL"); ("timestamp", VNum timestamp);
        ("killerId", VNum killer)].

Definition twoDeathsTimeline : value :=
  timelineOf
    [VObj [("timestamp", VNum 0);
           ("participantFrames",
            VObj [("1", VObj [("position", point 1000 1000)]);
                  ("2", VObj [("position", point 5000 5000)]);
                  ("3", VObj [("position", point 1200 1000)])]);
           ("events", VArr [monsterKill 1 5000; firstDeath])];
     VObj [("timestamp", VNum 60000);
           ("participantFrames",
            VObj [("1", VObj [("position", point 500 500)]);
                  ("2", VObj [("position", point 3000 2000)]);
                  ("3", VObj [("position", point 2100 2000)])]);
           ("events", VArr [secondDeath; monsterKill 2 100000])]].

Definition twoDeathsAnalysis : Stats.Subject * Stats.Analysis :=
  default (Stats.mkSubject [] VUndef 0 VUndef, Stats.mkAnalysis [] [] [] [] [] [])
    (Stats.timelineAnalysis noParse twoDeaths twoDeathsTimeline
       (VStr "Garen") (VNum 100)).

(** *** A participant list with a hole

    The second participant is [null]: the search for Garen stops before
    it, the search for his lane opponent runs into it. *)
Definition holedDetail : value :=
  detailOf [participant "Garen" 100 "TOP"; VNull].

(** *** A stored match with a malformed kill event

    [assistingParticipantIds] of the kill is the number 5, and the subject
    is not the killer. *)
Definition malformedKill : value :=
  VObj [("type", VStr "CHAMPION_KILL"); ("timestamp", VNum 30000);
        ("killerId", VNum 3); ("victimId", VNum 2);
        ("assistingParticipantIds", VNum 5);
        ("position", point 1000 1000)].

Definition timelineParticipant (puuid : string) (pid : Z) : value :=
  VObj [("puuid", VStr puuid); ("participantId", VNum pid)].

Definition storedMatch : value :=
  VObj [("matchId", VStr "EUW1_7");
        ("championName", VStr "Garen"); ("teamId", VNum 100);
        ("rawJson",
         detailOf
           [VObj [("puuid", VStr "p-garen"); ("championName", VStr "Garen");
                  ("teamId", VNum 100); ("goldEarned", VNum 15000);
                  ("pentaKills", VNum 0); ("kills", VNum 4)];
            VObj [("puuid", VStr "p-sona"); ("championName", VStr "Sona");
                  ("teamId", VNum 100); ("goldEarned", VNum 8000);
                  ("kills", VNum 1)];
            VObj [("puuid", VStr "p-darius"); ("championName", VStr "Darius");
                  ("teamId", VNum 200); ("goldEarned", VNum 11000);
                  ("kills", VNum 6)]]);
        ("timelineJson",
         VObj [("info",
                VObj [("participants",
                       VArr [timelineParticipant "p-garen" 1;
                             timelineParticipant "p-sona" 2;
                             timelineParticipant "p-darius" 3]);
                      ("frames",
                       VArr [VObj [("timestamp", VNum 0);
                                   ("events", VArr [malformedKill])]])])])].

(** The context [buildContext] makes of it. *)
Definition storedContext : Badges.Context :=
  Eval vm_compute in
    default (Badges.mkContext VUndef VUndef VUndef [] [] [] VUndef VUndef VUndef
               VUndef VUndef false VUndef [] [] [] [] [] [] [] VUndef)
      (mjoin (Badges.buildContext noParse storedMatch)).

(** The same record as stored before its detail was fetched, and as stored
    for another champion. *)
Definition bareMatch : value :=
  VObj [("matchId", VStr "EUW1_7");
        ("championName", VStr "Garen"); ("teamId", VNum 100);
        ("rawJson", VNull)].

Definition strangerMatch : value :=
  VObj [("matchId", VStr "EUW1_7");
        ("championName", VStr "Teemo"); ("teamId", VNum 100);
        ("rawJson", twoDeaths)].

(** *** Stores and remote services *)

Definition completeRow : gmap string Sync.sqlval :=
  list_to_map
    [("matchId", Sync.SText "EUW1_1"); ("gameCreation", Sync.SInt 1770000000000);
     ("gameDuration", Sync.SInt 1800); ("totalMinionsKilled", Sync.SInt 200);
     ("teamDragons", Sync.SInt 2); ("teamBarons", Sync.SInt 1);
     ("teamRiftHeralds", Sync.SInt 0); ("primaryRune", Sync.SInt 8005);
     ("teamKills", Sync.SInt 30); ("timelineJson", Sync.SText "{}")].

Definition syncedWorld : Sync.World :=
  {| Sync.matches := {["EUW1_1" := completeRow]};
     Sync.player_ranks := ∅;
     Sync.tick := 0 |}.

Definition emptyWorld : Sync.World :=
  {| Sync.matches := ∅; Sync.player_ranks := ∅; Sync.tick := 0 |}.

(** A listing that answers every request with the one stored match, and
    one that has nothing to list. *)
Definition sameListing : nat → string → Z → option Z → option (list string) :=
  fun _ _ _ _ => Some ["EUW1_1"].

Definition emptyListing : nat → string → Z → option Z → option (list string) :=
  fun _ _ _ _ => Some [].

Definition unreachable : nat → string → option value := fun _ _ => None.

Definition overlapping : Sync.Discovery :=
  {| Sync.specialMatchIds := ["EUW1_9"; "EUW1_4"];
     Sync.forwardMatches := ["EUW1_4"; "EUW1_5"; "EUW1_9"];
     Sync.missingMatches := ["EUW1_2"; "EUW1_5"] |}.

Definition staleEntry : Sync.RankEntry :=
  {| Sync.rank_puuid := "p-garen";
     Sync.soloTier := VStr "GOLD"; Sync.soloRank := VStr "II";
     Sync.soloLP := VNum 40;
     Sync.flexTier := VNull; Sync.flexRank := VNull; Sync.flexLP := VNull;
     Sync.fetchedAt := 1000 |}.

Definition rankedWorld : Sync.World :=
  {| Sync.matches := ∅;
     Sync.player_ranks := {["p-garen" := staleEntry]};
     Sync.tick := 0 |}.

(** A clock that reads 1e8 ms, more than a day after [staleEntry]. *)
Definition frozenClock : nat → Z := fun _ => 100000000.

End Examples.

(** ** Further sample data: a first run, maintenance, pagination and
    deaths between frames *)

Module Scenarios.
Import JS Examples.

(** A listing that answers every request with one match, which no sample
    store holds. *)
Definition freshListing : nat → string → Z → option Z → option (list string) :=
  fun _ _ _ _ => Some ["EUW1_2"].

(** The detail of the match EUW1_2: Garen (the player) against Darius. *)
Definition garenDetail : value :=
  VObj [("info",
         VObj [("queueId", VNum 420); ("gameCreation", VNum 1770000100000);
               ("gameDuration", VNum 1500);
               ("participants",
                VArr [VObj [("puuid", VStr "p-garen");
                            ("championName", VStr "Garen"); ("teamId", VNum 100);
                            ("kills", VNum 4); ("deaths", VNum 2);
                            ("assists", VNum 7); ("goldEarned", VNum 9000);
                            ("totalDamageDealtToChampions", VNum 12000);
                            ("win", VBool true)];
                      VObj [("puuid", VStr "p-darius");
                            ("championName", VStr "Darius"); ("teamId", VNum 200);
                            ("kills", VNum 2); ("deaths", VNum 4);
                            ("assists", VNum 0); ("goldEarned", VNum 7000);
                            ("win", VBool false)]]);
               ("teams",
                VArr [VObj [("teamId", VNum 100);
                            ("objectives",
                             VObj [("dragon", VObj [("kills", VNum 2)])])];
                      VObj [("teamId", VNum 200)]])])].

Definition detailService : nat → string → option value :=
  fun _ _ => Some garenDetail.

(** A serializer that writes one text for every value, and the parser
    that reads it back as [garenDetail]. *)
Definition detailText : value → string := fun _ => "garen-detail".

Definition parseDetail : string → option value :=
  fun text => if String.eqb text "garen-detail" then Some garenDetail else None.

Definition firstResult : Sync.SyncResult :=
  {| Sync.newMatches := 1; Sync.skipped := 0; Sync.total := 1;
     Sync.newMatchIds := Some ["EUW1_2"] |}.

(** The store after a first run whose timeline requests all failed: the
    match EUW1_2 is stored without a timeline. *)
Definition untimedWorld : Sync.World :=
  Eval vm_compute in
    (Sync.syncMatches freshListing detailService unreachable parseDetail detailText
       "p-garen" emptyWorld).2.

(** A store that holds EUW1_1 with nothing but its id. *)
Definition partialWorld : Sync.World :=
  {| Sync.matches := {["EUW1_1" := {["matchId" := Sync.SText "EUW1_1"]}]};
     Sync.player_ranks := ∅;
     Sync.tick := 0 |}.

(** A timeline service that answers every request with an empty timeline. *)
Definition timelineService : nat → string → option value :=
  fun _ _ => Some (timelineOf []).

(** League data with a solo-queue entry only. *)
Definition goldLeague : value :=
  VObj [("solo", VObj [("tier", VStr "GOLD"); ("rank", VStr "I");
                       ("leaguePoints", VNum 75)]);
        ("flex", VNull)].

Definition leagueService : nat → string → option value :=
  fun _ _ => Some goldLeague.

Definition refreshedEntry : Sync.RankEntry :=
  {| Sync.rank_puuid := "p-garen";
     Sync.soloTier := VStr "GOLD"; Sync.soloRank := VStr "I";
     Sync.soloLP := VNum 75;
     Sync.flexTier := VNull; Sync.flexRank := VNull; Sync.flexLP := VNull;
     Sync.fetchedAt := 100000000 |}.

(** A transport whose first page is full and whose second has one id. *)
Definition fullPage : list string := replicate 100 "EUW1_3".

Definition twoPages : nat → nat → option (list string) :=
  fun request _ => if (request =? 0)%nat then Some fullPage else Some ["EUW1_4"].

(** Three frames, a minute apart. *)
Definition threeFrames : list value :=
  [VObj [("timestamp", VNum 0)]; VObj [("timestamp", VNum 60000)];
   VObj [("timestamp", VNum 120000)]].

(** A match whose participants carry no position label. *)
Definition unlabelled : value :=
  detailOf [participant "Garen" 100 ""; participant "Darius" 200 ""].

Definition unlabelledTimeline : value :=
  timelineOf
    [VObj [("timestamp", VNum 0);
           ("participantFrames",
            VObj [("1", laneState 10 100 5); ("2", laneState 50 500 50)]);
           ("events", VArr [])]].

Definition unlabelledGaren : Stats.Subject :=
  {| Stats.participants := [participant "Garen" 100 ""; participant "Darius" 200 ""];
     Stats.me := participant "Garen" 100 "";
     Stats.meIdx := 0;
     Stats.myPId := VNum 1 |}.

(** Six entries of [BADGES], in catalog order. *)
Definition longerExcerpt : list Badges.Badge :=
  [Badges.davidVsGoliath; Badges.theBloodCrowned; Badges.kingOfTheDocks;
   BadgeRules.theAscendedEmperor; BadgeRules.architectOfRuin;
   Badges.theHarrowingMist].

Definition storedEarned : list Badges.Earned :=
  [{| Badges.earned_name := "King of the Docks";
      Badges.earned_description :=
        "You finished with the highest gold count in the lobby. Everyone else is just a stowaway." |};
   {| Badges.earned_name := "The Ascended Emperor";
      Badges.earned_description :=
        "Highest gold, damage, and level. Tell the people what you have seen today." |}].

(** A stored match in which Garen takes one tower and, thirty seconds
    later, one inhibitor; no other building falls. *)
Definition towerKill : value :=
  VObj [("type", VStr "BUILDING_KILL"); ("timestamp", VNum 600000);
        ("killerId", VNum 1); ("buildingType", VStr "TOWER_BUILDING")].

Definition inhibitorKill : value :=
  VObj [("type", VStr "BUILDING_KILL"); ("timestamp", VNum 630000);
        ("killerId", VNum 1); ("buildingType", VStr "INHIBITOR_BUILDING")].

Definition siegeMatch : value :=
  VObj [("matchId", VStr "EUW1_8");
        ("championName", VStr "Garen"); ("teamId", VNum 100);
        ("rawJson",
         detailOf
           [VObj [("puuid", VStr "p-garen"); ("championName", VStr "Garen");
                  ("teamId", VNum 100)];
            VObj [("puuid", VStr "p-darius"); ("championName", VStr "Darius");
                  ("teamId", VNum 200)]]);
        ("timelineJson",
         VObj [("info",
                VObj [("participants",
                       VArr [timelineParticipant "p-garen" 1;
                             timelineParticipant "p-darius" 2]);
                      ("frames",
                       VArr [VObj [("timestamp", VNum 600000);
                                   ("events",
                                    VArr [towerKill; inhibitorKill])]])])])].

Definition siegeContext : Badges.Context :=
  Eval vm_compute in
    default (Badges.mkContext VUndef VUndef VUndef [] [] [] VUndef VUndef VUndef
               VUndef VUndef false VUndef [] [] [] [] [] [] [] VUndef)
      (mjoin (Badges.buildContext noParse siegeMatch)).

(** *** A death just before a frame

    Garen dies at 0:59 and again at 1:10, both times at (1000, 1000).
    Sona, his ally, stands far away in the frame of 0:00 and 100 units
    from that spot in the frame of 1:00.  No objective falls. *)
Definition lateDeath : value :=
  VObj [("type", VStr "CHAMPION_KILL"); ("timestamp", VNum 59000);
        ("killerId", VNum 3); ("victimId", VNum 1);
        ("position", point 1000 1000)].

Definition nearDeath : value :=
  VObj [("type", VStr "CHAMPION_KILL"); ("timestamp", VNum 70000);
        ("killerId", VNum 3); ("victimId", VNum 1);
        ("position", point 1000 1000)].

Definition openingFrame : value :=
  VObj [("timestamp", VNum 0);
        ("participantFrames",
         VObj [("1", VObj [("position", point 1000 1000)]);
               ("2", VObj [("position", point 9000 9000)]);
               ("3", VObj [("position", point 1200 1000)])]);
        ("events", VArr [])].

Definition minuteFrame : value :=
  VObj [("timestamp", VNum 60000);
        ("participantFrames",
         VObj [("1", VObj [("position", point 1000 1000)]);
               ("2", VObj [("position", point 1100 1000)]);
               ("3", VObj [("position", point 1200 1000)])]);
        ("events", VArr [lateDeath])].

Definition closingFrame : value :=
  VObj [("timestamp", VNum 120000);
        ("participantFrames",
         VObj [("1", VObj [("position", point 500 500)]);
               ("2", VObj [("position", point 1100 1000)]);
               ("3", VObj [("position", point 1200 1000)])]);
        ("events", VArr [nearDeath])].

Definition lateDeathTimeline : value :=
  timelineOf [openingFrame; minuteFrame; closingFrame].

Definition lateDeathAnalysis : Stats.Subject * Stats.Analysis :=
  default (Stats.mkSubject [] VUndef 0 VUndef, Stats.mkAnalysis [] [] [] [] [] [])
    (Stats.timelineAnalysis noParse twoDeaths lateDeathTimeline
       (VStr "Garen") (VNum 100)).

(** *** An elite monster taken with an assist only

    The kill is credited to no participant ([killerId] 0); Sona, of the
    subject's team, assists. *)
Definition assistedKill : value :=
  VObj [("type", VStr "ELITE_MONSTER_KILL"); ("timestamp", VNum 5000);
        ("killerId", VNum 0); ("assistingParticipantIds", VArr [VNum 2])].

Definition assistedTimeline : value :=
  timelineOf
    [VObj [("timestamp", VNum 0);
           ("participantFrames",
            VObj [("1", VObj [("position", point 1000 1000)]);
                  ("2", VObj [("position", point 5000 5000)]);
                  ("3", VObj [("position", point 1200 1000)])]);
           ("events", VArr [assistedKill])]].

Definition assistedAnalysis : Stats.Subject * Stats.Analysis :=
  default (Stats.mkSubject [] VUndef 0 VUndef, Stats.mkAnalysis [] [] [] [] [] [])
    (Stats.timelineAnalysis noParse twoDeaths assistedTimeline
       (VStr "Garen") (VNum 100)).

End Scenarios.

(** * Properties *)

(** ** The processing order of [syncMatches] *)

Module SyncOrder.
Import Sync.

Lemma foldl_set_add_spec (l acc : list string) :
  ∃ ext, foldl set_add acc l = acc ++ ext
         ∧ (NoDup acc → NoDup (acc ++ ext))
         ∧ (∀ x, x ∈ ext ↔ x ∈ l ∧ x ∉ acc).
Proof.
  revert acc. induction l as [|x l IH]; intros acc; simpl.
  - exists []. rewrite app_nil_r. split; [done|]. split; [done|].
    intros y. split; [by intros ?%elem_of_nil | by intros [?%elem_of_nil _]].
  - unfold set_add at 2. case_bool_decide as Hin.
    + destruct (IH acc) as (ext & -> & Hnd & Hmem).
      exists ext. split; [done|]. split; [done|].
      intros y. rewrite Hmem, elem_of_cons. split; [intros [? ?]; by split; [right|] |].
      intros [[->|?] ?]; [done | done].
    + destruct (IH (acc ++ [x])) as (ext & -> & Hnd & Hmem).
      exists (x :: ext). split; [by rewrite <- app_assoc|]. split.
      * intros Hacc. rewrite (assoc_L (++) acc [x] ext : acc ++ x :: ext = _).
        apply Hnd. apply NoDup_app. split; [done|]. split.
        -- intros y Hy ->%list_elem_of_singleton. done.
        -- apply NoDup_singleton.
      * intros y. rewrite !elem_of_cons, Hmem, elem_of_app, list_elem_of_singleton.
        split.
        -- intros [->|[? ?]]; [by split; [left|] | split; [by right | tauto]].
        -- intros [[->|?] ?]; [by left|]. destruct (decide (y = x)); [by left|].
           right. split; [done|]. tauto.
Qed.

Lemma uniqueIds_elem_of (l : list string) (x : string) :
  x ∈ uniqueIds l ↔ x ∈ l.
Proof.
  unfold uniqueIds. destruct (foldl_set_add_spec l []) as (ext & -> & _ & Hmem).
  simpl. rewrite Hmem. split; [by intros [? _]|].
  intros ?. split; [done|]. apply not_elem_of_nil.
Qed.

Lemma uniqueIds_NoDup (l : list string) : NoDup (uniqueIds l).
Proof.
  unfold uniqueIds. destruct (foldl_set_add_spec l []) as (ext & -> & Hnd & _).
  apply Hnd, NoDup_nil_2.
Qed.

(** The ids of a prefix come first, in the order they have on their own;
    what follows is new with respect to the prefix. *)
Lemma uniqueIds_app (l1 l2 : list string) :
  ∃ ext, uniqueIds (l1 ++ l2) = uniqueIds l1 ++ ext
         ∧ ∀ x, x ∈ ext ↔ x ∈ l2 ∧ x ∉ l1.
Proof.
  unfold uniqueIds. rewrite foldl_app.
  destruct (foldl_set_add_spec l2 (foldl set_add [] l1)) as (ext & -> & _ & Hmem).
  exists ext. split; [done|]. intros x. rewrite Hmem.
  fold (uniqueIds l1). by rewrite uniqueIds_elem_of.
Qed.

Lemma uniqueIds_first (l1 l2 : list string) (x : string) :
  x ∉ l1 →
  ∃ ext, uniqueIds (l1 ++ x :: l2) = uniqueIds l1 ++ x :: ext.
Proof.
  intros Hx. unfold uniqueIds. rewrite foldl_app. simpl.
  unfold set_add at 2. rewrite bool_decide_eq_false_2.
  - destruct (foldl_set_add_spec l2 (foldl set_add [] l1 ++ [x]))
      as (ext & -> & _). exists ext. by rewrite <- app_assoc.
  - fold (uniqueIds l1). by rewrite uniqueIds_elem_of.
Qed.

Lemma NoDup_split_unique (a b c d : list string) (x : string) :
  NoDup (a ++ x :: b) → a ++ x :: b = c ++ x :: d → a = c.
Proof.
  revert c. induction a as [|y a IH]; intros c Hnd Heq.
  - destruct c as [|z c]; [done|]. simpl in Heq. injection Heq as <- Hb.
    apply NoDup_cons in Hnd as [Hx _]. exfalso. apply Hx.
    rewrite Hb. apply elem_of_app. right. left.
  - destruct c as [|z c]; simpl in Heq; injection Heq as -> Hrest.
    + simpl in Hnd. apply NoDup_cons in Hnd as [Hx _]. exfalso. apply Hx.
      apply elem_of_app. right. left.
    + f_equal. apply IH; [|done]. simpl in Hnd. by apply NoDup_cons in Hnd as [_ ?].
Qed.

(** C2. For every combination of special-queue, forward and backward id
    lists, the ids [syncMatches] processes ([matchIdsOf]) have no duplicate
    and are exactly the collected ids; each id stands at the place of its
    first occurrence in [special ++ forward ++ backward] (the ids before
    it are the deduplicated ids collected before that occurrence); and
    every special-queue id stands before every id collected only by the
    forward or backward fetch. *)
Theorem matchIds_deduplicated_special_first (d : Discovery) :
  let collected := specialMatchIds d ++ (forwardMatches d ++ missingMatches d) in
  NoDup (matchIdsOf d)
  ∧ (∀ id, id ∈ matchIdsOf d ↔
           id ∈ specialMatchIds d ∨ id ∈ forwardMatches d ∨ id ∈ missingMatches d)
  ∧ (∀ before id after,
       matchIdsOf d = before ++ id :: after →
       ∃ before' after',
         collected = before' ++ id :: after'
         ∧ (id ∉ before')
         ∧ before = uniqueIds before')
  ∧ (∀ s id,
       s ∈ specialMatchIds d → id ∈ matchIdsOf d → id ∉ specialMatchIds d →
       ∃ l1 l2 l3, matchIdsOf d = l1 ++ s :: l2 ++ id :: l3).
Proof.
  intros collected. unfold matchIdsOf. fold collected.
  split; [apply uniqueIds_NoDup|]. split; [|split].
  - intros id. rewrite uniqueIds_elem_of. unfold collected.
    by rewrite !elem_of_app.
  - intros before id after Heq.
    assert (id ∈ collected) as Hin.
    { apply uniqueIds_elem_of. rewrite Heq. apply elem_of_app. right. left. }
    apply list_elem_of_split_l in Hin as (before' & after' & Hc & Hnot).
    exists before', after'. split; [done|]. split; [done|].
    destruct (uniqueIds_first before' after' id Hnot) as (ext & Hu).
    rewrite <- Hc in Hu. eapply NoDup_split_unique.
    + rewrite <- Heq. apply uniqueIds_NoDup.
    + by rewrite <- Heq, Hu.
  - intros s id Hs Hid Hnot. unfold collected in *.
    destruct (uniqueIds_app (specialMatchIds d)
                (forwardMatches d ++ missingMatches d)) as (ext & Hu & Hext).
    assert (id ∈ ext) as Hide.
    { rewrite Hu in Hid. apply elem_of_app in Hid as [Hid|Hid]; [|done].
      exfalso. apply Hnot. by apply uniqueIds_elem_of. }
    apply uniqueIds_elem_of in Hs.
    apply list_elem_of_split in Hs as (l1 & l2 & Hs).
    apply list_elem_of_split in Hide as (e1 & e2 & He).
    exists l1, (l2 ++ e1), e2. rewrite Hu, Hs, He.
    by rewrite <- !app_assoc.
Qed.

End SyncOrder.

(** ** Runs of [syncMatches] *)

Module SyncRun.
Import JS Sync.

Section WithServices.

Variable getMatchIds : nat → string → Z → option Z → option (list string).
Variable getMatchData : nat → string → option value.
Variable getMatchTimeline : nat → string → option value.
Variable JSON_parse : string → option value.
Variable JSON_stringify : value → string.

#[local] Abbreviation processMatch :=
  (processMatch getMatchData getMatchTimeline JSON_parse JSON_stringify).
#[local] Abbreviation processBatch :=
  (processBatch getMatchData getMatchTimeline JSON_parse JSON_stringify).
#[local] Abbreviation syncMatches :=
  (syncMatches getMatchIds getMatchData getMatchTimeline JSON_parse JSON_stringify).
#[local] Abbreviation listed := (listed getMatchIds).

Lemma fetchSpecialQueue_spec puuid q n w ids w' :
  fetchSpecialQueue getMatchIds puuid q n w = (ids, w') →
  matches w' = matches w ∧ ∀ id, id ∈ ids → listed puuid id.
Proof.
  revert w. induction n as [|n IH]; intros w; simpl.
  - intros [= <- <-]. split; [done|]. by intros id ?%elem_of_nil.
  - destruct (getMatchIds (tick w) puuid RANKED_SEASON_START (Some q)) as [l|] eqn:E.
    + intros [= <- <-]. split; [done|]. intros id Hid.
      by exists (tick w), RANKED_SEASON_START, (Some q), l.
    + intros H. by apply IH in H.
Qed.

Lemma fetchSpecialQueues_spec puuid qs w ids w' :
  fetchSpecialQueues getMatchIds puuid qs w = (ids, w') →
  matches w' = matches w ∧ ∀ id, id ∈ ids → listed puuid id.
Proof.
  revert w ids w'. induction qs as [|q qs IH]; intros w ids w';
    cbn [fetchSpecialQueues].
  - intros [= <- <-]. split; [done|]. by intros id ?%elem_of_nil.
  - destruct (fetchSpecialQueue getMatchIds puuid q (S MAX_RETRIES) w)
      as [l1 w1] eqn:E1.
    destruct (fetchSpecialQueues getMatchIds puuid qs w1) as [l2 w2] eqn:E2.
    intros [= <- <-].
    apply fetchSpecialQueue_spec in E1 as [M1 L1].
    apply IH in E2 as [M2 L2]. split; [congruence|].
    intros id [?|?]%elem_of_app; auto.
Qed.

Lemma backwardSync_spec puuid w missing w' :
  backwardSync getMatchIds puuid w = (Resolved missing, w') →
  matches w' = matches w ∧ ∀ id, id ∈ missing → listed puuid id.
Proof.
  unfold backwardSync. intros H.
  assert (∀ w0, (Resolved (A:=list string) [], w0) = (Resolved missing, w') →
    matches w' = matches w0 ∧ ∀ id, id ∈ missing → listed puuid id) as Hnil.
  { intros w0 [= <- <-]. split; [done|]. by intros id ?%elem_of_nil. }
  destruct (oldestTime w) as [oldest|]; [|by apply Hnil].
  destruct (negb (oldest =? 0) && _); [|by apply Hnil].
  destruct (getMatchIds (tick w) puuid RANKED_SEASON_START None) as [l|] eqn:E;
    [|done].
  injection H as <- <-. split; [done|].
  intros id [_ Hid]%list_elem_of_filter.
  by exists (tick w), RANKED_SEASON_START, None, l.
Qed.

Lemma generalSync_spec puuid w forward missing w' :
  generalSync getMatchIds puuid w = (Resolved (forward, missing), w') →
  matches w' = matches w
  ∧ ∀ id, id ∈ forward ∨ id ∈ missing → listed puuid id.
Proof.
  unfold generalSync. intros H.
  assert (∀ start,
    match getMatchIds (tick w) puuid start None with
    | Some all => (Resolved (all, []), tock w)
    | None => (Rejected, tock w)
    end = (Resolved (forward, missing), w') →
    matches w' = matches w
    ∧ ∀ id, id ∈ forward ∨ id ∈ missing → listed puuid id) as Hfirst.
  { intros start. destruct (getMatchIds (tick w) puuid start None) as [l|] eqn:E;
      [|done].
    intros [= <- <- <-]. split; [done|].
    intros id [Hid|Hid%elem_of_nil]; [|done].
    by exists (tick w), start, None, l. }
  destruct (latestTime w) as [latest|]; [|by eapply Hfirst].
  destruct (negb (latest =? 0)); [|by eapply Hfirst].
  destruct (getMatchIds (tick w) puuid (latest / 1000 + 1) None) as [l|] eqn:E;
    [|done].
  destruct (backwardSync getMatchIds puuid (tock w)) as [[m|] w2] eqn:B; [|done].
  injection H as <- <- <-. apply backwardSync_spec in B as [M L].
  split; [done|]. intros id [Hid|Hid]; [|by apply L].
  by exists (tick w), (latest / 1000 + 1), None, l.
Qed.

Lemma discover_spec puuid w d w' :
  discover getMatchIds puuid w = (Resolved d, w') →
  matches w' = matches w ∧ ∀ id, id ∈ matchIdsOf d → listed puuid id.
Proof.
  unfold discover.
  destruct (generalSync getMatchIds puuid w) as [[[forward missing]|] w1] eqn:G;
    [|done].
  destruct (fetchSpecialQueues getMatchIds puuid SPECIAL_QUEUES w1)
    as [special w2] eqn:S.
  intros [= <- <-]. apply generalSync_spec in G as [M1 L1].
  apply fetchSpecialQueues_spec in S as [M2 L2]. split; [congruence|].
  intros id Hid. unfold matchIdsOf in Hid. simpl in Hid.
  apply (proj1 (SyncOrder.uniqueIds_elem_of _ _)) in Hid.
  apply elem_of_app in Hid as [?|Hid]; [by apply L2|].
  apply elem_of_app in Hid. by apply L1.
Qed.

(** If no general listing request is rejected, the ids are collected. *)
Lemma discover_resolves puuid w :
  (∀ k start, getMatchIds k puuid start None ≠ None) →
  ∃ d w', discover getMatchIds puuid w = (Resolved d, w').
Proof.
  intros Hok. unfold discover.
  assert (∃ fm w1, generalSync getMatchIds puuid w = (Resolved fm, w1))
    as ([forward missing] & w1 & ->).
  { unfold generalSync.
    assert (∀ start, ∃ fm w1,
      match getMatchIds (tick w) puuid start None with
      | Some all => (Resolved (all, @nil string), tock w)
      | None => (Rejected, tock w)
      end = (Resolved fm, w1)) as Hfirst.
    { intros start. specialize (Hok (tick w) start).
      destruct (getMatchIds (tick w) puuid start None); [eauto | done]. }
    destruct (latestTime w) as [latest|]; [|apply Hfirst].
    destruct (negb (latest =? 0)); [|apply Hfirst].
    pose proof (Hok (tick w) (latest / 1000 + 1)) as H1.
    destruct (getMatchIds (tick w) puuid (latest / 1000 + 1) None); [|done].
    unfold backwardSync.
    destruct (oldestTime (tock w)) as [oldest|]; [|eauto].
    destruct (negb (oldest =? 0) && _); [|eauto].
    pose proof (Hok (tick (tock w)) RANKED_SEASON_START) as H2.
    destruct (getMatchIds (tick (tock w)) puuid RANKED_SEASON_START None);
      [eauto | done]. }
  destruct (fetchSpecialQueues getMatchIds puuid SPECIAL_QUEUES w1)
    as [special w2]. eauto.
Qed.

(** A match stored with all its required columns is skipped: nothing is
    requested and nothing is written. *)
Lemma processMatch_complete puuid id c w :
  needsFetch (matches w !! id) = false →
  processMatch puuid id (c, w) = (USkipped, (skip 1 c, w)).
Proof.
  intros H. unfold Sync.processMatch. rewrite H. unfold skip.
  by rewrite Nat.add_1_r.
Qed.

Lemma units_complete puuid (l : list string) c w :
  (∀ id, id ∈ l → needsFetch (matches w !! id) = false) →
  foldl (fun st id => (processMatch puuid id st).2) (c, w) l
  = (skip (length l) c, w).
Proof.
  revert c. induction l as [|id l IH]; intros c H; cbn [foldl length].
  - destruct c. unfold skip. simpl. by rewrite Nat.add_0_r.
  - rewrite processMatch_complete by (apply H; left). cbn [snd].
    rewrite IH by (intros; apply H; by right).
    unfold skip. simpl. do 2 f_equal. lia.
Qed.

Lemma processBatch_complete puuid (batch : list string) c w :
  (∀ id, id ∈ batch → needsFetch (matches w !! id) = false) →
  processBatch puuid (c, w) batch
  = (advance (length batch) (skip (length batch) c), w).
Proof.
  intros H. unfold Sync.processBatch. by rewrite units_complete.
Qed.

Lemma batches_complete puuid (l : list string) :
  (∀ c w, (∀ id, id ∈ l → needsFetch (matches w !! id) = false) →
     foldl (processBatch puuid) (c, w) (batches l)
     = (advance (length l) (skip (length l) c), w))
  ∧ (∀ a c w, (∀ id, id ∈ a :: l → needsFetch (matches w !! id) = false) →
     foldl (processBatch puuid) (c, w) (batches (a :: l))
     = (advance (S (length l)) (skip (S (length l)) c), w)).
Proof.
  induction l as [|b l [IH1 IH2]].
  - split.
    + intros [] w _. unfold advance, skip. simpl. by rewrite !Nat.add_0_r.
    + intros a c w H. cbn [batches foldl].
      by rewrite processBatch_complete.
  - split; [apply IH2|].
    intros a c w H. cbn [batches foldl].
    rewrite processBatch_complete.
    + rewrite IH1 by (intros; apply H; by do 2 right).
      unfold advance, skip. simpl. do 2 f_equal; lia.
    + intros id Hid. apply H. apply elem_of_cons in Hid as [->|Hid]; [by left|].
      apply list_elem_of_singleton in Hid as ->. right. by left.
Qed.

(** C1. Sync is idempotent.  When every id a listing request answers with
    is stored with all its required columns, a run of [syncMatches] that
    returns returns [newMatches = 0]: every unit is skipped and the store
    is left as it was.  The run does return when no general listing
    request is rejected. *)
Theorem syncMatches_idempotent (puuid : string) (w : World) :
  (∀ id, listed puuid id → needsFetch (matches w !! id) = false) →
  (∀ r w', syncMatches puuid w = (Resolved r, w') →
     newMatches r = 0%nat ∧ skipped r = total r ∧ matches w' = matches w)
  ∧ ((∀ k start, getMatchIds k puuid start None ≠ None) →
     ∃ r w', syncMatches puuid w = (Resolved r, w')).
Proof.
  intros Hstored. split.
  - intros r w'. unfold Sync.syncMatches.
    destruct (discover getMatchIds puuid w) as [[d|] w1] eqn:D; [|done].
    apply discover_spec in D as [M L].
    destruct (matchIdsOf d) as [|id0 ids] eqn:Ids.
    + intros [= <- <-]. done.
    + rewrite (proj1 (batches_complete puuid (id0 :: ids))).
      * intros [= <- <-]. simpl. split; [done|]. split; [lia | done].
      * intros id Hid. rewrite M. by apply Hstored, L.
  - intros Hok. destruct (discover_resolves puuid w Hok) as (d & w1 & D).
    unfold Sync.syncMatches. rewrite D.
    destruct (matchIdsOf d); [eauto|].
    destruct (foldl _ _ _). eauto.
Qed.

End WithServices.

End SyncRun.

(** ** The derived statistics *)

Module StatsFacts.
Import JS Stats.

Section WithParser.

Variable JSON_parse : string → option value.

#[local] Abbreviation run := (run JSON_parse).
#[local] Abbreviation computeAdvancedStatsForMatch :=
  (computeAdvancedStatsForMatch JSON_parse).
#[local] Abbreviation resolveSubject := (resolveSubject JSON_parse).
#[local] Abbreviation timelineFrames := (timelineFrames JSON_parse).
#[local] Abbreviation timelineAnalysis := (timelineAnalysis JSON_parse).

(** A filter hands every element to its callback; a search whose
    callback raises on none of them does not raise. *)
Lemma filter_from_Some cb i l r :
  filter_from cb i l = Some r → Forall (fun p => ∃ k, is_Some (cb k p)) l.
Proof.
  revert i r. induction l as [|p l IH]; intros i r; [by constructor|].
  cbn [filter_from]. destruct (cb i p) as [b|] eqn:E; [|done]. cbn.
  destruct (filter_from cb (S i) l) eqn:F; [|done].
  intros _. constructor; [exists i; by rewrite E | by eapply IH].
Qed.

Lemma find_from_is_Some cb i l :
  Forall (fun p => ∀ k, is_Some (cb k p)) l → is_Some (find_from cb i l).
Proof.
  intros H. revert i. induction H as [|p l Hp _ IH]; intros i; [by eexists|].
  cbn [find_from]. destruct (Hp i) as [b ->]. cbn.
  destruct b; [by eexists | apply IH].
Qed.

(** The teammate filter reads [teamId] off every participant, so that the
    search for the lane opponent cannot raise. *)
Lemma teammate_opponent_readable s pos p :
  (∃ k, is_Some (is_teammate s k p)) → ∀ k, is_Some (is_opponent s pos k p).
Proof.
  intros [k0 H] k. unfold is_teammate in H. unfold is_opponent.
  destruct (get p "teamId"); [by eexists | by destruct H].
Qed.

Lemma analyse_laneDiffs s frames a :
  analyse s frames = Next a → ∃ d, laneDiffs s frames = Next d.
Proof.
  unfold analyse. intros H.
  destruct (as_array frames) as [fl|]; cbn in H; [|done].
  destruct (flatEvents fl) as [evs|]; cbn in H; [|done].
  destruct (filterM (has_type ["CHAMPION_KILL"]) evs) as [kills|];
    cbn in H; [|done].
  destruct (filterM (has_type ["ELITE_MONSTER_KILL"; "BUILDING_KILL"]) evs)
    as [objs|]; cbn in H; [|done].
  destruct (filter_from (is_teammate s) 0 (participants s)) as [mates|] eqn:F;
    cbn in H; [|done].
  apply filter_from_Some in F.
  destruct (find_from_is_Some (is_opponent s (positionOf (me s))) 0
              (participants s)) as [opp Hopp].
  { eapply Forall_impl; [exact F|]. intros p. apply teammate_opponent_readable. }
  unfold laneDiffs, findOpponent. rewrite Hopp. cbn.
  destruct (truthy (frame15Of frames) && _); [|by eexists].
  destruct (truthy (optget_at _ (myPId s))); [|by eexists].
  destruct opp as [[j o]|]; [|by eexists].
  destruct (truthy o); [|by eexists].
  destruct (truthy (optget_at _ _)); by eexists.
Qed.

(** Once the timeline is analysed the run completes with both counts. *)
Lemma run_analysed md tl name team s a :
  timelineAnalysis md tl name team = Some (s, a) →
  (run md tl name team).1 = Completed
  ∧ isolatedDeaths (computeAdvancedStatsForMatch md tl name team)
    = VNum (Z.of_nat (isolatedCount a))
  ∧ objectiveRate (computeAdvancedStatsForMatch md tl name team)
    = objectiveRateOf s a.
Proof.
  unfold Stats.timelineAnalysis, Stats.computeAdvancedStatsForMatch, Stats.run.
  destruct (resolveSubject md name team) as [s0| |]; [|done..].
  destruct (timelineFrames tl) as [frames| |]; [|done..].
  destruct (analyse s0 frames) as [a0| |] eqn:A; [|done..].
  intros [= <- <-]. destruct (analyse_laneDiffs _ _ _ A) as [d ->].
  done.
Qed.

(** Without it both counts stay [null]. *)
Lemma run_not_analysed md tl name team :
  timelineAnalysis md tl name team = None →
  (run md tl name team).1 ≠ Completed
  ∧ isolatedDeaths (computeAdvancedStatsForMatch md tl name team) = VNull
  ∧ objectiveRate (computeAdvancedStatsForMatch md tl name team) = None.
Proof.
  unfold Stats.timelineAnalysis, Stats.computeAdvancedStatsForMatch, Stats.run.
  destruct (resolveSubject md name team) as [s0| |]; [|by destruct 1..].
  destruct (timelineFrames tl) as [frames| |]; [|by intros _..].
  destruct (laneDiffs s0 frames) as [[[[cs gold] xp]|]| |];
    destruct (analyse s0 frames) as [a0| |]; done.
Qed.

Lemma toFixed_percentage (alive n : nat) :
  (alive ≤ n)%nat → (0 < n)%nat →
  ∃ m, toFixed 1 (Z.of_nat alive * 100) (Z.of_nat n) = DFixed m 1
       ∧ 0 ≤ m ≤ 1000.
Proof.
  intros Hle Hpos. unfold toFixed. eexists. split; [done|].
  assert (0 ≤ Z.of_nat alive * 100) as Hnum by lia.
  rewrite Z.abs_eq by done.
  change (10 ^ Z.of_nat 1) with 10.
  set (q := (2 * (Z.of_nat alive * 100) * 10 + Z.of_nat n) / (2 * Z.of_nat n)).
  assert (0 ≤ q ≤ 1000) as Hq.
  { unfold q. split.
    - apply Z.div_pos; lia.
    - apply Z.lt_succ_r, Z.div_lt_upper_bound; lia. }
  destruct (Z.sgn_spec (Z.of_nat alive * 100)) as [[_ ->]|[[_ ->]|[? _]]]; lia.
Qed.

Lemma aliveCount_le s a : (aliveCount s a ≤ length (teamObjEvents s a))%nat.
Proof. unfold aliveCount. apply length_filter. Qed.

(** The objective block finds no kill of the team exactly when no
    [ELITE_MONSTER_KILL] event has the subject or a teammate as killer. *)
Lemma teamObjEvents_nil s a :
  teamObjEvents s a = []
  ↔ ∀ e, e ∈ allEvents a →
         strict_eq (optget e "type") (VStr "ELITE_MONSTER_KILL") = true →
         includes (myTeamPIds a ++ [myPId s]) (optget e "killerId") = false.
Proof.
  unfold teamObjEvents. split.
  - intros Hnil e Hin Htype.
    destruct (includes _ (optget e "killerId")) eqn:I; [|done]. exfalso.
    assert (e ∈ filter (fun e =>
              strict_eq (optget e "type") (VStr "ELITE_MONSTER_KILL")
              && includes (myTeamPIds a ++ [myPId s]) (optget e "killerId") = true)
              (allEvents a)) as Hmem.
    { apply list_elem_of_filter. split; [|done]. by rewrite Htype, I. }
    rewrite Hnil in Hmem. by apply elem_of_nil in Hmem.
  - intros Hnone.
    destruct (filter _ (allEvents a)) as [|e es] eqn:F; [done|]. exfalso.
    assert (e ∈ e :: es) as Hmem by left. rewrite <- F in Hmem.
    apply list_elem_of_filter in Hmem as [Hboth Hin].
    apply andb_true_iff in Hboth as [Htype I].
    rewrite (Hnone e Hin Htype) in I. done.
Qed.

(** C7 (amended). For every match detail and timeline, [objectiveRate] is
    [null] when the timeline is not analysed (the subject is not found,
    there is no usable timeline, or reading either raises); when it is
    analysed, [objectiveRate] is [null] exactly when no
    [ELITE_MONSTER_KILL] event of the timeline has the subject or a
    teammate as its killer; and whenever it is not [null] it is a
    percentage with one decimal between 0 and 100. *)
Theorem objectiveRate_null_or_percentage (md tl name team : value) :
  let r := computeAdvancedStatsForMatch md tl name team in
  (timelineAnalysis md tl name team = None → objectiveRate r = None)
  ∧ (∀ s a, timelineAnalysis md tl name team = Some (s, a) →
       (objectiveRate r = None
        ↔ ∀ e, e ∈ allEvents a →
               strict_eq (optget e "type") (VStr "ELITE_MONSTER_KILL") = true →
               includes (myTeamPIds a ++ [myPId s]) (optget e "killerId") = false))
  ∧ (∀ d, objectiveRate r = Some d → ∃ m, d = DFixed m 1 ∧ 0 ≤ m ≤ 1000).
Proof.
  intros r. unfold r. split; [|split].
  - intros T. by destruct (run_not_analysed _ _ _ _ T) as (_ & _ & ->).
  - intros s a T. destruct (run_analysed _ _ _ _ _ _ T) as (_ & _ & ->).
    rewrite <- teamObjEvents_nil. unfold objectiveRateOf.
    by destruct (teamObjEvents s a).
  - destruct (timelineAnalysis md tl name team) as [[s a]|] eqn:T.
    + destruct (run_analysed _ _ _ _ _ _ T) as (_ & _ & ->).
      unfold objectiveRateOf.
      destruct (teamObjEvents s a) as [|e es] eqn:E; cbn [length Nat.ltb Nat.leb].
      * intros d [=].
      * intros d [= <-]. apply toFixed_percentage; [|cbn; lia].
        pose proof (aliveCount_le s a) as H. by rewrite E in H.
    + destruct (run_not_analysed _ _ _ _ T) as (_ & _ & ->). intros d [=].
Qed.

Lemma truthy_optget v k : truthy (optget v k) = true → truthy v = true.
Proof.
  destruct v as [| |b|n| |str|l|props]; cbn; try done.
  destruct str; [|done]. cbn. destruct (String.eqb k "length"); [done|].
  cbn. by destruct (key_index k).
Qed.

Lemma coords_truthy pos xy : coords pos = Some xy → truthy pos = true.
Proof. by destruct pos as [| |b|n| |str|l|props]. Qed.

Lemma coords_within a b x y ax ay :
  coords a = Some (x, y) → coords b = Some (ax, ay) →
  (x - ax) ^ 2 + (y - ay) ^ 2 ≤ 1500 ^ 2 →
  within a b 1500 = true.
Proof.
  unfold coords, within, js_sub. intros Ha Hb Hd.
  destruct (to_num (optget a "x")) as [x'|]; [|done].
  destruct (to_num (optget a "y")) as [y'|]; [|done].
  destruct (to_num (optget b "x")) as [ax'|]; [|done].
  destruct (to_num (optget b "y")) as [ay'|]; [|done].
  cbn in *. injection Ha as -> ->. injection Hb as -> ->.
  apply Z.leb_le. lia.
Qed.

(** X24. For every match whose timeline is analysed, [isolatedDeaths] is
    the number of the subject's death events that pass the test of the
    death loop, and a death event with a recorded position that has a
    teammate within 1500 map units (Euclidean) of it in the frame the
    source looks into, [frames[min(floor(timestamp / 60000),
    frames.length - 1)]], does not pass it: it is never counted. *)
Theorem isolatedDeaths_excludes_death_near_ally (md tl name team : value)
    (s : Subject) (a : Analysis) :
  timelineAnalysis md tl name team = Some (s, a) →
  isolatedDeaths (computeAdvancedStatsForMatch md tl name team)
  = VNum (Z.of_nat (length (filter (fun d => isolatedDeath a d = true) (myDeaths a))))
  ∧ ∀ death ally x y ax ay,
      death ∈ myDeaths a →
      ally ∈ myTeamPIds a →
      coords (optget death "position") = Some (x, y) →
      coords (positionIn (nearFrame (frameList a) (optget death "timestamp")) ally)
      = Some (ax, ay) →
      (x - ax) ^ 2 + (y - ay) ^ 2 ≤ 1500 ^ 2 →
      isolatedDeath a death = false
      ∧ death ∉ filter (fun d => isolatedDeath a d = true) (myDeaths a).
Proof.
  intros T. split; [by destruct (run_analysed _ _ _ _ _ _ T) as (_ & -> & _)|].
  intros death ally x y ax ay _ Hally Hpos Hally_pos Hdist.
  assert (isolatedDeath a death = false) as Hiso.
  { unfold isolatedDeath. rewrite (coords_truthy _ _ Hpos). cbn [negb].
    unfold positionIn in Hally_pos.
    pose proof (coords_truthy _ _ Hally_pos) as Htm_pos.
    pose proof (truthy_optget _ _ Htm_pos) as Htm.
    pose proof (truthy_optget _ _ Htm) as Hpf.
    pose proof (truthy_optget _ _ Hpf) as Hnear.
    rewrite Hnear, Hpf. cbn [negb orb].
    replace (existsb _ (myTeamPIds a)) with true; [done|].
    symmetry. apply existsb_exists. exists ally.
    split; [by apply list_elem_of_In|].
    unfold teammateNear. rewrite Htm, Htm_pos.
    cbn [andb]. by eapply coords_within. }
  split; [done|]. intros [Hin _]%list_elem_of_filter. congruence.
Qed.

(** *** Swapping the subject and the lane opponent *)

Lemma resolveSubject_spec md name team s :
  resolveSubject md name team = Next s →
  truthy (me s) = true ∧ myPId s = pidOf (participants s) (meIdx s) (me s).
Proof.
  unfold Stats.resolveSubject.
  destruct (parse_if_string JSON_parse md) as [info|]; cbn; [|done].
  destruct (get info "info") as [inner|]; cbn; [|done].
  destruct (if truthy inner then _ else _) as [ps|]; cbn; [|done].
  destruct (truthy ps); cbn; [|done].
  destruct (as_array ps) as [l|]; cbn; [|done].
  destruct (find_from _ 0 l) as [[[i p]|]|]; cbn; [|done..].
  destruct (truthy p) eqn:E; cbn; [|done].
  by intros [= <-].
Qed.

Lemma js_sub_swap a b : js_sub b a = negated (js_sub a b).
Proof.
  unfold js_sub. destruct (to_num a), (to_num b); cbn; try done.
  f_equal. lia.
Qed.

Lemma run_lanes md tl name team s :
  resolveSubject md name team = Next s →
  let r := computeAdvancedStatsForMatch md tl name team in
  (csDiff15 r, goldDiff15 r, xpDiff15 r)
  = match timelineFrames tl with
    | Next frames =>
        match laneDiffs s frames with
        | Next d => laneFields d
        | _ => (VNull, VNull, VNull)
        end
    | _ => (VNull, VNull, VNull)
    end.
Proof.
  intros R. unfold Stats.computeAdvancedStatsForMatch, Stats.run. rewrite R.
  destruct (timelineFrames tl) as [frames| |]; [|done..].
  destruct (laneDiffs s frames) as [[[[cs gold] xp]|]| |]; [| |done..];
    by destruct (analyse s frames).
Qed.

Lemma laneDiffs_swap s s' frames j opp :
  truthy (me s) = true →
  myPId s = pidOf (participants s) (meIdx s) (me s) →
  findOpponent s = Some (Some (j, opp)) →
  truthy opp = true →
  s' = {| participants := participants s; me := opp; meIdx := j;
          myPId := pidOf (participants s) j opp |} →
  findOpponent s' = Some (Some (meIdx s, me s)) →
  ∃ d d', laneDiffs s frames = Next d ∧ laneDiffs s' frames = Next d'
          ∧ match d, d' with
            | Some (cs, gold, xp), Some (cs', gold', xp') =>
                cs' = negated cs ∧ gold' = negated gold ∧ xp' = negated xp
            | None, None => True
            | _, _ => False
            end.
Proof.
  intros Hme Hpid Hopp Htr -> Hopp'. unfold laneDiffs.
  rewrite Hopp, Hopp'. cbn [participants me meIdx myPId lift mbind flow_bind].
  rewrite Htr, Hme, <- Hpid.
  destruct (truthy (frame15Of frames) && _); [|by exists None, None].
  set (pf := optget (frame15Of frames) "participantFrames").
  destruct (truthy (optget_at pf (myPId s))) eqn:Mine;
    destruct (truthy (optget_at pf (pidOf (participants s) j opp))) eqn:Theirs.
  - eexists _, _. split; [reflexivity|]. split; [reflexivity|].
    unfold diffsOf. repeat split; apply js_sub_swap.
  - exists None, None. auto.
  - exists None, None. auto.
  - exists None, None. auto.
Qed.

(** C5, amended. When the lane opponent, looked up in turn by its own
    champion name and team id, is resolved as that participant and has the
    subject as its lane opponent, computing the derived stats for the
    opponent negates [csDiff15], [goldDiff15] and [xpDiff15] exactly (a
    field that is [null] for the subject is [null] for the opponent). *)
Theorem lane_diffs_negated_by_mutual_swap (md tl name team : value)
    (s : Subject) (j : nat) (opp : value) :
  resolveSubject md name team = Next s →
  findOpponent s = Some (Some (j, opp)) →
  truthy opp = true →
  let s' := {| participants := participants s; me := opp; meIdx := j;
               myPId := pidOf (participants s) j opp |} in
  resolveSubject md (optget opp "championName") (optget opp "teamId") = Next s' →
  findOpponent s' = Some (Some (meIdx s, me s)) →
  let r := computeAdvancedStatsForMatch md tl name team in
  let r' := computeAdvancedStatsForMatch md tl
              (optget opp "championName") (optget opp "teamId") in
  csDiff15 r' = negated (csDiff15 r)
  ∧ goldDiff15 r' = negated (goldDiff15 r)
  ∧ xpDiff15 r' = negated (xpDiff15 r).
Proof.
  intros R Hopp Htr s' R' Hopp' r r'.
  pose proof (run_lanes md tl name team s R) as L.
  pose proof (run_lanes md tl _ _ s' R') as L'.
  fold r in L. fold r' in L'. cbv zeta in L, L'.
  destruct (resolveSubject_spec _ _ _ _ R) as [Hme Hpid].
  destruct (timelineFrames tl) as [frames| |].
  - destruct (laneDiffs_swap s s' frames j opp Hme Hpid Hopp Htr eq_refl Hopp')
      as (d & d' & D & D' & Hd).
    rewrite D in L. rewrite D' in L'.
    destruct d as [[[cs gold] xp]|], d' as [[[cs' gold'] xp']|]; try done;
      cbn in L, L'; injection L as -> -> ->; injection L' as -> -> ->; done.
  - injection L as -> -> ->. by injection L' as -> -> ->.
  - injection L as -> -> ->. by injection L' as -> -> ->.
Qed.

(** *** Faults *)

(** C4, amended. For every input, malformed or missing payloads included,
    the computation returns a struct (the function is total).  Until the
    subject is resolved the struct is the initial one, in which every
    field is [null] except [firstBlood], which is 0; from then on
    [firstBlood] and the damage/gold ratio are those of the subject.  A
    fault caught by the function leaves [isolatedDeaths] and
    [objectiveRate] [null], and leaves the three lane differences [null]
    when it occurs before they are computed. *)
Theorem advancedStats_degrade_to_initial (md tl name team : value) :
  let r := computeAdvancedStatsForMatch md tl name team in
  (firstBlood r = VNum 0 ∨ firstBlood r = VNum 1)
  ∧ ((∀ s, resolveSubject md name team ≠ Next s) → r = initialResult)
  ∧ (∀ s, resolveSubject md name team = Next s →
       firstBlood r = firstBloodOf (me s)
       ∧ dmgGoldRatio r = dmgGoldRatioOf (me s))
  ∧ ((run md tl name team).1 = Caught →
       isolatedDeaths r = VNull ∧ objectiveRate r = None)
  ∧ (∀ s, resolveSubject md name team = Next s →
       timelineFrames tl = Throw
       ∨ (∃ frames, timelineFrames tl = Next frames ∧ laneDiffs s frames = Throw) →
       (run md tl name team).1 = Caught
       ∧ csDiff15 r = VNull ∧ goldDiff15 r = VNull ∧ xpDiff15 r = VNull).
Proof.
  intros r. unfold r, Stats.computeAdvancedStatsForMatch, Stats.run.
  destruct (resolveSubject md name team) as [s| |] eqn:R.
  - assert (firstBloodOf (me s) = VNum 0 ∨ firstBloodOf (me s) = VNum 1) as Hfb.
    { unfold firstBloodOf. destruct (truthy _); auto. }
    destruct (timelineFrames tl) as [frames| |] eqn:F.
    + destruct (laneDiffs s frames) as [[[[cs gold] xp]|]| |] eqn:L;
        destruct (analyse s frames) as [a| |] eqn:A; cbn;
        (split; [exact Hfb|]);
        (split; [intros H; by destruct (H s)|]);
        (split; [by intros s0 [= <-]|]);
        (split; [try done|]);
        intros s0 [= <-] [[=]|(frames0 & [= <-] & L0)];
        first [congruence | done].
    + cbn. split; [exact Hfb|].
      split; [intros H; by destruct (H s)|].
      split; [by intros s0 [= <-]|]. split; [done|].
      intros s0 _ [[=]|(frames0 & [=] & _)].
    + cbn. split; [exact Hfb|].
      split; [intros H; by destruct (H s)|].
      split; [by intros s0 [= <-]|]. split; [done|]. done.
  - cbn. split; [by left|]. split; [done|]. split; [done|]. split; [done|]. done.
  - cbn. split; [by left|]. split; [done|]. split; [done|]. split; [done|]. done.
Qed.

End WithParser.

End StatsFacts.

(** ** Badge evaluation *)

Module BadgeFacts.
Import JS Badges.

Section WithParser.

Variable JSON_parse : string → option value.

#[local] Abbreviation buildContext := (buildContext JSON_parse).
#[local] Abbreviation evaluateBadges := (evaluateBadges JSON_parse).

(** The loop of [evaluateBadges] appends, in catalog order, what each
    entry earns. *)
Lemma earned_loop ctx (catalog : list Badge) (earned : list Earned) :
  foldl (fun earned badge => earned ++ earnedBy ctx badge) earned catalog
  = earned ++ (catalog ≫= earnedBy ctx).
Proof.
  revert earned. induction catalog as [|b catalog IH]; intros earned; cbn.
  - by rewrite app_nil_r.
  - by rewrite IH, app_assoc.
Qed.

Lemma evaluateBadges_context catalog m ctx :
  buildContext m = Some (Some ctx) →
  evaluateBadges catalog m = Some (catalog ≫= earnedBy ctx).
Proof.
  intros B. unfold Badges.evaluateBadges. rewrite B. cbn.
  by rewrite earned_loop.
Qed.

(** What the loop earns is the name and description of every entry whose
    predicate returns a truthy value, in catalog order. *)
Lemma earned_subset ctx (catalog : list Badge) :
  catalog ≫= earnedBy ctx
  = map (fun b => {| earned_name := name b; earned_description := description b |})
      (filter (fun b => match evaluate b ctx with
                        | Some v => truthy v
                        | None => false
                        end = true) catalog).
Proof.
  induction catalog as [|b catalog IH]; [done|].
  rewrite bind_cons, IH, filter_cons. unfold earnedBy.
  destruct (evaluate b ctx) as [v|]; [destruct (truthy v)|];
    (case_decide as Hb; [|try done]); try done.
  all: by exfalso; apply Hb.
Qed.

(** C8. For every match record and every entry of the catalog whose
    predicate raises on the record's context, [evaluateBadges] returns (it
    does not raise) and what it returns is the earned subset of the other
    entries: the name and description of exactly those among them whose
    predicate returns a truthy value, in catalog order.  So every other
    entry whose predicate holds is in the result, the faulty entry is
    not earned, and the result is that of the catalog without it. *)
Theorem evaluateBadges_skips_raising_predicate
    (before after : list Badge) (faulty : Badge) (m : value) (ctx : Context) :
  buildContext m = Some (Some ctx) →
  evaluate faulty ctx = None →
  evaluateBadges (before ++ faulty :: after) m
  = Some (map (fun b => {| earned_name := name b;
                           earned_description := description b |})
            (filter (fun b => match evaluate b ctx with
                              | Some v => truthy v
                              | None => false
                              end = true) (before ++ after)))
  ∧ (∀ b v, b ∈ before ++ after → evaluate b ctx = Some v → truthy v = true →
       ∃ earned, evaluateBadges (before ++ faulty :: after) m = Some earned
                 ∧ {| earned_name := name b;
                      earned_description := description b |} ∈ earned)
  ∧ evaluateBadges (before ++ faulty :: after) m
    = evaluateBadges (before ++ after) m.
Proof.
  intros B F.
  assert (evaluateBadges (before ++ faulty :: after) m
          = Some (map (fun b => {| earned_name := name b;
                                   earned_description := description b |})
                    (filter (fun b => match evaluate b ctx with
                                      | Some v => truthy v
                                      | None => false
                                      end = true) (before ++ after)))) as Heq.
  { rewrite (evaluateBadges_context _ _ _ B), !earned_subset.
    rewrite !filter_app, filter_cons. case_decide as Hf; [|done].
    by rewrite F in Hf. }
  split; [exact Heq|]. split.
  - intros b v Hin Hv Ht. eexists. split; [exact Heq|].
    apply (list_elem_of_fmap_2
             (fun b => {| earned_name := name b;
                          earned_description := description b |})).
    apply list_elem_of_filter. split; [|done]. by rewrite Hv.
  - by rewrite Heq, (evaluateBadges_context _ _ _ B), earned_subset.
Qed.

Lemma find_from_none cb i (l : list value) :
  Forall (fun p => ∀ k, cb k p = Some false) l → find_from cb i l = Some None.
Proof.
  intros H. revert i. induction H as [|p l Hp _ IH]; intros i; [done|].
  cbn [find_from]. rewrite Hp. cbn. apply IH.
Qed.

(** C10. For every match record whose raw detail payload is absent
    (falsy), and for every match record whose participant list holds no
    participant with both the stored champion name and the stored team
    id, [evaluateBadges] returns the empty list: it does not raise, and no
    predicate of the catalog, whatever it is, has a say. *)
Theorem evaluateBadges_without_subject (catalog : list Badge) (m : value) :
  (∀ rawJson,
     get m "rawJson" = Some rawJson → truthy rawJson = false →
     evaluateBadges catalog m = Some [])
  ∧ (∀ rawJson raw info ps,
     get m "rawJson" = Some rawJson →
     parse_if_string JSON_parse rawJson = Some raw →
     get raw "info" = Some info →
     get info "participants" = Some (VArr ps) →
     Forall (fun p => ∀ k,
               is_subject (optget m "championName") (optget m "teamId") k p
               = Some false) ps →
     evaluateBadges catalog m = Some []).
Proof.
  split.
  - intros rawJson G T. unfold Badges.evaluateBadges, Badges.buildContext.
    rewrite G. cbn. by rewrite T.
  - intros rawJson raw info ps G P I Ps Hnone.
    unfold Badges.evaluateBadges, Badges.buildContext.
    rewrite G. cbn. destruct (truthy rawJson); [|done]. cbn.
    rewrite P. cbn. rewrite I. cbn. rewrite Ps. cbn.
    by rewrite (find_from_none _ 0 ps Hnone).
Qed.

End WithParser.

End BadgeFacts.

(** ** The rank cache *)

Module RankFacts.
Import JS Sync.

Section WithServices.

Variable getLeagueByPuuid : nat → string → option value.
Variable Date_now : nat → Z.

#[local] Abbreviation refreshRank := (refreshRank getLeagueByPuuid Date_now).
#[local] Abbreviation getPlayerRank := (getPlayerRank getLeagueByPuuid Date_now).

(** A rejected request makes the refresh fail and leaves the cache as it
    was. *)
Lemma refreshRank_rejected puuid w :
  getLeagueByPuuid (tick w) puuid = None →
  (refreshRank puuid w).1 = None.
Proof. intros H. unfold Sync.refreshRank. by rewrite H. Qed.

Lemma refreshRank_failed puuid w :
  (refreshRank puuid w).1 = None →
  player_ranks (refreshRank puuid w).2 = player_ranks w.
Proof.
  unfold Sync.refreshRank.
  destruct (getLeagueByPuuid (tick w) puuid) as [leagueData|]; [|done].
  by destruct (rankRow puuid leagueData _).
Qed.

(** C9. For every player id and [maxAge]: [getPlayerRank] returns the
    cached entry when it was fetched within [maxAge] (its [fetchedAt] is
    later than now minus [maxAge]); otherwise, when the refresh fails (the
    request is rejected, or its answer cannot be read), it returns the
    entry cached for the id whatever its age; and it returns [null] only
    when no entry is cached for the id at all. *)
Theorem getPlayerRank_cache_then_stale (puuid : string) (maxAge : Z) (w : World) :
  let cutoff := Date_now (tick w) - maxAge in
  (∀ e, player_ranks w !! puuid = Some e → fetchedAt e > cutoff →
        (getPlayerRank puuid maxAge w).1 = Some e)
  ∧ (freshRank puuid cutoff w = None →
     (refreshRank puuid (tock w)).1 = None →
     (getPlayerRank puuid maxAge w).1 = player_ranks w !! puuid)
  ∧ ((getPlayerRank puuid maxAge w).1 = None →
     player_ranks w !! puuid = None).
Proof.
  intros cutoff. unfold Sync.getPlayerRank. fold cutoff.
  change (freshRank puuid cutoff (tock w)) with (freshRank puuid cutoff w).
  split; [|split].
  - intros e He Hfresh. unfold freshRank. rewrite He. cbn.
    by rewrite (proj2 (Z.gtb_gt _ _)) by lia.
  - intros Hnone Hfail. rewrite Hnone.
    pose proof (refreshRank_failed puuid (tock w) Hfail) as Hsame.
    destruct (refreshRank puuid (tock w)) as [[row|] w2]; [done|].
    cbn in *. by rewrite Hsame.
  - destruct (freshRank puuid cutoff w) as [cached|] eqn:Hfresh; [done|].
    destruct (refreshRank puuid (tock w)) as [[row|] w2] eqn:Hr; [done|].
    cbn. intros Hres.
    pose proof (refreshRank_failed puuid (tock w)) as Hsame.
    rewrite Hr in Hsame. cbn in Hsame. by rewrite Hsame in Hres.
Qed.

End WithServices.

End RankFacts.

(** ** The properties on the sample payloads *)

Module OnSamples.
Import JS Examples.

Example crowdedMid_probe :
  let r := Stats.computeAdvancedStatsForMatch noParse crowdedMid crowdedMidTimeline
             (VStr "Zed") (VNum 100) in
  (Stats.csDiff15 r, Stats.goldDiff15 r, Stats.xpDiff15 r) = (VNum 20, VNum 200, VNum 30).
Proof. vm_compute. reflexivity. Qed.

Example twoDeaths_probe :
  Stats.computeAdvancedStatsForMatch noParse twoDeaths twoDeathsTimeline
    (VStr "Garen") (VNum 100)
  = Stats.mkAdvStats (VNum 0) (VNum 0) (VNum 0) (VNum 0) (Some (Stats.DFixed 1333 3))
      (VNum 1) (Some (Stats.DFixed 500 1)).
Proof. vm_compute. reflexivity. Qed.

(** C1 on [syncedWorld]: the listing only answers with the stored match. *)
Lemma syncMatches_idempotent_on_syncedWorld :
  (∀ r w',
     Sync.syncMatches sameListing unreachable unreachable noParse noText
       "p-garen" syncedWorld = (Sync.Resolved r, w') →
     Sync.newMatches r = 0%nat ∧ Sync.skipped r = Sync.total r
     ∧ Sync.matches w' = Sync.matches syncedWorld)
  ∧ ((∀ k start, sameListing k "p-garen" start None ≠ None) →
     ∃ r w',
       Sync.syncMatches sameListing unreachable unreachable noParse noText
         "p-garen" syncedWorld = (Sync.Resolved r, w')).
Proof.
  apply (SyncRun.syncMatches_idempotent sameListing unreachable unreachable
           noParse noText "p-garen" syncedWorld).
  intros id (k & start & queue & ids & [= <-] & Hin).
  apply list_elem_of_singleton in Hin as ->. vm_compute. reflexivity.
Defined.

(** C2 on three overlapping lists. *)
Lemma matchIds_of_overlapping :
  Sync.matchIdsOf overlapping = ["EUW1_9"; "EUW1_4"; "EUW1_5"; "EUW1_2"]
  ∧ NoDup (Sync.matchIdsOf overlapping)
  ∧ ∃ l1 l2 l3, Sync.matchIdsOf overlapping = l1 ++ "EUW1_4" :: l2 ++ "EUW1_2" :: l3.
Proof.
  destruct (SyncOrder.matchIds_deduplicated_special_first overlapping)
    as (Hnd & Hmem & _ & Hfirst).
  split; [vm_compute; reflexivity|]. split; [exact Hnd|].
  apply Hfirst.
  - apply list_elem_of_In. vm_compute. auto.
  - apply Hmem. right. right. apply list_elem_of_In. vm_compute. auto.
  - intros Hin. apply list_elem_of_In in Hin. vm_compute in Hin.
    destruct Hin as [Hin|[Hin|[]]]; discriminate Hin.
Defined.

(** C3 on an empty store and an empty listing: the object returned has no
    [newMatchIds]. *)
Theorem syncMatches_nothing_listed_omits_newMatchIds :
  (Sync.syncMatches emptyListing unreachable unreachable noParse noText
     "p-garen" emptyWorld).1
  = Sync.Resolved {| Sync.newMatches := 0; Sync.skipped := 0; Sync.total := 0;
                     Sync.newMatchIds := None |}.
Proof. vm_compute. reflexivity. Qed.

(** C4 as stated fails on a [null] match detail: the fault is caught and
    [firstBlood], which could not be computed, is 0 and not [null]. *)
Lemma advancedStats_fault_leaves_firstBlood_zero :
  (Stats.run noParse VNull VNull (VStr "Garen") (VNum 100)).1 = Stats.Caught
  ∧ Stats.firstBlood
      (Stats.computeAdvancedStatsForMatch noParse VNull VNull (VStr "Garen") (VNum 100))
    = VNum 0
  ∧ Stats.firstBlood
      (Stats.computeAdvancedStatsForMatch noParse VNull VNull (VStr "Garen") (VNum 100))
    ≠ VNull.
Proof. split; [|split]; vm_compute; [reflexivity | reflexivity | discriminate]. Qed.

(** C4, amended, on the participant list with a hole: the fault occurs in
    the lane block. *)
Lemma advancedStats_degrade_on_holedDetail :
  let r := Stats.computeAdvancedStatsForMatch noParse holedDetail twoDeathsTimeline
             (VStr "Garen") (VNum 100) in
  (Stats.run noParse holedDetail twoDeathsTimeline (VStr "Garen") (VNum 100)).1
  = Stats.Caught
  ∧ Stats.csDiff15 r = VNull ∧ Stats.goldDiff15 r = VNull ∧ Stats.xpDiff15 r = VNull.
Proof.
  destruct (StatsFacts.advancedStats_degrade_to_initial noParse holedDetail
              twoDeathsTimeline (VStr "Garen") (VNum 100))
    as (_ & _ & _ & _ & H).
  eapply H.
  - vm_compute. reflexivity.
  - right. eexists. split; vm_compute; reflexivity.
Defined.

(** C5 as stated fails on [crowdedMid]: Lux is the lane opponent of Zed,
    whose lane differences are 20, 200 and 30; those of Lux, whose own lane
    opponent is Ahri, are 20, 200 and 15. *)
Lemma lane_swap_not_negated_in_crowdedMid :
  (∃ s, Stats.resolveSubject noParse crowdedMid (VStr "Zed") (VNum 100) = Stats.Next s
        ∧ Stats.findOpponent s = Some (Some (2%nat, lux)))
  ∧ Stats.csDiff15
      (Stats.computeAdvancedStatsForMatch noParse crowdedMid crowdedMidTimeline
         (VStr "Zed") (VNum 100)) = VNum 20
  ∧ Stats.csDiff15
      (Stats.computeAdvancedStatsForMatch noParse crowdedMid crowdedMidTimeline
         (optget lux "championName") (optget lux "teamId")) = VNum 20
  ∧ Stats.csDiff15
      (Stats.computeAdvancedStatsForMatch noParse crowdedMid crowdedMidTimeline
         (optget lux "championName") (optget lux "teamId"))
    ≠ Stats.negated
        (Stats.csDiff15
           (Stats.computeAdvancedStatsForMatch noParse crowdedMid crowdedMidTimeline
              (VStr "Zed") (VNum 100))).
Proof.
  split; [eexists; split; vm_compute; reflexivity|].
  split; [vm_compute; reflexivity|]. split; [vm_compute; reflexivity|].
  vm_compute. discriminate.
Qed.

(** C5, amended, on [crowdedMid]: Ahri and Lux are each other's lane
    opponent. *)
Lemma lane_diffs_negated_for_ahri_and_lux :
  let r := Stats.computeAdvancedStatsForMatch noParse crowdedMid crowdedMidTimeline
             (VStr "Ahri") (VNum 100) in
  let r' := Stats.computeAdvancedStatsForMatch noParse crowdedMid crowdedMidTimeline
              (optget lux "championName") (optget lux "teamId") in
  Stats.csDiff15 r = VNum (-20)
  ∧ Stats.csDiff15 r' = Stats.negated (Stats.csDiff15 r)
  ∧ Stats.goldDiff15 r' = Stats.negated (Stats.goldDiff15 r)
  ∧ Stats.xpDiff15 r' = Stats.negated (Stats.xpDiff15 r).
Proof.
  split; [vm_compute; reflexivity|].
  eapply (StatsFacts.lane_diffs_negated_by_mutual_swap noParse crowdedMid
            crowdedMidTimeline (VStr "Ahri") (VNum 100) _ 2%nat lux).
  - vm_compute. reflexivity.
  - vm_compute. reflexivity.
  - vm_compute. reflexivity.
  - vm_compute. reflexivity.
  - vm_compute. reflexivity.
Defined.

(** C6 fails on a death at 0:59.  Of the three frames the one nearest to
    the death is the frame of 1:00, as [getNearestFrame] of the same file
    finds it, and there Sona, an ally, stands 100 units from the death.
    The death loop looks into [frames[floor(59000 / 60000)]], the frame of
    0:00, where Sona is far away, and counts the death as isolated. *)
Theorem isolatedDeaths_counts_death_near_ally_in_nearest_frame :
  let frames := [Scenarios.openingFrame; Scenarios.minuteFrame;
                 Scenarios.closingFrame] in
  let death := Scenarios.lateDeath in
  let a := Scenarios.lateDeathAnalysis.2 in
  Stats.timelineAnalysis noParse twoDeaths Scenarios.lateDeathTimeline
    (VStr "Garen") (VNum 100) = Some Scenarios.lateDeathAnalysis
  ∧ Stats.frameList a = frames
  ∧ death ∈ Stats.myDeaths a
  ∧ VNum 2 ∈ Stats.myTeamPIds a
  ∧ BadgeRules.getNearestFrame frames (optget death "timestamp")
    = Some Scenarios.minuteFrame
  ∧ Stats.coords (optget death "position") = Some (1000, 1000)
  ∧ Stats.coords (Stats.positionIn Scenarios.minuteFrame (VNum 2))
    = Some (1100, 1000)
  ∧ Stats.within (optget death "position")
      (Stats.positionIn Scenarios.minuteFrame (VNum 2)) 1500 = true
  ∧ Stats.nearFrame frames (optget death "timestamp") = Scenarios.openingFrame
  ∧ Stats.isolatedDeath a death = true
  ∧ Stats.isolatedDeaths
      (Stats.computeAdvancedStatsForMatch noParse twoDeaths
         Scenarios.lateDeathTimeline (VStr "Garen") (VNum 100)) = VNum 1.
Proof.
  cbv zeta. split; [vm_compute; reflexivity|]. split; [vm_compute; reflexivity|].
  split; [apply list_elem_of_In; vm_compute; auto|].
  split; [apply list_elem_of_In; vm_compute; auto|].
  repeat split; vm_compute; reflexivity.
Qed.

(** C7 as stated fails in two ways.  The detail of EUW1_2 records two
    dragons for Garen's team, and the row a run without timeline stores
    for it says so, yet [objectiveRate] is [null]; and an elite monster
    credited to Garen's team by Sona's assist, with no participant as
    killer, leaves [objectiveRate] [null] as well. *)
Lemma objectiveRate_null_although_team_secured :
  (∃ team, find_from (Sync.team_is (VObj [("teamId", VNum 100)])) 0
             (default [] (as_array
                (optget (optget Scenarios.garenDetail "info") "teams")))
           = Some (Some team)
           ∧ Sync.objectiveKills (optget team.2 "objectives") "dragon" = VNum 2)
  ∧ Sync.column (default ∅ (Sync.matches Scenarios.untimedWorld !! "EUW1_2"))
      "teamDragons" = Sync.SInt 2
  ∧ Stats.objectiveRate
      (Stats.computeAdvancedStatsForMatch Scenarios.parseDetail
         Scenarios.garenDetail VNull (VStr "Garen") (VNum 100)) = None
  ∧ Sync.column (default ∅ (Sync.matches Scenarios.untimedWorld !! "EUW1_2"))
      "objectiveRate" = Sync.SNull
  ∧ Stats.timelineAnalysis noParse twoDeaths Scenarios.assistedTimeline
      (VStr "Garen") (VNum 100) = Some Scenarios.assistedAnalysis
  ∧ Stats.creditedToTeam Scenarios.assistedAnalysis.1 Scenarios.assistedAnalysis.2
    = [Scenarios.assistedKill]
  ∧ Stats.objectiveRate
      (Stats.computeAdvancedStatsForMatch noParse twoDeaths
         Scenarios.assistedTimeline (VStr "Garen") (VNum 100)) = None.
Proof.
  split; [eexists; split; vm_compute; reflexivity|].
  repeat split; vm_compute; reflexivity.
Qed.

(** C7, amended, on [twoDeaths]: two elite monsters killed by Garen's
    team, Garen alive at one of them. *)
Lemma objectiveRate_of_twoDeaths :
  (∃ e, e ∈ Stats.allEvents twoDeathsAnalysis.2
        ∧ strict_eq (optget e "type") (VStr "ELITE_MONSTER_KILL") = true
        ∧ includes (Stats.myTeamPIds twoDeathsAnalysis.2
                    ++ [Stats.myPId twoDeathsAnalysis.1])
                   (optget e "killerId") = true)
  ∧ ∃ m, Stats.objectiveRate
           (Stats.computeAdvancedStatsForMatch noParse twoDeaths twoDeathsTimeline
              (VStr "Garen") (VNum 100)) = Some (Stats.DFixed m 1)
         ∧ 0 ≤ m ≤ 1000.
Proof.
  destruct (StatsFacts.objectiveRate_null_or_percentage noParse twoDeaths
              twoDeathsTimeline (VStr "Garen") (VNum 100))
    as (_ & Hnull & Hrange).
  split.
  - exists (monsterKill 1 5000). split; [apply list_elem_of_In; vm_compute; auto|].
    split; vm_compute; reflexivity.
  - destruct (Hrange (Stats.DFixed 500 1)) as (m & Hm & Hb).
    { vm_compute. reflexivity. }
    exists m. split; [|exact Hb]. rewrite <- Hm. vm_compute. reflexivity.
Defined.

(** C8 on [storedMatch]: "The Harrowing Mist" raises on the malformed kill
    event; of the other three entries "King of the Docks" is earned, and
    it is what [evaluateBadges] returns. *)
Lemma evaluateBadges_on_malformed_kill :
  Badges.evaluate Badges.theHarrowingMist storedContext = None
  ∧ Badges.evaluateBadges noParse
      ([Badges.davidVsGoliath; Badges.theBloodCrowned; Badges.kingOfTheDocks]
       ++ Badges.theHarrowingMist :: []) storedMatch
    = Some [ {| Badges.earned_name := Badges.name Badges.kingOfTheDocks;
                Badges.earned_description :=
                  Badges.description Badges.kingOfTheDocks |} ].
Proof.
  split; [vm_compute; reflexivity|].
  destruct (BadgeFacts.evaluateBadges_skips_raising_predicate noParse
              [Badges.davidVsGoliath; Badges.theBloodCrowned; Badges.kingOfTheDocks]
              [] Badges.theHarrowingMist storedMatch storedContext)
    as (Heq & _ & _).
  - vm_compute. reflexivity.
  - vm_compute. reflexivity.
  - rewrite Heq. vm_compute. reflexivity.
Defined.

Example evaluateBadges_on_storedMatch :
  Badges.evaluateBadges noParse Badges.BADGES_excerpt storedMatch
  = Some [ {| Badges.earned_name := "King of the Docks";
              Badges.earned_description := "You finished with the highest gold count in the lobby. Everyone else is just a stowaway." |} ].
Proof. vm_compute. reflexivity. Qed.

(** C9 on [rankedWorld]: the entry is a day too old, the request is
    rejected, the old entry is returned. *)
Lemma getPlayerRank_returns_staleEntry :
  (Sync.getPlayerRank unreachable frozenClock "p-garen" Sync.RANK_CACHE_TTL_MS
     rankedWorld).1 = Some staleEntry
  ∧ (Sync.getPlayerRank unreachable frozenClock "p-garen" 100000000
       rankedWorld).1 = Some staleEntry.
Proof.
  destruct (RankFacts.getPlayerRank_cache_then_stale unreachable frozenClock
              "p-garen" Sync.RANK_CACHE_TTL_MS rankedWorld) as (_ & Hstale & _).
  destruct (RankFacts.getPlayerRank_cache_then_stale unreachable frozenClock
              "p-garen" 100000000 rankedWorld) as (Hfresh & _ & _).
  split.
  - rewrite Hstale; vm_compute; reflexivity.
  - apply Hfresh; vm_compute; reflexivity.
Defined.

(** C10 on a record without detail and on a record stored for a champion
    that did not play the match. *)
Lemma evaluateBadges_of_bare_and_stranger :
  Badges.evaluateBadges noParse Badges.BADGES_excerpt bareMatch = Some []
  ∧ Badges.evaluateBadges noParse Badges.BADGES_excerpt strangerMatch = Some [].
Proof.
  split.
  - eapply (proj1 (BadgeFacts.evaluateBadges_without_subject noParse
                     Badges.BADGES_excerpt bareMatch)); vm_compute; reflexivity.
  - eapply (proj2 (BadgeFacts.evaluateBadges_without_subject noParse
                     Badges.BADGES_excerpt strangerMatch)).
    + vm_compute. reflexivity.
    + vm_compute. reflexivity.
    + vm_compute. reflexivity.
    + vm_compute. reflexivity.
    + repeat constructor.
Defined.

End OnSamples.

(** ** What a run of [syncMatches] does to the store and the counters *)

Module SyncInvariants.
Import JS Sync.

Section WithServices.

Variable getMatchIds : nat → string → Z → option Z → option (list string).
Variable getMatchData : nat → string → option value.
Variable getMatchTimeline : nat → string → option value.
Variable JSON_parse : string → option value.
Variable JSON_stringify : value → string.

#[local] Abbreviation storeMatch := (storeMatch JSON_parse JSON_stringify).
#[local] Abbreviation processMatch :=
  (processMatch getMatchData getMatchTimeline JSON_parse JSON_stringify).
#[local] Abbreviation processBatch :=
  (processBatch getMatchData getMatchTimeline JSON_parse JSON_stringify).
#[local] Abbreviation syncMatches :=
  (syncMatches getMatchIds getMatchData getMatchTimeline JSON_parse JSON_stringify).
#[local] Abbreviation discover := (discover getMatchIds).
#[local] Abbreviation listed := (listed getMatchIds).
#[local] Abbreviation unit :=
  (fun puuid (st : Counters * World) (id : string) => (processMatch puuid id st).2).

(** A unit writes at most the row of its own id, as a new row when there
    was none and over the old one otherwise. *)
Lemma storeMatch_effect puuid id row data timelineData w r w' :
  storeMatch puuid id row data timelineData w = Some (r, w') →
  tick w' = tick w ∧ player_ranks w' = player_ranks w
  ∧ ((r = UNone ∧ w' = w)
     ∨ ∃ written, matches w' = <[id := written]> (matches w)
                  ∧ (r = UNew ∧ row = None ∨ r = UUpdated ∧ is_Some row)).
Proof.
  unfold Sync.storeMatch. intros H.
  destruct (get data "info") as [info|]; cbn in H; [|done].
  destruct (get info "participants") as [ps|]; cbn in H; [|done].
  destruct (as_array ps) as [l|]; cbn in H; [|done].
  destruct (find_from _ 0 l) as [[[i me]|]|]; cbn in H; [| |done].
  - destruct (truthy me); cbn in H.
    + destruct (get info "teams" ≫= as_array) as [teams|]; cbn in H; [|done].
      destruct (find_from (team_is me) 0 teams) as [myTeam|]; cbn in H; [|done].
      destruct (find_from (team_is_not me) 0 teams) as [enemyTeam|];
        cbn in H; [|done].
      destruct (filter_from (Badges.on_my_team me i) 0 l) as [mates|];
        cbn in H; [|done].
      destruct row as [old|];
        match type of H with
        | Some (_, setMatches (<[id := ?x]> _) _) = _ => set (written := x) in H
        end;
        clearbody written; injection H as <- <-;
        (split; [reflexivity|]); (split; [reflexivity|]); right;
        exists written; (split; [reflexivity|]).
      * right. split; [reflexivity|]. by eexists.
      * left. by split.
    + injection H as <- <-. split; [done|]. split; [done|]. by left.
  - injection H as <- <-. split; [done|]. split; [done|]. by left.
Qed.

Lemma processMatch_effect puuid id c w r c' w' :
  processMatch puuid id (c, w) = (r, (c', w')) →
  player_ranks w' = player_ranks w
  ∧ c_processed c' = c_processed c
  ∧ (∀ id', id' ≠ id → matches w' !! id' = matches w !! id')
  ∧ (is_Some (matches w !! id) → is_Some (matches w' !! id))
  ∧ ((c_newMatchIds c' = c_newMatchIds c ++ [id]
      ∧ c_newMatches c' = S (c_newMatches c)
      ∧ c_skipped c' = c_skipped c
      ∧ matches w !! id = None ∧ is_Some (matches w' !! id))
     ∨ (c_newMatchIds c' = c_newMatchIds c
        ∧ c_newMatches c' = c_newMatches c
        ∧ (c_skipped c ≤ c_skipped c' ≤ S (c_skipped c))%nat)).
Proof.
  unfold Sync.processMatch.
  destruct (needsFetch (matches w !! id)).
  - destruct (getMatchData (tick w) id) as [data|].
    + destruct (storeMatch puuid id (matches w !! id) data
                  (default VNull (getMatchTimeline (tick (tock w)) id))
                  (tock (tock w))) as [[r0 w3]|] eqn:S.
      * apply storeMatch_effect in S as (_ & Hr & Hcase).
        assert (r0 = UNew ∧ matches w !! id = None ∧ is_Some (matches w3 !! id)
                ∨ r0 ≠ UNew) as Hnew.
        { destruct Hcase as [[-> _]|(written & Hm & [[-> Hrow]|[-> _]])];
            [by right| |by right].
          left. split; [done|]. split; [done|]. rewrite Hm.
          rewrite lookup_insert_eq. by eexists. }
        assert ((∀ id', id' ≠ id → matches w3 !! id' = matches w !! id')
                ∧ (is_Some (matches w !! id) → is_Some (matches w3 !! id)))
          as [Hother Hkeep].
        { destruct Hcase as [[_ ->]|(written & Hm & _)]; [done|].
          rewrite Hm. split.
          - intros id' Hne. by rewrite lookup_insert_ne.
          - intros _. rewrite lookup_insert_eq. by eexists. }
        destruct Hnew as [(-> & Hnone & Hsome)|Hne].
        -- intros [= <- <- <-]. cbn. repeat split; try done. by left.
        -- destruct r0; try done; intros [= <- <- <-];
             (repeat split; try done); right; (repeat split; try done); lia.
      * intros [= <- <- <-]. cbn. repeat split; try done. right.
        repeat split; try done; lia.
    + intros [= <- <- <-]. cbn. repeat split; try done. right.
      repeat split; try done; lia.
  - intros [= <- <- <-]. cbn. repeat split; try done. right.
    repeat split; try done; lia.
Qed.

(** The units of a list of distinct ids, one after the other. *)
Lemma units_effect puuid (l : list string) :
  NoDup l →
  ∀ c w c' w',
    foldl (unit puuid) (c, w) l = (c', w') →
    player_ranks w' = player_ranks w
    ∧ c_processed c' = c_processed c
    ∧ (∀ id', id' ∉ l → matches w' !! id' = matches w !! id')
    ∧ (∀ id', is_Some (matches w !! id') → is_Some (matches w' !! id'))
    ∧ ∃ new,
        c_newMatchIds c' = c_newMatchIds c ++ new
        ∧ c_newMatches c' = (c_newMatches c + length new)%nat
        ∧ NoDup new
        ∧ (∀ id, id ∈ new →
             id ∈ l ∧ matches w !! id = None ∧ is_Some (matches w' !! id))
        ∧ (c_skipped c ≤ c_skipped c')%nat
        ∧ (c_skipped c' + length new ≤ c_skipped c + length l)%nat.
Proof.
  induction 1 as [|id l Hid Hnd IH]; intros c w c' w'; cbn [foldl].
  - intros [= <- <-]. do 4 (split; [done|]).
    exists []. rewrite app_nil_r. cbn. split; [done|]. split; [lia|].
    split; [constructor|]. split; [by intros x ?%elem_of_nil | lia].
  - destruct (processMatch puuid id (c, w)) as [r [c1 w1]] eqn:P. cbn [snd].
    intros F. apply processMatch_effect in P as (R1 & P1 & O1 & K1 & Hcase).
    apply IH in F as (R2 & P2 & O2 & K2 & new & N2 & C2 & ND2 & M2 & S2 & B2).
    assert (∀ id', is_Some (matches w !! id') → is_Some (matches w1 !! id')) as K1'.
    { intros id' Hs. destruct (decide (id' = id)) as [->|Hne]; [by apply K1|].
      by rewrite O1. }
    split; [congruence|]. split; [congruence|]. split; [|split].
    + intros id' Hn. apply not_elem_of_cons in Hn as [Hne Hn].
      rewrite O2 by done. by apply O1.
    + intros id' Hs. by apply K2, K1'.
    + assert (∀ x, x ∈ new → x ≠ id) as Hfresh.
      { intros x Hx ->. apply Hid. by apply M2. }
      assert (∀ x, x ∈ new →
                x ∈ id :: l ∧ matches w !! x = None ∧ is_Some (matches w' !! x))
        as Hnew.
      { intros x Hx. destruct (M2 x Hx) as (Hin & Hnone & Hsome).
        split; [by right|]. split; [|done]. rewrite <- O1; [done|by apply Hfresh]. }
      destruct Hcase as [(N1 & C1 & S1 & Hnone & Hsome)|(N1 & C1 & S1)].
      * exists (id :: new). rewrite N2, N1, <- app_assoc. split; [done|].
        split; [cbn; lia|]. split.
        { constructor; [|done]. intros Hin. by apply (Hfresh id Hin). }
        split.
        { intros x [->|Hx]%elem_of_cons; [|by apply Hnew].
          split; [by left|]. split; [done|]. by apply K2. }
        cbn. lia.
      * exists new. rewrite N2, N1. split; [done|]. split; [lia|].
        split; [done|]. split; [done|]. cbn. lia.
Qed.

Lemma processMatch_advance puuid id n c w :
  processMatch puuid id (advance n c, w)
  = ((processMatch puuid id (c, w)).1,
     (advance n (processMatch puuid id (c, w)).2.1,
      (processMatch puuid id (c, w)).2.2)).
Proof.
  unfold Sync.processMatch.
  destruct (needsFetch (matches w !! id)); [|done].
  destruct (getMatchData (tick w) id) as [data|]; [|done].
  destruct (Sync.storeMatch _ _ _ _ _ _ _ _) as [[[] w3]|]; done.
Qed.

Lemma units_advance puuid (l : list string) n c w :
  foldl (unit puuid) (advance n c, w) l
  = (advance n (foldl (unit puuid) (c, w) l).1, (foldl (unit puuid) (c, w) l).2).
Proof.
  revert c w. induction l as [|id l IH]; intros c w; cbn [foldl]; [done|].
  rewrite processMatch_advance. cbn [snd].
  destruct (processMatch puuid id (c, w)) as [r [c1 w1]]. cbn [fst snd].
  apply IH.
Qed.

Lemma advance_advance n m c : advance n (advance m c) = advance (m + n) c.
Proof. unfold advance. cbn. f_equal. lia. Qed.

(** The batches process the ids in order; batching only moves the
    [processed] counter. *)
Lemma batches_units puuid (l : list string) :
  (∀ c w, foldl (processBatch puuid) (c, w) (batches l)
          = (advance (length l) (foldl (unit puuid) (c, w) l).1,
             (foldl (unit puuid) (c, w) l).2))
  ∧ (∀ a c w, foldl (processBatch puuid) (c, w) (batches (a :: l))
              = (advance (S (length l)) (foldl (unit puuid) (c, w) (a :: l)).1,
                 (foldl (unit puuid) (c, w) (a :: l)).2)).
Proof.
  assert (∀ batch c w,
    processBatch puuid (c, w) batch
    = (advance (length batch) (foldl (unit puuid) (c, w) batch).1,
       (foldl (unit puuid) (c, w) batch).2)) as Hbatch.
  { intros batch c w. unfold Sync.processBatch.
    by destruct (foldl _ (c, w) batch). }
  induction l as [|b l [IH1 IH2]].
  - split.
    + intros [] w. cbn. unfold advance. cbn. by rewrite Nat.add_0_r.
    + intros a c w. cbn [batches foldl]. by rewrite Hbatch.
  - split; [apply IH2|].
    intros a c w. cbn [batches foldl]. rewrite Hbatch. cbn [foldl fst snd].
    destruct (unit puuid (unit puuid (c, w) a) b) as [c2 w2]. cbn [fst snd].
    rewrite IH1, units_advance. cbn [fst snd length].
    by rewrite advance_advance.
Qed.

(** Collecting the ids only moves the request counter. *)
Lemma fetchSpecialQueue_ticks puuid q n w :
  matches (fetchSpecialQueue getMatchIds puuid q n w).2 = matches w
  ∧ player_ranks (fetchSpecialQueue getMatchIds puuid q n w).2 = player_ranks w
  ∧ (tick w + (if n is O then 0 else 1)
     ≤ tick (fetchSpecialQueue getMatchIds puuid q n w).2 ≤ tick w + n)%nat.
Proof.
  revert w. induction n as [|n IH]; intros w; cbn [fetchSpecialQueue].
  - cbn. repeat split; lia.
  - destruct (getMatchIds (tick w) puuid RANKED_SEASON_START (Some q)).
    + cbn. repeat split; lia.
    + destruct (IH (tock w)) as (M & R & T). cbn in *.
      split; [done|]. split; [done|]. destruct n; lia.
Qed.

Lemma fetchSpecialQueues_ticks puuid qs w :
  matches (fetchSpecialQueues getMatchIds puuid qs w).2 = matches w
  ∧ player_ranks (fetchSpecialQueues getMatchIds puuid qs w).2 = player_ranks w
  ∧ (tick w + length qs
     ≤ tick (fetchSpecialQueues getMatchIds puuid qs w).2
     ≤ tick w + S MAX_RETRIES * length qs)%nat.
Proof.
  revert w. induction qs as [|q qs IH]; intros w; cbn [fetchSpecialQueues].
  - cbn. repeat split; lia.
  - pose proof (fetchSpecialQueue_ticks puuid q (S MAX_RETRIES) w) as (M1 & R1 & T1).
    destruct (fetchSpecialQueue getMatchIds puuid q (S MAX_RETRIES) w) as [l1 w1].
    pose proof (IH w1) as (M2 & R2 & T2).
    destruct (fetchSpecialQueues getMatchIds puuid qs w1) as [l2 w2].
    cbn [snd length] in *. split; [congruence|]. split; [congruence|].
    unfold MAX_RETRIES in *. lia.
Qed.

Lemma generalSync_ticks puuid w :
  matches (generalSync getMatchIds puuid w).2 = matches w
  ∧ player_ranks (generalSync getMatchIds puuid w).2 = player_ranks w
  ∧ (tick w + 1 ≤ tick (generalSync getMatchIds puuid w).2 ≤ tick w + 2)%nat.
Proof.
  unfold generalSync, backwardSync.
  assert (∀ start,
    let o := match getMatchIds (tick w) puuid start None with
             | Some all => (Resolved (all, @nil string), tock w)
             | None => (Rejected, tock w)
             end in
    matches o.2 = matches w ∧ player_ranks o.2 = player_ranks w
    ∧ (tick w + 1 ≤ tick o.2 ≤ tick w + 2)%nat) as Hfirst.
  { intros start. destruct (getMatchIds (tick w) puuid start None); cbn;
      repeat split; lia. }
  destruct (latestTime w) as [latest|]; [|apply Hfirst].
  destruct (negb (latest =? 0)); [|apply Hfirst].
  destruct (getMatchIds (tick w) puuid (latest / 1000 + 1) None);
    [|cbn; repeat split; lia].
  destruct (oldestTime (tock w)) as [oldest|]; [|cbn; repeat split; lia].
  destruct (negb (oldest =? 0) && _); [|cbn; repeat split; lia].
  destruct (getMatchIds (tick (tock w)) puuid RANKED_SEASON_START None);
    cbn; repeat split; lia.
Qed.

Lemma discover_store puuid w o w' :
  discover puuid w = (o, w') →
  matches w' = matches w ∧ player_ranks w' = player_ranks w.
Proof.
  unfold Sync.discover.
  pose proof (generalSync_ticks puuid w) as (M1 & R1 & _).
  destruct (generalSync getMatchIds puuid w) as [[[forward missing]|] w1].
  - pose proof (fetchSpecialQueues_ticks puuid SPECIAL_QUEUES w1) as (M2 & R2 & _).
    destruct (fetchSpecialQueues getMatchIds puuid SPECIAL_QUEUES w1)
      as [special w2].
    intros [= <- <-]. cbn [snd] in *. split; congruence.
  - intros [= <- <-]. done.
Qed.

(** X1. Collecting the ids of a run takes at most eleven listing requests
    (two general ones and three per special queue) and, when it succeeds,
    at least four; it leaves the store as it was. *)
Theorem discover_bounded_requests (puuid : string) (w : World)
    (o : outcome Discovery) (w' : World) :
  discover puuid w = (o, w') →
  matches w' = matches w ∧ player_ranks w' = player_ranks w
  ∧ (tick w' ≤ tick w + 11)%nat
  ∧ (o ≠ Rejected → tick w + 4 ≤ tick w')%nat.
Proof.
  unfold Sync.discover.
  pose proof (generalSync_ticks puuid w) as (M1 & R1 & T1).
  destruct (generalSync getMatchIds puuid w) as [[[forward missing]|] w1].
  - pose proof (fetchSpecialQueues_ticks puuid SPECIAL_QUEUES w1) as (M2 & R2 & T2).
    destruct (fetchSpecialQueues getMatchIds puuid SPECIAL_QUEUES w1)
      as [special w2].
    intros [= <- <-]. cbn [snd] in *. unfold MAX_RETRIES, SPECIAL_QUEUES in *.
    cbn [length] in *. split; [congruence|]. split; [congruence|]. lia.
  - intros [= <- <-]. cbn [snd] in *. split; [done|]. split; [done|].
    split; [lia|done].
Qed.

(** The two ways a run returns. *)
Lemma syncMatches_returns puuid w r w' :
  syncMatches puuid w = (Resolved r, w') →
  ∃ d w1, discover puuid w = (Resolved d, w1)
    ∧ ((matchIdsOf d = [] ∧ w' = w1
        ∧ r = {| newMatches := 0; skipped := 0; total := 0; newMatchIds := None |})
       ∨ ∃ c, foldl (unit puuid)
                ({| c_newMatches := 0; c_skipped := 0; c_processed := 0;
                    c_newMatchIds := [] |}, w1) (matchIdsOf d) = (c, w')
              ∧ matchIdsOf d ≠ []
              ∧ r = {| newMatches := c_newMatches c; skipped := c_skipped c;
                       total := length (matchIdsOf d);
                       newMatchIds := Some (c_newMatchIds c) |}).
Proof.
  unfold Sync.syncMatches.
  destruct (discover puuid w) as [[d|] w1] eqn:D; [|done].
  intros H. exists d, w1. split; [done|].
  destruct (matchIdsOf d) as [|id0 ids] eqn:Ids.
  - injection H as <- <-. by left.
  - right. rewrite (proj1 (batches_units puuid (id0 :: ids))) in H.
    destruct (foldl (unit puuid) _ (id0 :: ids)) as [c w2].
    injection H as <- <-. exists c. done.
Qed.

(** X2. The ids a run reports in [newMatchIds] are exactly its new
    matches: as many as [newMatches] counts, each once, each listed by the
    API, absent from the store before the run and stored after it; and the
    new and the skipped matches together are no more than [total]. *)
Theorem syncMatches_newMatchIds_are_inserted (puuid : string) (w : World)
    (r : SyncResult) (w' : World) (ids : list string) :
  syncMatches puuid w = (Resolved r, w') →
  newMatchIds r = Some ids →
  newMatches r = length ids
  ∧ NoDup ids
  ∧ (∀ id, id ∈ ids →
       listed puuid id ∧ matches w !! id = None ∧ is_Some (matches w' !! id))
  ∧ (newMatches r + skipped r ≤ total r)%nat.
Proof.
  intros H Hids.
  destruct (syncMatches_returns _ _ _ _ H)
    as (d & w1 & D & [(_ & _ & ->)|(c & F & _ & ->)]); [done|].
  injection Hids as <-.
  apply (SyncRun.discover_spec getMatchIds) in D as [M L].
  apply units_effect in F as (_ & _ & _ & _ & new & N & C & ND & Hnew & S1 & S2);
    [|apply SyncOrder.uniqueIds_NoDup].
  cbn in *. subst new. split; [done|]. split; [done|]. split; [|lia].
  intros id Hid. destruct (Hnew id Hid) as (Hin & Hnone & Hsome).
  split; [by apply L|]. by rewrite <- M.
Qed.

(** X3. A run never removes a match from the store, never touches the
    rank cache, and leaves untouched every match whose id no listing
    request answers with, however the run ends. *)
Theorem syncMatches_keeps_store (puuid : string) (w : World)
    (o : outcome SyncResult) (w' : World) :
  syncMatches puuid w = (o, w') →
  player_ranks w' = player_ranks w
  ∧ (∀ id, is_Some (matches w !! id) → is_Some (matches w' !! id))
  ∧ (∀ id, ¬ listed puuid id → matches w' !! id = matches w !! id).
Proof.
  destruct o as [r|].
  - intros H.
    destruct (syncMatches_returns _ _ _ _ H)
      as (d & w1 & D & [(_ & -> & _)|(c & F & _ & _)]).
    + apply discover_store in D as (M & R).
      split; [done|]. split; intros id; by rewrite M.
    + pose proof (discover_store _ _ _ _ D) as (M & R).
      apply (SyncRun.discover_spec getMatchIds) in D as [_ L].
      apply units_effect in F as (R2 & _ & O & K & _);
        [|apply SyncOrder.uniqueIds_NoDup].
      split; [congruence|]. split.
      * intros id Hs. apply K. by rewrite M.
      * intros id Hn. rewrite O, M; [done|]. intros Hin. by apply Hn, L.
  - unfold Sync.syncMatches.
    destruct (discover puuid w) as [[d|] w1] eqn:D.
    + destruct (matchIdsOf d); [done|]. by destruct (foldl _ _ _).
    + intros [= <-]. apply discover_store in D as (M & R).
      split; [done|]. split; intros id; by rewrite M.
Qed.

(** X4. A match that is already stored is never counted as new, complete
    or not: when every listed id is in the store, a run reports no new
    match. *)
Theorem syncMatches_stored_is_never_new (puuid : string) (w : World)
    (r : SyncResult) (w' : World) :
  (∀ id, listed puuid id → is_Some (matches w !! id)) →
  syncMatches puuid w = (Resolved r, w') →
  newMatches r = 0%nat ∧ (∀ ids, newMatchIds r = Some ids → ids = []).
Proof.
  intros Hstored H.
  destruct (syncMatches_returns _ _ _ _ H)
    as (d & w1 & D & [(_ & _ & ->)|(c & F & _ & ->)]); [done|].
  apply (SyncRun.discover_spec getMatchIds) in D as [M L].
  apply units_effect in F as (_ & _ & _ & _ & new & N & C & _ & Hnew & _);
    [|apply SyncOrder.uniqueIds_NoDup].
  cbn in *. subst new.
  assert (c_newMatchIds c = []) as Hnil.
  { destruct (c_newMatchIds c) as [|id rest]; [done|]. exfalso.
    destruct (Hnew id) as (Hin & Hnone & _); [by left|].
    destruct (Hstored id (L id Hin)) as [row Hrow]. rewrite M in Hnone. congruence. }
  rewrite Hnil in C. split; [done|]. intros ids [= <-]. done.
Qed.

Lemma processMatch_down puuid id c w r c' w' :
  (∀ k id', getMatchData k id' = None) →
  processMatch puuid id (c, w) = (r, (c', w')) →
  matches w' = matches w ∧ player_ranks w' = player_ranks w
  ∧ c_newMatches c' = c_newMatches c
  ∧ c_newMatchIds c' = c_newMatchIds c
  ∧ (c_skipped c ≤ c_skipped c' ≤ S (c_skipped c))%nat.
Proof.
  intros Hdown. unfold Sync.processMatch.
  destruct (needsFetch (matches w !! id)).
  - rewrite Hdown. intros [= <- <- <-]. cbn. repeat split; lia.
  - intros [= <- <- <-]. cbn. repeat split; lia.
Qed.

Lemma units_down puuid (l : list string) :
  (∀ k id, getMatchData k id = None) →
  ∀ c w c' w',
    foldl (unit puuid) (c, w) l = (c', w') →
    matches w' = matches w ∧ player_ranks w' = player_ranks w
    ∧ c_newMatches c' = c_newMatches c
    ∧ c_newMatchIds c' = c_newMatchIds c
    ∧ (c_skipped c' ≤ c_skipped c + length l)%nat.
Proof.
  intros Hdown. induction l as [|id l IH]; intros c w c' w'; cbn [foldl].
  - intros [= <- <-]. cbn. repeat split; lia.
  - destruct (processMatch puuid id (c, w)) as [r [c1 w1]] eqn:P. cbn [snd].
    intros F. apply (processMatch_down _ _ _ _ _ _ _ Hdown) in P
      as (M1 & R1 & N1 & I1 & S1).
    apply IH in F as (M2 & R2 & N2 & I2 & S2). cbn [length].
    repeat split; try congruence. lia.
Qed.

(** X5. A match-detail service that is down costs requests and nothing
    else: when every [getMatchData] request is rejected, a run leaves
    every row of the store and the rank cache as they were, however it
    ends, and a run that resolves reports no new match and no more
    skipped matches than ids. *)
Theorem syncMatches_detail_service_down (puuid : string) (w : World)
    (o : outcome SyncResult) (w' : World) :
  (∀ k id, getMatchData k id = None) →
  syncMatches puuid w = (o, w') →
  matches w' = matches w
  ∧ player_ranks w' = player_ranks w
  ∧ ∀ r, o = Resolved r →
      newMatches r = 0%nat
      ∧ (∀ ids, newMatchIds r = Some ids → ids = [])
      ∧ (skipped r ≤ total r)%nat.
Proof.
  intros Hdown. destruct o as [r|].
  - intros H.
    destruct (syncMatches_returns _ _ _ _ H)
      as (d & w1 & D & [(_ & -> & ->)|(c & F & _ & ->)]).
    + apply discover_store in D as (M & R). split; [done|]. split; [done|].
      intros r [= <-]. cbn. split; [done|]. split; [done|lia].
    + apply discover_store in D as (M & R).
      apply (units_down _ _ Hdown) in F as (M2 & R2 & N2 & I2 & S2).
      cbn in N2, I2, S2. split; [congruence|]. split; [congruence|].
      intros r [= <-]. cbn. split; [done|]. split; [|lia].
      intros ids [= <-]. done.
  - unfold Sync.syncMatches.
    destruct (discover puuid w) as [[d|] w1] eqn:D.
    + destruct (matchIdsOf d); [done|]. by destruct (foldl _ _ _).
    + intros [= <-]. apply discover_store in D as (M & R).
      split; [done|]. split; [done|]. by intros r.
Qed.




End WithServices.

End SyncInvariants.

(** ** The maintenance passes *)

Module MaintenanceFacts.
Import JS Sync Maintenance.

Lemma insertNewest_perm x l : insertNewest x l ≡ₚ x :: l.
Proof.
  induction l as [|y l IH]; [done|]. cbn [insertNewest].
  destruct (notOlder _ _); [done|]. rewrite IH. apply Permutation_swap.
Qed.

Lemma newestFirst_perm l : newestFirst l ≡ₚ l.
Proof.
  induction l as [|x l IH]; [done|]. cbn. by rewrite insertNewest_perm, IH.
Qed.

Lemma selectWhere_elem condition w id row :
  (id, row) ∈ selectWhere condition w
  ↔ matches w !! id = Some row ∧ condition row = true.
Proof.
  unfold selectWhere. rewrite newestFirst_perm, list_elem_of_filter.
  rewrite elem_of_map_to_list. cbn. tauto.
Qed.

Lemma selectWhere_ids condition w id :
  id ∈ (selectWhere condition w).*1
  ↔ ∃ row, matches w !! id = Some row ∧ condition row = true.
Proof.
  rewrite list_elem_of_fmap. split.
  - intros ([id' row] & -> & Hin). exists row. by apply selectWhere_elem.
  - intros (row & Hrow). exists (id, row). split; [done|].
    by apply selectWhere_elem.
Qed.

Lemma selectWhere_NoDup condition w : NoDup (selectWhere condition w).*1.
Proof.
  unfold selectWhere. rewrite newestFirst_perm.
  eapply sublist_NoDup; [apply (NoDup_fst_map_to_list (matches w))|].
  apply fmap_sublist, sublist_filter.
Qed.

Lemma selectWhere_nil condition w :
  (∀ id row, matches w !! id = Some row → condition row = false) →
  selectWhere condition w = [].
Proof.
  intros H. destruct (selectWhere condition w) as [|[id row] l] eqn:E; [done|].
  assert ((id, row) ∈ selectWhere condition w) as Hin by (rewrite E; left).
  apply selectWhere_elem in Hin as [Hrow Hc]. rewrite (H _ _ Hrow) in Hc. done.
Qed.

Lemma storesAgreeOutside_refl cols m : storesAgreeOutside cols m m.
Proof. intros id. by destruct (m !! id); constructor. Qed.

Lemma storesAgreeOutside_trans cols m1 m2 m3 :
  storesAgreeOutside cols m1 m2 → storesAgreeOutside cols m2 m3 →
  storesAgreeOutside cols m1 m3.
Proof.
  intros H12 H23 id. specialize (H12 id). specialize (H23 id).
  destruct H12 as [r1 r2 H12|]; inversion H23 as [r2' r3 H23'|]; subst;
    constructor.
  intros c Hc. by rewrite H23', H12.
Qed.

Lemma storesAgreeOutside_alter cols f id m :
  (∀ row, agreeOutside cols row (f row)) →
  storesAgreeOutside cols m (alter f id m).
Proof.
  intros Hf id'. rewrite lookup_alter. case_decide as Hid.
  - subst id'. destruct (m !! id) as [row|]; constructor. apply Hf.
  - destruct (m !! id'); by constructor.
Qed.

Section WithServices.

Variable getMatchTimeline : nat → string → option value.
Variable JSON_parse : string → option value.
Variable JSON_stringify : value → string.

#[local] Abbreviation backfillTimeline := (backfillTimeline getMatchTimeline JSON_stringify).
#[local] Abbreviation backfillTimelines := (backfillTimelines getMatchTimeline JSON_stringify).
#[local] Abbreviation backfillStats := (backfillStats JSON_parse).
#[local] Abbreviation backfillAdvancedStats := (backfillAdvancedStats JSON_parse).
#[local] Abbreviation statsOfRow := (statsOfRow JSON_parse).

(** *** Timelines *)

Lemma backfillTimeline_loop (ids : list string) :
  ∀ updated failed w updated' failed' w',
    foldl backfillTimeline (updated, failed, w) ids = (updated', failed', w') →
    (updated' + failed' = updated + failed + length ids)%nat
    ∧ (updated ≤ updated')%nat ∧ (failed ≤ failed')%nat
    ∧ tick w' = (tick w + length ids)%nat
    ∧ player_ranks w' = player_ranks w
    ∧ storesAgreeOutside ["timelineJson"] (matches w) (matches w')
    ∧ (∀ id, id ∉ ids → matches w' !! id = matches w !! id).
Proof.
  induction ids as [|id ids IH]; intros updated failed w updated' failed' w';
    cbn [foldl].
  - intros [= <- <- <-]. cbn. repeat split; try lia.
    apply storesAgreeOutside_refl.
  - unfold Maintenance.backfillTimeline at 2.
    destruct (getMatchTimeline (tick w) id) as [timelineData|]; intros F;
      apply IH in F as (C & U & Fl & T & R & A & O); cbn [tick tock matches
        setMatches player_ranks length] in *.
    + split; [lia|]. split; [lia|]. split; [lia|]. split; [lia|].
      split; [done|]. split.
      * eapply storesAgreeOutside_trans; [|exact A].
        apply storesAgreeOutside_alter. intros row c Hc.
        apply lookup_insert_ne. intros <-. apply Hc. left.
      * intros id' Hn. apply not_elem_of_cons in Hn as [Hne Hn].
        rewrite O by done. by rewrite lookup_alter_ne.
    + split; [lia|]. split; [lia|]. split; [lia|]. split; [lia|].
      split; [done|]. split; [done|].
      intros id' Hn. apply not_elem_of_cons in Hn as [Hne Hn]. by apply O.
Qed.

(** X7. [backfillTimelines] asks for the timeline of every match stored
    without one, once each: every such match is counted as updated or as
    failed, none is retried.  It keeps the ids of the store, changes no
    cell but [timelineJson], and leaves alone the matches that have a
    timeline. *)
Theorem backfillTimelines_accounts (w : World) (r : TimelineBackfill) (w' : World) :
  backfillTimelines w = (r, w') →
  tb_total r = length (selectWhere lacksTimeline w)
  ∧ (tb_updated r + tb_failed r = tb_total r)%nat
  ∧ tick w' = (tick w + tb_total r)%nat
  ∧ player_ranks w' = player_ranks w
  ∧ storesAgreeOutside ["timelineJson"] (matches w) (matches w')
  ∧ (∀ id row, matches w !! id = Some row → lacksTimeline row = false →
               matches w' !! id = Some row).
Proof.
  unfold Maintenance.backfillTimelines.
  destruct ((selectWhere lacksTimeline w).*1) as [|id0 ids] eqn:E.
  - intros [= <- <-]. cbn. apply fmap_nil_inv in E. rewrite E.
    repeat split; try done; try lia. apply storesAgreeOutside_refl.
  - destruct (foldl backfillTimeline (0%nat, 0%nat, w) (id0 :: ids))
      as [[updated failed] w1] eqn:F.
    assert (length (id0 :: ids) = length (selectWhere lacksTimeline w)) as Hlen
      by (by rewrite <- E, length_fmap).
    intros [= <- <-]. cbn [tb_total tb_updated tb_failed].
    apply backfillTimeline_loop in F as (C & _ & _ & T & R & A & O).
    cbn [length] in Hlen, C, T.
    split; [done|]. split; [lia|]. split; [done|].
    split; [done|]. split; [done|].
    intros id row Hrow Hhas. rewrite O; [done|]. rewrite <- E.
    intros (row' & Hrow' & Hlacks)%selectWhere_ids. congruence.
Qed.

Lemma backfillTimeline_loop_answered (ids : list string) :
  (∀ k id, ∃ t, getMatchTimeline k id = Some t ∧ t ≠ VUndef) →
  ∀ updated failed w updated' failed' w',
    foldl backfillTimeline (updated, failed, w) ids = (updated', failed', w') →
    failed' = failed
    ∧ ∀ id row', matches w' !! id = Some row' →
        (id ∈ ids → lacksTimeline row' = false)
        ∧ (id ∉ ids → matches w !! id = Some row').
Proof.
  intros Hok. induction ids as [|id0 ids IH];
    intros updated failed w updated' failed' w'; cbn [foldl].
  - intros [= <- <- <-]. split; [done|]. intros id row' Hrow'.
    split; [by intros ?%elem_of_nil | done].
  - unfold Maintenance.backfillTimeline at 2.
    destruct (Hok (tick w) id0) as (t & -> & Ht). intros F.
    apply IH in F as [Hf Hrows]. split; [done|].
    intros id row' Hrow'. destruct (Hrows id row' Hrow') as [Hin Hout].
    destruct (decide (id ∈ ids)) as [Hids|Hids].
    { split; [by intros _; apply Hin|]. intros Hn. exfalso. apply Hn. by right. }
    specialize (Hout Hids). cbn [matches setMatches] in Hout.
    destruct (decide (id = id0)) as [->|Hne].
    + split; [|intros Hn; exfalso; apply Hn; left].
      intros _. rewrite lookup_alter_eq in Hout.
      destruct (matches w !! id0) as [row|]; [|done]. injection Hout as <-.
      unfold lacksTimeline, column. rewrite lookup_insert_eq.
      by destruct t.
    + rewrite lookup_alter_ne in Hout by done.
      split; [|done]. intros [?|?]%elem_of_cons; done.
Qed.

(** X8. [backfillTimelines] is idempotent once the timelines arrive: when
    every request is answered (with a timeline, not [undefined]), no match
    fails, and a second pass finds nothing to do and asks for nothing. *)
Theorem backfillTimelines_idempotent (w : World) (r : TimelineBackfill) (w' : World) :
  (∀ k id, ∃ t, getMatchTimeline k id = Some t ∧ t ≠ VUndef) →
  backfillTimelines w = (r, w') →
  tb_failed r = 0%nat
  ∧ tb_updated r = tb_total r
  ∧ backfillTimelines w'
    = ({| tb_updated := 0; tb_failed := 0; tb_total := 0 |}, w').
Proof.
  intros Hok H.
  assert (selectWhere lacksTimeline w' = [] → backfillTimelines w'
            = ({| tb_updated := 0; tb_failed := 0; tb_total := 0 |}, w')) as Hdone.
  { intros E. unfold Maintenance.backfillTimelines. by rewrite E. }
  revert H. unfold Maintenance.backfillTimelines at 1.
  destruct ((selectWhere lacksTimeline w).*1) as [|id0 ids] eqn:E.
  - intros [= <- <-]. split; [done|]. split; [done|]. apply Hdone.
    by apply fmap_nil_inv in E.
  - destruct (foldl backfillTimeline (0%nat, 0%nat, w) (id0 :: ids))
      as [[updated failed] w1] eqn:F.
    intros [= <- <-]. cbn [tb_total tb_updated tb_failed].
    pose proof (backfillTimeline_loop _ _ _ _ _ _ _ F) as (C & _).
    apply (backfillTimeline_loop_answered _ Hok) in F as [-> Hrows].
    cbn [length] in C.
    split; [done|]. split; [lia|]. apply Hdone, selectWhere_nil.
    intros id row' Hrow'. destruct (Hrows id row' Hrow') as [Hin Hout].
    destruct (decide (id ∈ id0 :: ids)) as [Hids|Hids]; [by apply Hin|].
    specialize (Hout Hids). destruct (lacksTimeline row') eqn:L; [|done].
    exfalso. apply Hids. rewrite <- E. apply selectWhere_ids. eauto.
Qed.

(** *** Derived statistics *)

Lemma statsColumns_names stats : (statsColumns stats).*1 = derivedColumns.
Proof. reflexivity. Qed.

Lemma recomputed_agrees stats (row : gmap string sqlval) :
  agreeOutside derivedColumns row (list_to_map (statsColumns stats) ∪ row).
Proof.
  intros c Hc. apply lookup_union_r. apply not_elem_of_list_to_map_1.
  by rewrite statsColumns_names.
Qed.

Lemma backfillStats_loop (rows : list (string * gmap string sqlval)) :
  ∀ updated w updated' w',
    foldl backfillStats (updated, w) rows = (updated', w') →
    updated' = (updated + length rows)%nat
    ∧ tick w' = tick w
    ∧ player_ranks w' = player_ranks w
    ∧ storesAgreeOutside derivedColumns (matches w) (matches w')
    ∧ (∀ id, id ∉ rows.*1 → matches w' !! id = matches w !! id)
    ∧ (NoDup rows.*1 →
       ∀ id row, (id, row) ∈ rows → matches w !! id = Some row →
         matches w' !! id
         = Some (list_to_map (statsColumns (statsOfRow row)) ∪ row)).
Proof.
  induction rows as [|[id0 row0] rows IH]; intros updated w updated' w';
    cbn [foldl].
  - intros [= <- <-]. cbn. split; [lia|]. split; [done|]. split; [done|].
    split; [apply storesAgreeOutside_refl|]. split; [done|].
    by intros _ id row ?%elem_of_nil.
  - unfold Maintenance.backfillStats at 2. intros F.
    apply IH in F as (U & T & R & A & O & P).
    cbn [tick matches setMatches player_ranks length fst snd fmap list_fmap] in *.
    split; [lia|]. split; [done|]. split; [done|]. split; [|split].
    + eapply storesAgreeOutside_trans; [|exact A].
      apply storesAgreeOutside_alter. intros row. apply recomputed_agrees.
    + intros id Hn. apply not_elem_of_cons in Hn as [Hne Hn].
      rewrite O by done. by rewrite lookup_alter_ne.
    + intros Hnd id row Hin Hrow. apply NoDup_cons in Hnd as [Hfresh Hnd].
      destruct (decide (id = id0)) as [->|Hne].
      * assert (row = row0) as ->.
        { apply elem_of_cons in Hin as [[= ->]|Hin]; [done|].
          exfalso. apply Hfresh. apply list_elem_of_fmap. by exists (id0, row). }
        rewrite O by done. rewrite lookup_alter_eq, Hrow. done.
      * apply elem_of_cons in Hin as [[= -> ->]|Hin]; [done|].
        apply P; [done..|]. by rewrite lookup_alter_ne.
Qed.

(** X9. [backfillAdvancedStats] makes no request to the outside: it only
    rewrites the seven derived columns of the matches it selects (detail
    stored, [csDiff15] null), counts each as updated, and keeps every
    other cell, every other match and the ids of the store. *)
Theorem backfillAdvancedStats_local (w : World) (r : StatsBackfill) (w' : World) :
  backfillAdvancedStats w = (r, w') →
  tick w' = tick w
  ∧ player_ranks w' = player_ranks w
  ∧ sb_total r = length (selectWhere lacksStats w)
  ∧ sb_updated r = sb_total r
  ∧ storesAgreeOutside derivedColumns (matches w) (matches w')
  ∧ (∀ id row, matches w !! id = Some row → lacksStats row = false →
               matches w' !! id = Some row).
Proof.
  unfold Maintenance.backfillAdvancedStats.
  destruct (selectWhere lacksStats w) as [|kv rows] eqn:E.
  - intros [= <- <-]. cbn. repeat split; try done.
    apply storesAgreeOutside_refl.
  - destruct (foldl backfillStats (0%nat, w) (kv :: rows)) as [updated w1] eqn:F.
    intros [= <- <-]. cbn [sb_total sb_updated].
    apply backfillStats_loop in F as (U & T & R & A & O & _).
    split; [done|]. split; [done|]. split; [done|]. split; [done|].
    split; [done|].
    intros id row Hrow Hhas. rewrite O; [done|]. rewrite <- E.
    intros (row' & Hrow' & Hlacks)%selectWhere_ids. congruence.
Qed.

Lemma statsOfRow_without_timeline (row : gmap string sqlval) :
  lacksTimeline row = true → Stats.csDiff15 (statsOfRow row) = VNull.
Proof.
  unfold lacksTimeline, Maintenance.statsOfRow. intros L.
  destruct (column row "timelineJson"); try done. cbn [unbind].
  unfold Stats.computeAdvancedStatsForMatch, Stats.run.
  by destruct (Stats.resolveSubject _ _ _ _).
Qed.

(** X10. [backfillAdvancedStats] cannot complete a match that has no
    timeline: its [csDiff15] stays null, so the match is selected again by
    every later pass. *)
Theorem backfillAdvancedStats_repeats_without_timeline (w : World)
    (r : StatsBackfill) (w' : World) (id : string) (row : gmap string sqlval) :
  backfillAdvancedStats w = (r, w') →
  matches w !! id = Some row →
  lacksStats row = true →
  lacksTimeline row = true →
  ∃ row', matches w' !! id = Some row'
          ∧ column row' "csDiff15" = SNull
          ∧ lacksStats row' = true
          ∧ id ∈ (selectWhere lacksStats w').*1.
Proof.
  intros H Hrow Hstats Htl.
  assert ((id, row) ∈ selectWhere lacksStats w) as Hsel
    by by apply selectWhere_elem.
  revert H. unfold Maintenance.backfillAdvancedStats.
  destruct (selectWhere lacksStats w) as [|kv rows] eqn:E;
    [by apply elem_of_nil in Hsel|].
  destruct (foldl backfillStats (0%nat, w) (kv :: rows)) as [updated w1] eqn:F.
  intros [= <- <-].
  apply backfillStats_loop in F as (_ & _ & _ & _ & _ & P).
  specialize (P ltac:(rewrite <- E; apply selectWhere_NoDup) id row Hsel Hrow).
  set (row' := list_to_map (statsColumns (statsOfRow row)) ∪ row) in *.
  assert (column row' "csDiff15" = SNull) as Hcs.
  { unfold column, row'. erewrite lookup_union_Some_l; [|reflexivity].
    cbn. by rewrite statsOfRow_without_timeline. }
  assert (lacksStats row' = true) as Hstill.
  { unfold lacksStats in Hstats |- *. rewrite Hcs.
    apply andb_true_iff in Hstats as [Hraw _].
    unfold column in Hraw |- *. unfold row'.
    rewrite (recomputed_agrees (statsOfRow row) row "rawJson");
      [by rewrite Hraw|].
    unfold derivedColumns. rewrite !elem_of_cons, elem_of_nil.
    intros [?|[?|[?|[?|[?|[?|[?|[]]]]]]]]; discriminate. }
  exists row'. split; [done|]. split; [done|]. split; [done|].
  apply selectWhere_ids. eauto.
Qed.

End WithServices.

End MaintenanceFacts.

(** ** Refreshing the rank cache *)

Module RankRefresh.
Import JS Sync.

Section WithServices.

Variable getLeagueByPuuid : nat → string → option value.
Variable Date_now : nat → Z.

#[local] Abbreviation refreshRank := (refreshRank getLeagueByPuuid Date_now).
#[local] Abbreviation getPlayerRank := (getPlayerRank getLeagueByPuuid Date_now).

Lemma rankRow_fields puuid leagueData now row :
  rankRow puuid leagueData now = Some row →
  rank_puuid row = puuid ∧ fetchedAt row = now.
Proof.
  unfold rankRow. destruct (get leagueData "solo"); cbn; [|done].
  destruct (get leagueData "flex"); cbn; [|done]. by intros [= <-].
Qed.

(** X11. A refresh that succeeds is an upsert followed by a hit: when no
    fresh entry is cached and the API answers with readable league data,
    [getPlayerRank] returns the new row, stamped with the time read after
    the answer, stores it under the player id without touching any other
    entry or any match, and a later call whose cut-off lies before that
    stamp returns the stored row without asking the API again. *)
Theorem getPlayerRank_refresh_then_hit (puuid : string) (maxAge : Z) (w : World)
    (leagueData : value) (row : RankEntry) :
  freshRank puuid (Date_now (tick w) - maxAge) w = None →
  getLeagueByPuuid (S (tick w)) puuid = Some leagueData →
  rankRow puuid leagueData (Date_now (S (S (tick w)))) = Some row →
  ∃ w',
    getPlayerRank puuid maxAge w = (Some row, w')
    ∧ fetchedAt row = Date_now (S (S (tick w)))
    ∧ player_ranks w' !! puuid = Some (storedEntry row)
    ∧ (∀ other, other ≠ puuid →
         player_ranks w' !! other = player_ranks w !! other)
    ∧ matches w' = matches w
    ∧ (∀ maxAge', fetchedAt row > Date_now (tick w') - maxAge' →
         getPlayerRank puuid maxAge' w' = (Some (storedEntry row), tock w')).
Proof.
  intros Hstale Hapi Hrow.
  destruct (rankRow_fields _ _ _ _ Hrow) as [Hp Hf].
  eexists. unfold Sync.getPlayerRank at 1.
  change (freshRank puuid (Date_now (tick w) - maxAge) (tock w))
    with (freshRank puuid (Date_now (tick w) - maxAge) w).
  rewrite Hstale. unfold Sync.refreshRank. cbn [tick tock].
  rewrite Hapi. cbn [tick tock]. rewrite Hrow.
  split; [reflexivity|]. split; [done|].
  cbn [player_ranks setRanks tock matches]. split; [apply lookup_insert_eq|].
  split; [by intros other Hne; apply lookup_insert_ne|]. split; [done|].
  intros maxAge' Hfresh. unfold Sync.getPlayerRank, freshRank.
  cbn [player_ranks setRanks tock tick] in *.
  rewrite lookup_insert_eq. cbn [mbind option_bind storedEntry fetchedAt].
  by rewrite (proj2 (Z.gtb_gt _ _)) by lia.
Qed.

(** X12. With [maxAge = 0], as [fetchRanksForNewMatches] calls it, the
    cache is bypassed as long as the clock is not behind the stored stamp:
    the API is always asked, and its answer, or after a failed refresh the
    stored entry, is what comes back. *)
Theorem getPlayerRank_zero_age_always_refreshes (puuid : string) (w : World) :
  (∀ e, player_ranks w !! puuid = Some e → fetchedAt e ≤ Date_now (tick w)) →
  freshRank puuid (Date_now (tick w) - 0) w = None
  ∧ (S (tick w) < tick (getPlayerRank puuid 0 w).2)%nat
  ∧ (getPlayerRank puuid 0 w).1
    = match (refreshRank puuid (tock w)).1 with
      | Some row => Some row
      | None => player_ranks w !! puuid
      end.
Proof.
  intros Hclock.
  assert (freshRank puuid (Date_now (tick w) - 0) w = None) as Hnone.
  { unfold freshRank. destruct (player_ranks w !! puuid) as [e|] eqn:E; [|done].
    cbn. specialize (Hclock e eq_refl).
    rewrite Z.gtb_ltb. by rewrite (proj2 (Z.ltb_ge _ _)) by lia. }
  split; [done|]. unfold Sync.getPlayerRank.
  change (freshRank puuid (Date_now (tick w) - 0) (tock w))
    with (freshRank puuid (Date_now (tick w) - 0) w).
  rewrite Hnone.
  pose proof (RankFacts.refreshRank_failed getLeagueByPuuid Date_now puuid (tock w))
    as Hsame.
  assert (S (tick w) < tick (refreshRank puuid (tock w)).2)%nat as Hticks.
  { unfold Sync.refreshRank. cbn [tick tock].
    destruct (getLeagueByPuuid (S (tick w)) puuid) as [leagueData|]; [|cbn; lia].
    destruct (rankRow puuid leagueData _); cbn; lia. }
  destruct (refreshRank puuid (tock w)) as [[row|] w2]; cbn [fst snd] in *.
  - done.
  - split; [done|]. by rewrite Hsame.
Qed.

End WithServices.

End RankRefresh.

(** ** Pagination of the listing *)

Module ListingFacts.
Import Sync Listing.

Section WithTransport.

Variable requestPage : nat → nat → option (list string).

Lemma paginate_full_pages (full : list (list string)) :
  ∀ fuel request start acc,
    (∀ i page, full !! i = Some page →
       requestPage (request + i) (start + i * batchSize) = Some page
       ∧ (batchSize ≤ length page)%nat) →
    paginate requestPage (length full + fuel) request start acc
    = paginate requestPage fuel (request + length full)
        (start + length full * batchSize) (acc ++ concat full).
Proof.
  induction full as [|page full IH]; intros fuel request start acc Hfull.
  - cbn. by rewrite !Nat.add_0_r, app_nil_r.
  - cbn [length Nat.add paginate].
    destruct (Hfull 0%nat page eq_refl) as [Hreq Hlen].
    rewrite !Nat.add_0_r in Hreq. rewrite Hreq.
    unfold batchSize in *.
    rewrite (proj2 (Nat.eqb_neq _ _)) by lia.
    rewrite (proj2 (Nat.ltb_ge _ _)) by lia.
    rewrite IH.
    + cbn [concat]. rewrite <- app_assoc. f_equal; lia.
    + intros i p Hp. specialize (Hfull (S i) p Hp).
      replace (S request + i)%nat with (request + S i)%nat by lia.
      replace (start + 100 + i * 100)%nat with (start + S i * 100)%nat by lia.
      done.
Qed.

(** X13. [getMatchIds] pages until the first short page.  When the first
    requests are answered with full pages (a hundred ids or more) and the
    next with a short page (possibly empty), it returns the ids of all
    these pages in order, after one request per page; when that next
    request is rejected instead, the listing is rejected and the ids
    gathered so far are dropped.  Each request starts a hundred ids after
    the previous one. *)
Theorem getMatchIds_collects_pages (full : list (list string))
    (answer : option (list string)) (fuel : nat) :
  (∀ i page, full !! i = Some page →
     requestPage i (i * batchSize) = Some page ∧ (batchSize ≤ length page)%nat) →
  requestPage (length full) (length full * batchSize) = answer →
  (∀ short, answer = Some short → (length short < batchSize)%nat) →
  (length full < fuel)%nat →
  getMatchIds requestPage fuel
  = Some (match answer with
          | Some short => Resolved (concat full ++ short)
          | None => Rejected
          end, S (length full)).
Proof.
  intros Hfull Hlast Hshort Hfuel. unfold getMatchIds.
  replace fuel with (length full + S (fuel - S (length full)))%nat by lia.
  rewrite paginate_full_pages by done. cbn [paginate Nat.add app].
  rewrite Hlast. destruct answer as [short|]; [|done].
  specialize (Hshort short eq_refl).
  destruct (length short =? 0)%nat eqn:E.
  - apply Nat.eqb_eq, nil_length_inv in E. subst. by rewrite app_nil_r.
  - by rewrite (proj2 (Nat.ltb_lt _ _)) by done.
Qed.

End WithTransport.

End ListingFacts.

(** ** Helpers and entries of the badge catalog *)

Module BadgeRuleFacts.
Import JS Badges BadgeRules.

Ltac bool_to_Z :=
  repeat match goal with
  | H : (_ <? _) = true |- _ => apply Z.ltb_lt in H
  | H : (_ <? _) = false |- _ => apply Z.ltb_ge in H
  | H : (_ >? _) = true |- _ => rewrite Z.gtb_ltb in H; apply Z.ltb_lt in H
  | H : (_ >? _) = false |- _ => rewrite Z.gtb_ltb in H; apply Z.ltb_ge in H
  end.

(** X14. The zones nest as the map has them: a fountain lies inside the
    base of its team, the jungle side of a team lies outside its base, and
    no position is in the base of both teams. *)
Theorem zones_nest (pos teamId : value) :
  (isInFountain pos teamId = true → isInBase pos teamId = true)
  ∧ (isInJungleSide pos teamId = true → isInBase pos teamId = false)
  ∧ (isInBase pos (VNum 100) = true → isInBase pos (VNum 200) = false).
Proof.
  unfold isInFountain, isInJungleSide, isInBase.
  destruct (truthy pos); cbn [negb]; [|done].
  change (strict_eq (VNum 100) (VNum 100)) with true.
  change (strict_eq (VNum 200) (VNum 100)) with false. cbv iota.
  unfold js_lt, js_gt, js_cmp.
  destruct (to_num (optget pos "x")) as [x|], (to_num (optget pos "y")) as [y|];
    cbn [to_num];
    try (destruct (strict_eq teamId (VNum 100));
         rewrite ?andb_false_r, ?andb_false_l; by repeat split).
  destruct (strict_eq teamId (VNum 100)).
  - split; [|split].
    + intros [Hx Hy]%andb_true_iff. bool_to_Z. apply andb_true_iff.
      split; apply Z.ltb_lt; lia.
    + intros [_ Hb]%andb_true_iff. by apply negb_true_iff in Hb.
    + intros [Hx Hy]%andb_true_iff. bool_to_Z. apply andb_false_iff. left.
      rewrite Z.gtb_ltb. apply Z.ltb_ge. lia.
  - split; [|split].
    + intros [Hx Hy]%andb_true_iff. bool_to_Z. apply andb_true_iff.
      split; rewrite Z.gtb_ltb; apply Z.ltb_lt; lia.
    + intros [_ Hb]%andb_true_iff. by apply negb_true_iff in Hb.
    + intros [Hx Hy]%andb_true_iff. bool_to_Z. apply andb_false_iff. left.
      rewrite Z.gtb_ltb. apply Z.ltb_ge. lia.
Qed.

(** *** The nearest frame *)

Lemma closer_numeric timestamp closest frame fz cz tz :
  to_num (optget frame "timestamp") = Some fz →
  to_num (optget closest "timestamp") = Some cz →
  to_num timestamp = Some tz →
  closer timestamp closest frame = Some (Z.abs (fz - tz) <? Z.abs (cz - tz)).
Proof.
  intros Hf Hc Ht. unfold closer.
  assert (∀ v z, to_num (optget v "timestamp") = Some z →
            get v "timestamp" = Some (optget v "timestamp")) as Hget.
  { intros v z. by destruct v. }
  rewrite (Hget _ _ Hf), (Hget _ _ Hc). cbn.
  unfold abs_lt, js_sub. by rewrite Hf, Hc, Ht.
Qed.

Lemma nearestFrom_spec timestamp tz (frames : list value) :
  to_num timestamp = Some tz →
  Forall (fun f => is_Some (to_num (optget f "timestamp"))) frames →
  ∀ closest cz,
    to_num (optget closest "timestamp") = Some cz →
    ∃ f fz, nearestFrom timestamp closest frames = Some f
      ∧ (f = closest ∨ f ∈ frames)
      ∧ to_num (optget f "timestamp") = Some fz
      ∧ Z.abs (fz - tz) ≤ Z.abs (cz - tz)
      ∧ ∀ g gz, g ∈ frames → to_num (optget g "timestamp") = Some gz →
          Z.abs (fz - tz) ≤ Z.abs (gz - tz).
Proof.
  intros Ht. induction 1 as [|frame frames [fz0 Hfz0] _ IH]; intros closest cz Hc.
  - exists closest, cz. cbn. split; [done|]. split; [by left|]. split; [done|].
    split; [lia|]. by intros g gz ?%elem_of_nil.
  - cbn [nearestFrom]. rewrite (closer_numeric _ _ _ _ _ _ Hfz0 Hc Ht). cbn.
    destruct (Z.abs (fz0 - tz) <? Z.abs (cz - tz)) eqn:E; bool_to_Z.
    + destruct (IH frame fz0 Hfz0) as (f & fz & Hn & Hin & Hfz & Hle & Hmin).
      exists f, fz. split; [done|]. split.
      { right. destruct Hin as [->|Hin]; [left | by right]. }
      split; [done|]. split; [lia|].
      intros g gz [->|Hg]%elem_of_cons Hgz; [|by eapply Hmin].
      rewrite Hfz0 in Hgz. injection Hgz as <-. done.
    + destruct (IH closest cz Hc) as (f & fz & Hn & Hin & Hfz & Hle & Hmin).
      exists f, fz. split; [done|]. split.
      { destruct Hin as [->|Hin]; [by left | right; by right]. }
      split; [done|]. split; [done|].
      intros g gz [->|Hg]%elem_of_cons Hgz; [|by eapply Hmin].
      rewrite Hfz0 in Hgz. injection Hgz as <-. lia.
Qed.

(** X15. On frames whose timestamps are numbers, [getNearestFrame] returns
    one of the frames, and no frame is closer in time to the timestamp
    asked for than the one returned. *)
Theorem getNearestFrame_is_nearest (frames : list value) (timestamp : value)
    (tz : Z) :
  to_num timestamp = Some tz →
  frames ≠ [] →
  Forall (fun f => is_Some (to_num (optget f "timestamp"))) frames →
  ∃ f gap, getNearestFrame frames timestamp = Some f
    ∧ f ∈ frames
    ∧ timeGap f timestamp = Some gap
    ∧ ∀ g, g ∈ frames → ∃ gap', timeGap g timestamp = Some gap' ∧ gap ≤ gap'.
Proof.
  intros Ht Hne Hall. destruct frames as [|first rest]; [done|].
  pose proof (Forall_inv Hall) as [cz Hcz].
  destruct (nearestFrom_spec timestamp tz (first :: rest) Ht Hall first cz Hcz)
    as (f & fz & Hn & Hin & Hfz & _ & Hmin).
  exists f, (Z.abs (fz - tz)). split; [done|]. split.
  { destruct Hin as [->|Hin]; [left | done]. }
  split; [unfold timeGap; by rewrite Hfz, Ht|].
  intros g Hg. rewrite Forall_forall in Hall. destruct (Hall g Hg) as [gz Hgz].
  exists (Z.abs (gz - tz)). split; [unfold timeGap; by rewrite Hgz, Ht|].
  by eapply Hmin.
Qed.

(** *** The kill events of a context *)

Lemma insertByTime_perm x l : insertByTime x l ≡ₚ x :: l.
Proof.
  induction l as [|y l IH]; [done|]. cbn [insertByTime].
  destruct (js_lt _ _); [|done]. rewrite IH. apply Permutation_swap.
Qed.

Lemma insertByTime_sorted x l :
  is_Some (to_num (optget x "timestamp")) →
  Forall (fun e => is_Some (to_num (optget e "timestamp"))) l →
  StronglySorted notLater l → StronglySorted notLater (insertByTime x l).
Proof.
  intros [xz Hx] Hnum Hs. induction Hs as [|y l Hs IH Hy]; cbn [insertByTime].
  - repeat constructor.
  - apply Forall_cons in Hnum as [[yz Hyz] Hnum].
    unfold js_lt, js_cmp, js_sub. rewrite Hyz, Hx. cbn.
    destruct (yz - xz <? 0) eqn:E; bool_to_Z.
    + constructor; [by apply IH|].
      rewrite insertByTime_perm. constructor; [|done].
      exists yz, xz. repeat split; try done. lia.
    + constructor; [by constructor|]. constructor.
      * exists xz, yz. repeat split; try done. lia.
      * eapply Forall_impl; [exact Hy|]. intros e (a & b & Ha & Hb & Hab).
        rewrite Hyz in Ha. injection Ha as <-.
        exists xz, b. repeat split; try done. lia.
Qed.

(** X16. The sort of the kill events keeps all of them and, when their
    timestamps are numbers, puts them in the order of their timestamps. *)
Theorem sortByTime_sorts (events : list value) :
  sortByTime events ≡ₚ events
  ∧ (Forall (fun e => is_Some (to_num (optget e "timestamp"))) events →
     StronglySorted notLater (sortByTime events)).
Proof.
  split.
  - induction events as [|e events IH]; [done|]. cbn.
    by rewrite insertByTime_perm, IH.
  - induction 1 as [|e events He Hnum IH]; [constructor|]. cbn.
    apply insertByTime_sorted; [done| |by apply IH].
    assert (sortByTime events ≡ₚ events) as ->; [|done].
    clear. induction events as [|e events IH]; [done|]. cbn.
    by rewrite insertByTime_perm, IH.
Qed.

(** *** Contexts and catalogs *)

Section WithParser.

Variable JSON_parse : string → option value.

#[local] Abbreviation buildContext := (buildContext JSON_parse).
#[local] Abbreviation evaluateBadges := (evaluateBadges JSON_parse).

Lemma filter_from_partition (cb : nat → value → option bool) (l : list value) :
  ∀ i mine theirs,
    filter_from cb i l = Some mine →
    filter_from (fun j p => negb <$> cb j p) i l = Some theirs →
    mine.*2 ++ theirs.*2 ≡ₚ l.
Proof.
  induction l as [|p l IH]; intros i mine theirs; cbn [filter_from].
  - by intros [= <-] [= <-].
  - destruct (cb i p) as [b|]; cbn; [|done].
    destruct (filter_from cb (S i) l) as [m|] eqn:M; cbn; [|done].
    intros [= <-].
    destruct (filter_from (fun j q => negb <$> cb j q) (S i) l) as [t|] eqn:T;
      cbn; [|done].
    intros [= <-]. specialize (IH _ _ _ M T).
    destruct b; cbn.
    + by rewrite IH.
    + rewrite <- Permutation_middle. by rewrite IH.
Qed.

Lemma find_from_lookup cb (l : list value) :
  ∀ i j p, find_from cb i l = Some (Some (j, p)) →
    (i ≤ j)%nat ∧ l !! (j - i)%nat = Some p ∧ cb j p = Some true.
Proof.
  induction l as [|q l IH]; intros i j p; cbn [find_from]; [done|].
  destruct (cb i q) as [[]|] eqn:E; cbn; [| |done].
  - intros [= <- <-]. rewrite Nat.sub_diag. done.
  - intros H. destruct (IH _ _ _ H) as (Hle & Hl & Hcb). split; [lia|].
    split; [|done]. replace (j - i)%nat with (S (j - S i)) by lia. done.
Qed.

Lemma filter_from_keeps cb (l : list value) :
  ∀ i kept j p, filter_from cb i l = Some kept →
    (i ≤ j)%nat → l !! (j - i)%nat = Some p → cb j p = Some true →
    p ∈ kept.*2.
Proof.
  induction l as [|q l IH]; intros i kept j p; cbn [filter_from]; [done|].
  destruct (cb i q) as [b|] eqn:E; cbn; [|done].
  destruct (filter_from cb (S i) l) as [tl|] eqn:F; cbn; [|done].
  intros [= <-] Hle Hl Hcb. destruct (decide (j = i)) as [->|Hne].
  - rewrite Nat.sub_diag in Hl. injection Hl as ->.
    rewrite Hcb in E. injection E as <-. cbn. left.
  - assert (p ∈ tl.*2) as Hin.
    { eapply (IH (S i) tl j p F); [lia| |done].
      replace (j - i)%nat with (S (j - S i)) in Hl by lia. done. }
    destruct b; [by right | done].
Qed.

(** X17. [buildContext] splits the participants in two: every participant
    is on the subject's team or on the enemy team, none on both and none
    dropped; the subject is one of the participants and is on its own
    team. *)
Theorem buildContext_partitions_participants (m : value) (ctx : Context) :
  buildContext m = Some (Some ctx) →
  myTeam ctx ++ enemyTeam ctx ≡ₚ participants ctx
  ∧ me ctx ∈ participants ctx
  ∧ (optget (me ctx) "teamId" ≠ VNaN → me ctx ∈ myTeam ctx).
Proof.
  unfold Badges.buildContext. intros H.
  destruct (get m "rawJson") as [rawJson|]; cbn [mbind option_bind] in H; [|done].
  destruct (truthy rawJson); cbn [negb] in H; [|done].
  destruct (parse_if_string JSON_parse rawJson) as [raw|];
    cbn [mbind option_bind] in H; [|done].
  destruct (get raw "info") as [info|]; cbn [mbind option_bind] in H; [|done].
  destruct (get info "participants") as [ps|]; cbn [mbind option_bind] in H;
    [|done].
  destruct (as_array ps) as [l|]; cbn [mbind option_bind] in H; [|done].
  destruct (find_from _ 0 l) as [[[i p]|]|] eqn:Hfind;
    cbn [mbind option_bind] in H; [| done..].
  destruct (truthy p) eqn:Htruthy; cbn [negb] in H; [|done].
  destruct (filter_from (on_my_team p i) 0 l) as [mine|] eqn:Hmine;
    cbn [mbind option_bind] in H; [|done].
  destruct (filter_from (on_enemy_team p i) 0 l) as [theirs|] eqn:Htheirs;
    cbn [mbind option_bind] in H; [|done].
  destruct (if truthy (optget m "timelineJson") then _ else _) as [tl|];
    cbn [mbind option_bind] in H; [|done].
  injection H as <-. cbn [myTeam enemyTeam participants me].
  apply find_from_lookup in Hfind as (_ & Hl & _). rewrite Nat.sub_0_r in Hl.
  split; [by eapply filter_from_partition|].
  split; [by eapply list_elem_of_lookup_2|].
  intros Hnan. eapply (filter_from_keeps _ l 0%nat mine i p Hmine); [lia| |].
  - by rewrite Nat.sub_0_r.
  - unfold on_my_team.
    assert (get p "teamId" = Some (optget p "teamId")) as ->.
    { by destruct p. }
    cbn. rewrite Nat.eqb_refl. unfold same_or_eq.
    by destruct (optget p "teamId").
Qed.

(** X18. The badges [evaluateBadges] returns come in the order of the
    catalog, each entry at most once: their names are a subsequence of the
    names of the catalog. *)
Theorem evaluateBadges_in_catalog_order (catalog : list Badge) (m : value)
    (earned : list Earned) :
  evaluateBadges catalog m = Some earned →
  (earned_name <$> earned) `sublist_of` (name <$> catalog)
  ∧ (length earned ≤ length catalog)%nat.
Proof.
  intros H.
  assert ((earned_name <$> earned) `sublist_of` (name <$> catalog)) as Hsub.
  { destruct (buildContext m) as [[ctx|]|] eqn:B.
    - rewrite (BadgeFacts.evaluateBadges_context JSON_parse _ _ _ B) in H.
      injection H as <-. clear B.
      induction catalog as [|b catalog IH]; [done|]. cbn.
      rewrite fmap_app. unfold earnedBy at 1.
      destruct (evaluate b ctx) as [v|]; [destruct (truthy v)|]; cbn.
      + by constructor.
      + by constructor.
      + by constructor.
    - unfold Badges.evaluateBadges in H. rewrite B in H. injection H as <-.
      apply sublist_nil_l.
    - unfold Badges.evaluateBadges in H. by rewrite B in H. }
  split; [done|]. apply sublist_length in Hsub. by rewrite !length_fmap in Hsub.
Qed.

End WithParser.

(** *** "Architect of Ruin" *)

Lemma inhibLoop_exists towers i tower inhibs :
  inhibLoop towers i tower inhibs
  = existsb (fun inhib => negb (abs_diff_gt (optget tower "timestamp")
                                            (optget inhib "timestamp") 60000))
            inhibs.
Proof.
  induction inhibs as [|inhib inhibs IH]; [done|]. cbn [inhibLoop existsb].
  destruct (abs_diff_gt _ _ _); cbn [negb orb]; [done|].
  by destruct (truthy _).
Qed.

Lemma towerLoop_exists towers i remaining inhibs :
  towerLoop towers i remaining inhibs
  = existsb (fun tower =>
               existsb (fun inhib =>
                          negb (abs_diff_gt (optget tower "timestamp")
                                            (optget inhib "timestamp") 60000))
                       inhibs)
            remaining.
Proof.
  revert i. induction remaining as [|tower remaining IH]; intros i; [done|].
  cbn [towerLoop existsb]. rewrite inhibLoop_exists.
  destruct (existsb _ inhibs); [done|]. apply IH.
Qed.

(** X19. "Architect of Ruin" asks for less than it says: with a timeline
    and a known subject it is earned exactly when the subject destroyed
    some tower and some inhibitor not more than 60 s apart; the search for
    a second tower has no say in the outcome. *)
Theorem architectOfRuin_needs_no_second_tower (ctx : Context) :
  evaluate architectOfRuin ctx
  = Some (VBool
      (hasTimeline ctx && truthy (myPId ctx)
       && existsb (fun tower =>
            existsb (fun inhib =>
                       negb (abs_diff_gt (optget tower "timestamp")
                                         (optget inhib "timestamp") 60000))
                    (builtBy ctx "INHIBITOR_BUILDING"))
            (builtBy ctx "TOWER_BUILDING")))
  ∧ ∀ tower inhib tz iz,
      hasTimeline ctx = true → truthy (myPId ctx) = true →
      tower ∈ builtBy ctx "TOWER_BUILDING" →
      inhib ∈ builtBy ctx "INHIBITOR_BUILDING" →
      to_num (optget tower "timestamp") = Some tz →
      to_num (optget inhib "timestamp") = Some iz →
      Z.abs (tz - iz) ≤ 60000 →
      evaluate architectOfRuin ctx = Some (VBool true).
Proof.
  assert (evaluate architectOfRuin ctx
    = Some (VBool
      (hasTimeline ctx && truthy (myPId ctx)
       && existsb (fun tower =>
            existsb (fun inhib =>
                       negb (abs_diff_gt (optget tower "timestamp")
                                         (optget inhib "timestamp") 60000))
                    (builtBy ctx "INHIBITOR_BUILDING"))
            (builtBy ctx "TOWER_BUILDING")))) as Heq.
  { cbn [evaluate architectOfRuin]. rewrite towerLoop_exists.
    by destruct (hasTimeline ctx), (truthy (myPId ctx)). }
  split; [exact Heq|].
  intros tower inhib tz iz Htl Hpid Ht Hi Htz Hiz Hgap.
  rewrite Heq, Htl, Hpid. cbn [andb]. do 2 f_equal.
  apply existsb_exists. exists tower. split; [by apply list_elem_of_In|].
  apply existsb_exists. exists inhib. split; [by apply list_elem_of_In|].
  unfold abs_diff_gt. rewrite Htz, Hiz. apply negb_true_iff, Z.ltb_ge. lia.
Qed.

End BadgeRuleFacts.

(** ** Edges of the advanced statistics *)

Module StatsEdges.
Import JS Stats.

Section WithParser.

Variable JSON_parse : string → option value.

#[local] Abbreviation computeAdvancedStatsForMatch :=
  (computeAdvancedStatsForMatch JSON_parse).
#[local] Abbreviation resolveSubject := (resolveSubject JSON_parse).
#[local] Abbreviation timelineFrames := (timelineFrames JSON_parse).
#[local] Abbreviation timelineAnalysis := (timelineAnalysis JSON_parse).

Lemma timelineFrames_absent tl :
  truthy tl = false
  ∨ (∃ t, parse_if_string JSON_parse tl = Some t
          ∧ truthy (optget (optget t "info") "frames") = false) →
  timelineFrames tl = Return.
Proof.
  unfold Stats.timelineFrames. intros [->|(t & -> & Hframes)]; [done|].
  destruct (truthy tl); cbn.
  - destruct (truthy t); cbn; [|done].
    destruct (truthy (optget t "info")); cbn; [|done]. by rewrite Hframes.
  - done.
Qed.

(** X20. Without a usable timeline (none given, or one that parses but has
    no frames) the statistics of the timeline all stay [null], while the
    two read off the participant, [firstBlood] and [dmgGoldRatio], are
    still computed. *)
Theorem advancedStats_without_timeline (md tl name team : value) :
  truthy tl = false
  ∨ (∃ t, parse_if_string JSON_parse tl = Some t
          ∧ truthy (optget (optget t "info") "frames") = false) →
  let r := computeAdvancedStatsForMatch md tl name team in
  csDiff15 r = VNull ∧ goldDiff15 r = VNull ∧ xpDiff15 r = VNull
  ∧ isolatedDeaths r = VNull ∧ objectiveRate r = None
  ∧ ∀ s, resolveSubject md name team = Next s →
      firstBlood r = firstBloodOf (me s)
      ∧ dmgGoldRatio r = dmgGoldRatioOf (me s).
Proof.
  intros H%timelineFrames_absent r. subst r.
  unfold Stats.computeAdvancedStatsForMatch, Stats.run. rewrite H.
  destruct (resolveSubject md name team) as [s0| |]; cbn;
    do 5 (split; [done|]); intros s' E; [by injection E as <- | done..].
Qed.

Lemma find_from_never cb (l : list value) :
  (∀ i p, cb i p = None ∨ cb i p = Some false) →
  ∀ i, find_from cb i l = None ∨ find_from cb i l = Some None.
Proof.
  intros Hcb. induction l as [|p l IH]; intros i; cbn [find_from]; [by right|].
  destruct (Hcb i p) as [-> | ->]; cbn; [by left | apply IH].
Qed.

(** X21. A subject without a position label has no lane opponent: when
    both [teamPosition] and [lane] are empty or missing, the three lane
    differences stay [null], whatever the timeline holds. *)
Theorem lane_diffs_need_position_label (md tl name team : value) (s : Subject) :
  resolveSubject md name team = Next s →
  positionOf (me s) = VStr "" →
  let r := computeAdvancedStatsForMatch md tl name team in
  csDiff15 r = VNull ∧ goldDiff15 r = VNull ∧ xpDiff15 r = VNull.
Proof.
  intros R Hpos r.
  pose proof (StatsFacts.run_lanes JSON_parse md tl name team s R) as L.
  cbv zeta in L. fold r in L.
  assert ((csDiff15 r, goldDiff15 r, xpDiff15 r) = (VNull, VNull, VNull)) as E;
    [|by injection E].
  rewrite L. destruct (timelineFrames tl) as [frames| |]; [|done..].
  unfold laneDiffs, findOpponent. rewrite Hpos.
  destruct (truthy (frame15Of frames) && _); [|done].
  destruct (truthy (optget_at _ (myPId s))); [|done].
  destruct (find_from_never (is_opponent s (VStr "")) (participants s)) with (i := 0%nat)
    as [-> | ->]; [|done..].
  intros i p. unfold is_opponent. destruct (get p "teamId"); cbn; [|by left].
  right. by rewrite andb_false_r.
Qed.

(** X22. For every match whose timeline is analysed, a death of the
    subject with a recorded position, in a frame that has participant
    frames, is not counted as isolated when an objective (an elite monster
    or a building) fell within 15 s of it; a death without a recorded
    position always is. *)
Theorem isolatedDeaths_excludes_death_near_objective (md tl name team : value)
    (s : Subject) (a : Analysis) :
  timelineAnalysis md tl name team = Some (s, a) →
  isolatedDeaths (computeAdvancedStatsForMatch md tl name team)
  = VNum (Z.of_nat (length (filter (fun d => isolatedDeath a d = true) (myDeaths a))))
  ∧ (∀ death obj dt ot,
      death ∈ myDeaths a →
      obj ∈ objectiveEvents a →
      truthy (optget death "position") = true →
      truthy (optget (nearFrame (frameList a) (optget death "timestamp"))
                     "participantFrames") = true →
      to_num (optget death "timestamp") = Some dt →
      to_num (optget obj "timestamp") = Some ot →
      Z.abs (ot - dt) ≤ 15000 →
      death ∉ filter (fun d => isolatedDeath a d = true) (myDeaths a))
  ∧ (∀ death,
      death ∈ myDeaths a →
      truthy (optget death "position") = false →
      death ∈ filter (fun d => isolatedDeath a d = true) (myDeaths a)).
Proof.
  intros T. split.
  { by destruct (StatsFacts.run_analysed JSON_parse _ _ _ _ _ _ T) as (_ & -> & _). }
  split.
  - intros death obj dt ot _ Hobj Hpos Hpf Hdt Hot Hgap
      [Hiso _]%list_elem_of_filter.
    unfold isolatedDeath in Hiso. rewrite Hpos, Hpf in Hiso.
    rewrite (StatsFacts.truthy_optget _ _ Hpf) in Hiso. cbn [negb orb] in Hiso.
    apply andb_true_iff in Hiso as [_ Hnone]. apply negb_true_iff in Hnone.
    assert (objectiveNearby a death = true) as Hnear; [|congruence].
    apply existsb_exists. exists obj. split; [by apply list_elem_of_In|].
    unfold abs_diff_le. rewrite Hot, Hdt. by apply Z.leb_le.
  - intros death Hin Hpos. apply list_elem_of_filter. split; [|done].
    unfold isolatedDeath. by rewrite Hpos.
Qed.

Lemma analyse_deaths s frames a :
  analyse s frames = Next a →
  myDeaths a
  = filter (fun e => strict_eq (optget e "victimId") (myPId s) = true)
           (killEvents a).
Proof.
  unfold analyse. intros H.
  destruct (as_array frames) as [fl|]; cbn in H; [|done].
  destruct (flatEvents fl) as [evs|]; cbn in H; [|done].
  destruct (filterM (has_type ["CHAMPION_KILL"]) evs) as [kills|];
    cbn in H; [|done].
  destruct (filterM (has_type ["ELITE_MONSTER_KILL"; "BUILDING_KILL"]) evs)
    as [objs|]; cbn in H; [|done].
  destruct (filter_from (is_teammate s) 0 (participants s)) as [mates|];
    cbn in H; [|done].
  by injection H as <-.
Qed.

(** X23. For every match whose timeline is analysed, [isolatedDeaths] is a
    count of kill events whose victim is the subject: it is a number
    between 0 and the number of those events, and 0 when the subject never
    died. *)
Theorem isolatedDeaths_bounded_by_deaths (md tl name team : value)
    (s : Subject) (a : Analysis) :
  timelineAnalysis md tl name team = Some (s, a) →
  ∃ n : nat,
    isolatedDeaths (computeAdvancedStatsForMatch md tl name team)
    = VNum (Z.of_nat n)
    ∧ (n ≤ length (filter (fun e => strict_eq (optget e "victimId") (myPId s)
                                    = true)
                          (killEvents a)))%nat.
Proof.
  intros T.
  destruct (StatsFacts.run_analysed JSON_parse _ _ _ _ _ _ T) as (_ & Hiso & _).
  exists (isolatedCount a). split; [done|].
  unfold Stats.timelineAnalysis in T.
  destruct (resolveSubject md name team) as [s0| |]; [|done..].
  destruct (timelineFrames tl) as [frames| |]; [|done..].
  destruct (Stats.analyse s0 frames) as [a0| |] eqn:A; [|done..].
  injection T as <- <-. rewrite <- (analyse_deaths _ _ _ A).
  unfold isolatedCount. apply length_filter.
Qed.

End WithParser.

End StatsEdges.

(** ** The properties above on the further sample data *)

Module OnScenarios.
Import JS Examples Scenarios.

(** An equation between closed terms, by evaluating both sides. *)
Ltac evaluated :=
  match goal with |- ?x = ?y => exact (@eq_refl _ x <: x = y) end.

(** X1 on [syncedWorld]. *)
Lemma discover_requests_on_syncedWorld :
  let d := Sync.discover sameListing "p-garen" syncedWorld in
  Sync.matches d.2 = Sync.matches syncedWorld
  ∧ Sync.player_ranks d.2 = Sync.player_ranks syncedWorld
  ∧ (Sync.tick d.2 ≤ Sync.tick syncedWorld + 11)%nat
  ∧ (d.1 ≠ Sync.Rejected → Sync.tick syncedWorld + 4 ≤ Sync.tick d.2)%nat.
Proof.
  apply (SyncInvariants.discover_bounded_requests sameListing "p-garen"
           syncedWorld).
  evaluated.
Defined.

(** X2 on a first run that finds the match EUW1_2. *)
Lemma syncMatches_inserts_EUW1_2 :
  let w' := (Sync.syncMatches freshListing detailService unreachable parseDetail
               detailText "p-garen" emptyWorld).2 in
  Sync.newMatches firstResult = length ["EUW1_2"]
  ∧ NoDup ["EUW1_2"]
  ∧ (∀ id, id ∈ ["EUW1_2"] →
       Sync.listed freshListing "p-garen" id
       ∧ Sync.matches emptyWorld !! id = None
       ∧ is_Some (Sync.matches w' !! id))
  ∧ (Sync.newMatches firstResult + Sync.skipped firstResult
     ≤ Sync.total firstResult)%nat.
Proof.
  apply (SyncInvariants.syncMatches_newMatchIds_are_inserted freshListing
           detailService unreachable parseDetail detailText "p-garen" emptyWorld
           firstResult).
  - evaluated.
  - reflexivity.
Defined.

(** X3 on the same listing and a store that holds another match. *)
Lemma syncMatches_keeps_EUW1_1 :
  let run := Sync.syncMatches freshListing detailService unreachable parseDetail
               detailText "p-garen" syncedWorld in
  Sync.player_ranks run.2 = Sync.player_ranks syncedWorld
  ∧ (∀ id, is_Some (Sync.matches syncedWorld !! id) →
           is_Some (Sync.matches run.2 !! id))
  ∧ (∀ id, ¬ Sync.listed freshListing "p-garen" id →
           Sync.matches run.2 !! id = Sync.matches syncedWorld !! id).
Proof.
  apply (SyncInvariants.syncMatches_keeps_store freshListing detailService
           unreachable parseDetail detailText "p-garen" syncedWorld
           (Sync.syncMatches freshListing detailService unreachable parseDetail
              detailText "p-garen" syncedWorld).1).
  evaluated.
Defined.

(** X4 on a store that holds the listed match with nothing but its id,
    while the detail service is down. *)
Lemma syncMatches_partial_is_not_new :
  let run := Sync.syncMatches sameListing unreachable unreachable noParse noText
               "p-garen" partialWorld in
  run.1 = Sync.Resolved {| Sync.newMatches := 0; Sync.skipped := 0;
                           Sync.total := 1; Sync.newMatchIds := Some [] |}
  ∧ Sync.newMatches {| Sync.newMatches := 0; Sync.skipped := 0;
                       Sync.total := 1; Sync.newMatchIds := Some [] |} = 0%nat.
Proof.
  split; [evaluated|].
  refine (proj1 (SyncInvariants.syncMatches_stored_is_never_new sameListing
                   unreachable unreachable noParse noText "p-garen" partialWorld
                   _ (Sync.syncMatches sameListing unreachable unreachable noParse
                        noText "p-garen" partialWorld).2 _ _)).
  - intros id (k & start & queue & ids & [= <-] & Hin).
    apply list_elem_of_singleton in Hin as ->. vm_compute. eexists. reflexivity.
  - evaluated.
Defined.

(** X5 on a store that holds EUW1_1 with nothing but its id, the detail
    service down: the run resolves and the row is as it was. *)
Lemma syncMatches_detail_down_on_partialWorld :
  let run := Sync.syncMatches sameListing unreachable timelineService noParse
               noText "p-garen" partialWorld in
  run.1 = Sync.Resolved {| Sync.newMatches := 0; Sync.skipped := 0;
                           Sync.total := 1; Sync.newMatchIds := Some [] |}
  ∧ Sync.matches run.2 = Sync.matches partialWorld
  ∧ Sync.player_ranks run.2 = Sync.player_ranks partialWorld.
Proof.
  split; [evaluated|].
  destruct (SyncInvariants.syncMatches_detail_service_down sameListing
              unreachable timelineService noParse noText "p-garen" partialWorld
              (Sync.syncMatches sameListing unreachable timelineService noParse
                 noText "p-garen" partialWorld).1
              (Sync.syncMatches sameListing unreachable timelineService noParse
                 noText "p-garen" partialWorld).2) as (Hm & Hr & _).
  - intros k id. reflexivity.
  - evaluated.
  - split; [exact Hm | exact Hr].
Defined.


(** X7 on [untimedWorld]: one request, one timeline stored. *)
Lemma backfillTimelines_on_untimedWorld :
  let r := {| Maintenance.tb_updated := 1; Maintenance.tb_failed := 0;
              Maintenance.tb_total := 1 |} in
  let w' := (Maintenance.backfillTimelines timelineService detailText
               untimedWorld).2 in
  Maintenance.tb_total r
  = length (Maintenance.selectWhere Maintenance.lacksTimeline untimedWorld)
  ∧ (Maintenance.tb_updated r + Maintenance.tb_failed r
     = Maintenance.tb_total r)%nat
  ∧ Sync.tick w' = (Sync.tick untimedWorld + Maintenance.tb_total r)%nat
  ∧ Sync.player_ranks w' = Sync.player_ranks untimedWorld
  ∧ Maintenance.storesAgreeOutside ["timelineJson"]
      (Sync.matches untimedWorld) (Sync.matches w')
  ∧ (∀ id row, Sync.matches untimedWorld !! id = Some row →
               Maintenance.lacksTimeline row = false →
               Sync.matches w' !! id = Some row).
Proof.
  apply (MaintenanceFacts.backfillTimelines_accounts timelineService detailText
           untimedWorld).
  evaluated.
Defined.

(** X8 on [untimedWorld]: the second pass has nothing to do. *)
Lemma backfillTimelines_twice_on_untimedWorld :
  let r := {| Maintenance.tb_updated := 1; Maintenance.tb_failed := 0;
              Maintenance.tb_total := 1 |} in
  let w' := (Maintenance.backfillTimelines timelineService detailText
               untimedWorld).2 in
  Maintenance.tb_failed r = 0%nat
  ∧ Maintenance.tb_updated r = Maintenance.tb_total r
  ∧ Maintenance.backfillTimelines timelineService detailText w'
    = ({| Maintenance.tb_updated := 0; Maintenance.tb_failed := 0;
          Maintenance.tb_total := 0 |}, w').
Proof.
  apply (MaintenanceFacts.backfillTimelines_idempotent timelineService detailText
           untimedWorld).
  - intros k id. eexists. split; [reflexivity | discriminate].
  - evaluated.
Defined.

(** X9 on [untimedWorld]. *)
Lemma backfillAdvancedStats_on_untimedWorld :
  let r := {| Maintenance.sb_updated := 1; Maintenance.sb_total := 1 |} in
  let w' := (Maintenance.backfillAdvancedStats parseDetail untimedWorld).2 in
  Sync.tick w' = Sync.tick untimedWorld
  ∧ Sync.player_ranks w' = Sync.player_ranks untimedWorld
  ∧ Maintenance.sb_total r
    = length (Maintenance.selectWhere Maintenance.lacksStats untimedWorld)
  ∧ Maintenance.sb_updated r = Maintenance.sb_total r
  ∧ Maintenance.storesAgreeOutside Maintenance.derivedColumns
      (Sync.matches untimedWorld) (Sync.matches w')
  ∧ (∀ id row, Sync.matches untimedWorld !! id = Some row →
               Maintenance.lacksStats row = false →
               Sync.matches w' !! id = Some row).
Proof.
  apply (MaintenanceFacts.backfillAdvancedStats_local parseDetail untimedWorld).
  evaluated.
Defined.

(** X10 on [untimedWorld]: EUW1_2, stored without a timeline, is selected
    again after the pass. *)
Lemma backfillAdvancedStats_selects_EUW1_2_again :
  let w' := (Maintenance.backfillAdvancedStats parseDetail untimedWorld).2 in
  ∃ row', Sync.matches w' !! "EUW1_2" = Some row'
          ∧ Sync.column row' "csDiff15" = Sync.SNull
          ∧ Maintenance.lacksStats row' = true
          ∧ "EUW1_2" ∈ (Maintenance.selectWhere Maintenance.lacksStats w').*1.
Proof.
  apply (MaintenanceFacts.backfillAdvancedStats_repeats_without_timeline
           parseDetail untimedWorld
           (Maintenance.backfillAdvancedStats parseDetail untimedWorld).1
           (Maintenance.backfillAdvancedStats parseDetail untimedWorld).2
           "EUW1_2"
           (default ∅ (Sync.matches untimedWorld !! "EUW1_2"))).
  - evaluated.
  - evaluated.
  - evaluated.
  - evaluated.
Defined.

(** X11 on [rankedWorld]: the stale entry is replaced by the answer of the
    API. *)
Lemma getPlayerRank_refreshes_staleEntry :
  ∃ w',
    Sync.getPlayerRank leagueService frozenClock "p-garen" 86400000 rankedWorld
    = (Some refreshedEntry, w')
    ∧ Sync.fetchedAt refreshedEntry = frozenClock (S (S (Sync.tick rankedWorld)))
    ∧ Sync.player_ranks w' !! "p-garen" = Some (Sync.storedEntry refreshedEntry)
    ∧ (∀ other, other ≠ "p-garen" →
         Sync.player_ranks w' !! other = Sync.player_ranks rankedWorld !! other)
    ∧ Sync.matches w' = Sync.matches rankedWorld
    ∧ (∀ maxAge', Sync.fetchedAt refreshedEntry
                  > frozenClock (Sync.tick w') - maxAge' →
         Sync.getPlayerRank leagueService frozenClock "p-garen" maxAge' w'
         = (Some (Sync.storedEntry refreshedEntry), Sync.tock w')).
Proof.
  apply (RankRefresh.getPlayerRank_refresh_then_hit leagueService frozenClock
           "p-garen" 86400000 rankedWorld goldLeague refreshedEntry).
  - vm_compute. reflexivity.
  - reflexivity.
  - vm_compute. reflexivity.
Defined.

(** X12 on [rankedWorld]. *)
Lemma getPlayerRank_zero_age_on_rankedWorld :
  Sync.freshRank "p-garen" (frozenClock (Sync.tick rankedWorld) - 0) rankedWorld
  = None
  ∧ (S (Sync.tick rankedWorld)
     < Sync.tick (Sync.getPlayerRank leagueService frozenClock "p-garen" 0
                    rankedWorld).2)%nat
  ∧ (Sync.getPlayerRank leagueService frozenClock "p-garen" 0 rankedWorld).1
    = match (Sync.refreshRank leagueService frozenClock "p-garen"
               (Sync.tock rankedWorld)).1 with
      | Some row => Some row
      | None => Sync.player_ranks rankedWorld !! "p-garen"
      end.
Proof.
  apply (RankRefresh.getPlayerRank_zero_age_always_refreshes leagueService
           frozenClock "p-garen" rankedWorld).
  intros e He. vm_compute in He. injection He as <-. vm_compute. discriminate.
Defined.

(** X13 on a full page followed by a page of one id. *)
Lemma getMatchIds_of_twoPages :
  Listing.getMatchIds twoPages 5
  = Some (Sync.Resolved (concat [fullPage] ++ ["EUW1_4"]), 2%nat).
Proof.
  apply (ListingFacts.getMatchIds_collects_pages twoPages [fullPage]
           (Some ["EUW1_4"]) 5).
  - intros [|i] page; [|done]. intros [= <-]. split; [reflexivity|].
    vm_compute. lia.
  - reflexivity.
  - intros short [= <-]. vm_compute. lia.
  - vm_compute. lia.
Defined.

(** X14 on a position in the fountain of team 100 and one in its jungle. *)
Lemma zones_of_team_100 :
  Badges.isInBase (point 500 500) (VNum 100) = true
  ∧ Badges.isInBase (point 5000 5000) (VNum 100) = false
  ∧ Badges.isInBase (point 500 500) (VNum 200) = false.
Proof.
  split; [|split].
  - apply (proj1 (BadgeRuleFacts.zones_nest (point 500 500) (VNum 100))).
    reflexivity.
  - apply (proj1 (proj2 (BadgeRuleFacts.zones_nest (point 5000 5000) (VNum 100)))).
    reflexivity.
  - apply (proj2 (proj2 (BadgeRuleFacts.zones_nest (point 500 500) (VNum 100)))).
    reflexivity.
Defined.

(** X15 on three frames: 1:25 is nearest to the frame of 1:00. *)
Lemma getNearestFrame_of_threeFrames :
  ∃ f gap, BadgeRules.getNearestFrame threeFrames (VNum 85000) = Some f
    ∧ f ∈ threeFrames
    ∧ BadgeRules.timeGap f (VNum 85000) = Some gap
    ∧ ∀ g, g ∈ threeFrames →
        ∃ gap', BadgeRules.timeGap g (VNum 85000) = Some gap' ∧ gap ≤ gap'.
Proof.
  apply (BadgeRuleFacts.getNearestFrame_is_nearest threeFrames (VNum 85000) 85000).
  - reflexivity.
  - discriminate.
  - repeat (constructor; [eexists; reflexivity|]). constructor.
Defined.

(** X16 on the two deaths of [twoDeaths], later one first. *)
Lemma sortByTime_of_two_deaths :
  Badges.sortByTime [secondDeath; firstDeath] ≡ₚ [secondDeath; firstDeath]
  ∧ StronglySorted BadgeRules.notLater
      (Badges.sortByTime [secondDeath; firstDeath]).
Proof.
  destruct (BadgeRuleFacts.sortByTime_sorts [secondDeath; firstDeath])
    as [Hperm Hsorted].
  split; [exact Hperm|]. apply Hsorted.
  repeat (constructor; [eexists; reflexivity|]). constructor.
Defined.

(** X17 on [storedMatch]. *)
Lemma buildContext_partitions_storedMatch :
  Badges.myTeam storedContext ++ Badges.enemyTeam storedContext
  ≡ₚ Badges.participants storedContext
  ∧ Badges.me storedContext ∈ Badges.participants storedContext
  ∧ (optget (Badges.me storedContext) "teamId" ≠ VNaN →
     Badges.me storedContext ∈ Badges.myTeam storedContext).
Proof.
  apply (BadgeRuleFacts.buildContext_partitions_participants noParse storedMatch).
  vm_compute. reflexivity.
Defined.

(** X18 on [storedMatch] and six entries of the catalog. *)
Lemma evaluateBadges_order_on_storedMatch :
  (Badges.earned_name <$> storedEarned)
    `sublist_of` (Badges.name <$> longerExcerpt)
  ∧ (length storedEarned ≤ length longerExcerpt)%nat.
Proof.
  apply (BadgeRuleFacts.evaluateBadges_in_catalog_order noParse longerExcerpt
           storedMatch).
  vm_compute. reflexivity.
Defined.

(** X19 on [siegeMatch]: one tower and one inhibitor earn the badge. *)
Lemma architectOfRuin_on_siegeMatch :
  Badges.evaluate BadgeRules.architectOfRuin siegeContext = Some (VBool true).
Proof.
  apply (proj2 (BadgeRuleFacts.architectOfRuin_needs_no_second_tower siegeContext)
           towerKill inhibitorKill 600000 630000).
  - reflexivity.
  - reflexivity.
  - apply list_elem_of_In. vm_compute. auto.
  - apply list_elem_of_In. vm_compute. auto.
  - reflexivity.
  - reflexivity.
  - vm_compute. discriminate.
Defined.

(** X24 on the death at 1:10: the source looks into the frame of 1:00,
    where Sona stands 100 units away; no objective falls in the match. *)
Lemma nearDeath_with_ally_not_isolated :
  Stats.objectiveEvents lateDeathAnalysis.2 = []
  ∧ Stats.isolatedDeath lateDeathAnalysis.2 nearDeath = false
  ∧ nearDeath ∉ filter (fun d => Stats.isolatedDeath lateDeathAnalysis.2 d = true)
                       (Stats.myDeaths lateDeathAnalysis.2).
Proof.
  split; [vm_compute; reflexivity|].
  destruct (StatsFacts.isolatedDeaths_excludes_death_near_ally noParse
              twoDeaths lateDeathTimeline (VStr "Garen") (VNum 100)
              lateDeathAnalysis.1 lateDeathAnalysis.2) as [_ Hnear].
  { vm_compute. reflexivity. }
  apply (Hnear nearDeath (VNum 2) 1000 1000 1100 1000).
  - apply list_elem_of_In. vm_compute. auto.
  - apply list_elem_of_In. vm_compute. auto.
  - vm_compute. reflexivity.
  - vm_compute. reflexivity.
  - lia.
Defined.

(** X20 on [twoDeaths] without its timeline. *)
Lemma advancedStats_of_twoDeaths_without_timeline :
  let r := Stats.computeAdvancedStatsForMatch noParse twoDeaths VNull
             (VStr "Garen") (VNum 100) in
  Stats.csDiff15 r = VNull ∧ Stats.goldDiff15 r = VNull ∧ Stats.xpDiff15 r = VNull
  ∧ Stats.isolatedDeaths r = VNull ∧ Stats.objectiveRate r = None
  ∧ ∀ s, Stats.resolveSubject noParse twoDeaths (VStr "Garen") (VNum 100)
         = Stats.Next s →
      Stats.firstBlood r = Stats.firstBloodOf (Stats.me s)
      ∧ Stats.dmgGoldRatio r = Stats.dmgGoldRatioOf (Stats.me s).
Proof.
  apply (StatsEdges.advancedStats_without_timeline noParse twoDeaths VNull
           (VStr "Garen") (VNum 100)).
  left. reflexivity.
Defined.

(** X21 on a match without position labels. *)
Lemma lane_diffs_of_unlabelled :
  let r := Stats.computeAdvancedStatsForMatch noParse unlabelled
             unlabelledTimeline (VStr "Garen") (VNum 100) in
  Stats.csDiff15 r = VNull ∧ Stats.goldDiff15 r = VNull ∧ Stats.xpDiff15 r = VNull.
Proof.
  apply (StatsEdges.lane_diffs_need_position_label noParse unlabelled
           unlabelledTimeline (VStr "Garen") (VNum 100) unlabelledGaren).
  - vm_compute. reflexivity.
  - vm_compute. reflexivity.
Defined.

(** X22 on [twoDeaths]: the second death comes ten seconds before an elite
    monster falls. *)
Lemma secondDeath_near_objective_not_isolated :
  secondDeath
  ∉ filter (fun d => Stats.isolatedDeath twoDeathsAnalysis.2 d = true)
           (Stats.myDeaths twoDeathsAnalysis.2).
Proof.
  destruct (StatsEdges.isolatedDeaths_excludes_death_near_objective noParse
              twoDeaths twoDeathsTimeline (VStr "Garen") (VNum 100)
              twoDeathsAnalysis.1 twoDeathsAnalysis.2) as (_ & Hnear & _).
  { vm_compute. reflexivity. }
  apply (Hnear secondDeath (monsterKill 2 100000) 90000 100000).
  - apply list_elem_of_In. vm_compute. auto.
  - apply list_elem_of_In. vm_compute. auto.
  - reflexivity.
  - vm_compute. reflexivity.
  - reflexivity.
  - reflexivity.
  - vm_compute. discriminate.
Defined.

(** X23 on [twoDeaths]: one isolated death out of two. *)
Lemma isolatedDeaths_of_twoDeaths_bounded :
  ∃ n : nat,
    Stats.isolatedDeaths
      (Stats.computeAdvancedStatsForMatch noParse twoDeaths twoDeathsTimeline
         (VStr "Garen") (VNum 100)) = VNum (Z.of_nat n)
    ∧ (n ≤ length (filter (fun e => strict_eq (optget e "victimId")
                                      (Stats.myPId twoDeathsAnalysis.1) = true)
                          (Stats.killEvents twoDeathsAnalysis.2)))%nat.
Proof.
  apply (StatsEdges.isolatedDeaths_bounded_by_deaths noParse twoDeaths
           twoDeathsTimeline (VStr "Garen") (VNum 100)).
  vm_compute. reflexivity.
Defined.

End OnScenarios.
